(** * percona-agent: metric aggregation, spool sender and MySQL connector

    A shallow embedding of the telemetry kernel of percona-agent:

    - package [mm]: the per-metric accumulator [Stats]
      ([NewStats], [Reset], [Add], [Summarize], [Finalize]) and the run
      loop of the [Aggregator] ([run], [report]);
    - package [data]: the [Sender] ([run], [send], [sendAllFiles])
      against a scripted spooler and websocket client;
    - package [mysql]: the [Connection] ([Connect], [Close], [Set],
      [fillCreateTableInClassicExplain]) against a scripted driver, and
      data source names ([DSN], [String], [StringWithSuffixes],
      [HideDSNPassword]);
    - package [main]: [CheckConfig].

    Numeric conventions.  Go's [int64] is a [Z] whose arithmetic is wrapped
    by [wrap64] where the source computes with it.  Go's [float64] is the
    type [float64] below: the finite values, the two infinities and NaN,
    with the comparisons, sums, differences and quotients of IEEE 754 on
    them (a comparison with NaN is false, [+Inf - +Inf] and [0/0] are NaN,
    a non-zero value over a zero duration is an infinity).  Finite values
    are exact rationals: there is no rounding, no overflow of a finite
    result and no negative zero.  Durations of the Sender stay in [Q].
    Go's [int] holds slice lengths only and is an unwrapped [Z]: a slice
    whose length times 95 leaves 63 bits cannot be allocated. *)

From Stdlib Require Import ZArith QArith Qround Lia Lqa Sorted Permutation.
From stdpp Require Import gmap strings list pretty.

Open Scope Z_scope.

(** ** Machine integers and control outcomes *)

Definition wrap64 (z : Z) : Z := (z + 2 ^ 63) mod 2 ^ 64 - 2 ^ 63.

Definition int64_range (z : Z) : Prop := - 2 ^ 63 <= z < 2 ^ 63.

(** A call either returns or panics ([log.Panic], nil dereference). *)
Inductive outcome (A : Type) : Type :=
| Returned (a : A)
| Panicked (msg : string).
Arguments Returned {A} a.
Arguments Panicked {A} msg.

(** ** [float64] *)

Inductive float64 : Type :=
| Finite (q : Q)
| PosInf
| NegInf
| NaN.

Declare Scope float_scope.
Delimit Scope float_scope with F.
Bind Scope float_scope with float64.

(** [float64(n)] of an integer. *)
Definition f64_of_int (n : Z) : float64 := Finite (inject_Z n).

Definition f64_to_int (a : float64) : option Z :=
  match a with
  | Finite (Qmake n 1) => Some n
  | _ => None
  end.

Number Notation float64 f64_of_int f64_to_int : float_scope.

Definition isNaN (a : float64) : bool :=
  match a with NaN => true | _ => false end.

Definition isFinite (a : float64) : bool :=
  match a with Finite _ => true | _ => false end.

(** [a <= b] and [a < b]. *)
Definition f64_le (a b : float64) : bool :=
  match a, b with
  | NaN, _ | _, NaN => false
  | NegInf, _ | _, PosInf => true
  | Finite x, Finite y => Qle_bool x y
  | _, _ => false
  end.

Definition f64_lt (a b : float64) : bool :=
  match a, b with
  | NaN, _ | _, NaN => false
  | NegInf, NegInf | PosInf, PosInf => false
  | NegInf, _ | _, PosInf => true
  | Finite x, Finite y => negb (Qle_bool y x)
  | _, _ => false
  end.

(** [a >= b], [a > b] and [a == b]. *)
Definition f64_ge (a b : float64) : bool := f64_le b a.
Definition f64_gt (a b : float64) : bool := f64_lt b a.
Definition f64_eq (a b : float64) : bool :=
  match a, b with
  | Finite x, Finite y => Qeq_bool x y
  | PosInf, PosInf | NegInf, NegInf => true
  | _, _ => false
  end.

Definition f64_neg (a : float64) : float64 :=
  match a with
  | Finite x => Finite (- x)
  | PosInf => NegInf
  | NegInf => PosInf
  | NaN => NaN
  end.

Definition f64_add (a b : float64) : float64 :=
  match a, b with
  | NaN, _ | _, NaN => NaN
  | PosInf, NegInf | NegInf, PosInf => NaN
  | PosInf, _ | _, PosInf => PosInf
  | NegInf, _ | _, NegInf => NegInf
  | Finite x, Finite y => Finite (x + y)
  end.

Definition f64_sub (a b : float64) : float64 := f64_add a (f64_neg b).

(** A zero divisor is the positive zero, which is what the conversion of
    an integer gives. *)
Definition f64_div (a b : float64) : float64 :=
  match a, b with
  | NaN, _ | _, NaN => NaN
  | Finite x, Finite y =>
      if Qeq_bool y 0 then
        if Qeq_bool x 0 then NaN
        else if Qle_bool 0 x then PosInf else NegInf
      else Finite (x / y)
  | Finite _, _ => Finite 0
  | PosInf, Finite y => if Qle_bool 0 y then PosInf else NegInf
  | NegInf, Finite y => if Qle_bool 0 y then NegInf else PosInf
  | _, _ => NaN
  end.

Definition Fle (a b : float64) : Prop := f64_le a b = true.
Definition Flt (a b : float64) : Prop := f64_lt a b = true.
Definition Feq (a b : float64) : Prop := f64_eq a b = true.

(** The same value: equal rationals, the same infinity, or NaN both. *)
Definition same (a b : float64) : Prop :=
  match a, b with
  | Finite x, Finite y => (x == y)%Q
  | PosInf, PosInf | NegInf, NegInf | NaN, NaN => True
  | _, _ => False
  end.

Notation "a <= b" := (Fle a b) : float_scope.
Notation "a < b" := (Flt a b) : float_scope.
Notation "a == b" := (Feq a b) : float_scope.
Notation "a + b" := (f64_add a b) : float_scope.
Notation "a - b" := (f64_sub a b) : float_scope.
Notation "a / b" := (f64_div a b) : float_scope.

(** ** [sort.Float64s] *)

(** [Float64Slice.Less]: NaN sorts before every other value. *)
Definition lessNaN (a b : float64) : bool :=
  f64_lt a b || (isNaN a && negb (isNaN b)).

(** [a] may stand before [b] in a sorted slice. *)
Definition notAfter (a b : float64) : Prop := lessNaN b a = false.

(** Ascending sort, modelled by insertion. *)
Fixpoint insert_Float64 (x : float64) (l : list float64) : list float64 :=
  match l with
  | [] => [x]
  | y :: l' => if lessNaN y x then y :: insert_Float64 x l' else x :: y :: l'
  end.

Fixpoint sort_Float64s (l : list float64) : list float64 :=
  match l with
  | [] => []
  | x :: l' => insert_Float64 x (sort_Float64s l')
  end.

(** [s.vals[i]] for an index the source keeps in range (see [pct_index_lt]). *)
Definition index (l : list float64) (i : Z) : float64 := nth (Z.to_nat i) l 0%F.

Module mm.

(** *** Data model *)

Record Metric : Type := mkMetric {
  Name : string;
  Type_ : string;   (* Go field [Type] *)
  Number : float64
}.

Record Stats : Type := mkStats {
  metricType : string;
  str : string;
  firstVal : bool;
  prevTs : Z;
  penuTs : Z;
  prevVal : float64;
  penuVal : float64;
  vals : list float64;
  sum : float64;
  Cnt : Z;
  Min : float64;
  Pct5 : float64;
  Avg : float64;
  Med : float64;
  Pct95 : float64;
  Max : float64
}.

Inductive error : Type :=
| InvalidMetricType (metricType : string)
| ValueLap (penuTs : Z) (penuVal : float64) (prevTs : Z) (prevVal : float64)
    (ts : Z) (val : float64).

(** Modelled from the spec: the table [MetricTypes] is declared in another
    file of the package; the data model gives [Type: enum{gauge, counter}] as the
    recognised set. *)
Definition MetricTypes (metricType : string) : bool :=
  String.eqb metricType "gauge" || String.eqb metricType "counter".

Definition NewStats (metricType : string) : error + Stats :=
  if negb (MetricTypes metricType) then inl (InvalidMetricType metricType)
  else inr {| metricType := metricType; str := ""; firstVal := true;
              prevTs := 0; penuTs := 0; prevVal := 0; penuVal := 0;
              vals := []; sum := 0; Cnt := 0; Min := 0; Pct5 := 0;
              Avg := 0; Med := 0; Pct95 := 0; Max := 0 |}.

(** *** [Stats.Add] *)

(** "Current values become previous values", optionally appending a rate. *)
Definition advance (s : Stats) (ts : Z) (number : float64)
    (vals' : list float64) (sum' : float64) (firstVal' : bool) : Stats :=
  {| metricType := metricType s; str := str s; firstVal := firstVal';
     prevTs := ts; penuTs := prevTs s;
     prevVal := number; penuVal := prevVal s;
     vals := vals'; sum := sum';
     Cnt := Cnt s; Min := Min s; Pct5 := Pct5 s; Avg := Avg s;
     Med := Med s; Pct95 := Pct95 s; Max := Max s |}.

(** The PCT-939 test guarding the "Value lap" error. *)
Definition lapped (s : Stats) (number : float64) : bool :=
  f64_gt (penuVal s) 0 && f64_eq (prevVal s) 0 && f64_gt number (penuVal s).

(** The per-second rate appended by the counter branch. *)
Definition rate (s : Stats) (number : float64) (ts : Z) : float64 :=
  let inc := (number - prevVal s)%F in
  let dur := wrap64 (ts - prevTs s) in
  (inc / f64_of_int dur)%F.

Definition Add (s : Stats) (m : Metric) (ts : Z) : outcome (Stats * option error) :=
  if String.eqb (metricType s) "gauge" then
    Returned
      ({| metricType := metricType s; str := str s; firstVal := firstVal s;
          prevTs := prevTs s; penuTs := penuTs s;
          prevVal := prevVal s; penuVal := penuVal s;
          vals := vals s ++ [Number m]; sum := (sum s + Number m)%F;
          Cnt := Cnt s; Min := Min s; Pct5 := Pct5 s; Avg := Avg s;
          Med := Med s; Pct95 := Pct95 s; Max := Max s |}, None)
  else if String.eqb (metricType s) "counter" then
    if negb (firstVal s) then
      if f64_ge (Number m) (prevVal s) then
        let err :=
          if lapped s (Number m)
          then Some (ValueLap (penuTs s) (penuVal s) (prevTs s) (prevVal s)
                              ts (Number m))
          else None in
        let val := rate s (Number m) ts in
        Returned (advance s ts (Number m) (vals s ++ [val]) (sum s + val)%F false,
                  err)
      else
        Returned (advance s ts (Number m) (vals s) (sum s) false, None)
    else
      Returned (advance s ts (Number m) (vals s) (sum s) false, None)
  else
    Panicked ("mm:Aggregator:Add: Invalid metric type: " +:+ metricType s).

(** *** [Stats.Summarize] and [Stats.Finalize] *)

Definition Summarize (s : Stats) : Stats :=
  if String.eqb (metricType s) "gauge" || String.eqb (metricType s) "counter" then
    let cnt := Z.of_nat (length (vals s)) in
    if 1 <? cnt then
      let sorted := sort_Float64s (vals s) in
      {| metricType := metricType s; str := str s; firstVal := firstVal s;
         prevTs := prevTs s; penuTs := penuTs s;
         prevVal := prevVal s; penuVal := penuVal s;
         vals := sorted; sum := sum s;
         Cnt := cnt;
         Min := index sorted 0;
         Pct5 := index sorted ((5 * cnt) / 100);
         Avg := (sum s / f64_of_int cnt)%F;
         Med := index sorted ((50 * cnt) / 100);
         Pct95 := index sorted ((95 * cnt) / 100);
         Max := index sorted (cnt - 1) |}
    else if cnt =? 1 then
      {| metricType := metricType s; str := str s; firstVal := firstVal s;
         prevTs := prevTs s; penuTs := penuTs s;
         prevVal := prevVal s; penuVal := penuVal s;
         vals := vals s; sum := sum s;
         Cnt := cnt;
         Min := index (vals s) 0;
         Pct5 := index (vals s) 0;
         Avg := index (vals s) 0;
         Med := index (vals s) 0;
         Pct95 := index (vals s) 0;
         Max := index (vals s) 0 |}
    else
      {| metricType := metricType s; str := str s; firstVal := firstVal s;
         prevTs := prevTs s; penuTs := penuTs s;
         prevVal := prevVal s; penuVal := penuVal s;
         vals := vals s; sum := sum s;
         Cnt := cnt;
         Min := Min s; Pct5 := Pct5 s; Avg := Avg s;
         Med := Med s; Pct95 := Pct95 s; Max := Max s |}
  else s.

(** [Finalize] returns the receiver as [Summarize] left it, and the result
    ([None] is Go's [nil]). *)
Definition Finalize (s : Stats) : Stats * option Stats :=
  if (Z.of_nat (length (vals s)) =? 0) then (s, None)
  else
    let s' := Summarize s in
    (s', Some {| metricType := ""; str := ""; firstVal := false;
                 prevTs := 0; penuTs := 0; prevVal := 0; penuVal := 0;
                 vals := []; sum := 0;
                 Cnt := Cnt s'; Min := Min s'; Pct5 := Pct5 s'; Avg := Avg s';
                 Med := Med s'; Pct95 := Pct95 s'; Max := Max s' |}).

(** *** Runs of [Add] *)

(** A monitor's samples for one metric, in order: each [Add] continues from
    the [Stats] the one before left, and what each returned is kept. *)
Fixpoint AddAll (s : Stats) (samples : list (Metric * Z))
    : outcome (Stats * list (option error)) :=
  match samples with
  | [] => Returned (s, [])
  | (m, ts) :: rest =>
      match Add s m ts with
      | Returned (s', err) =>
          match AddAll s' rest with
          | Returned (s'', errs) => Returned (s'', err :: errs)
          | Panicked msg => Panicked msg
          end
      | Panicked msg => Panicked msg
      end
  end.

Definition values (samples : list (Metric * Z)) : list float64 :=
  map (fun sample => Number (fst sample)) samples.

Definition stamps (samples : list (Metric * Z)) : list Z :=
  map snd samples.

(** Every value is strictly below the one before it. *)
Fixpoint falling (prev : float64) (l : list float64) : bool :=
  match l with
  | [] => true
  | v :: l' => f64_gt prev v && falling v l'
  end.

(** No value is below the one before it. *)
Fixpoint rising (prev : float64) (l : list float64) : bool :=
  match l with
  | [] => true
  | v :: l' => f64_ge v prev && rising v l'
  end.

(** No value is an infinity or NaN; no value is NaN. *)
Definition allFinite (l : list float64) : bool := forallb isFinite l.
Definition noNaN (l : list float64) : bool :=
  forallb (fun v => negb (isNaN v)) l.

(** Every timestamp is an [int64] strictly above the one before it. *)
Fixpoint ticking (prev : Z) (l : list Z) : bool :=
  match l with
  | [] => true
  | t :: l' => (prev <? t) && (t <? 2 ^ 63) && ticking t l'
  end.

(** As [ticking], and no two neighbours are [2^63] or more apart, so that
    their difference is an [int64] too. *)
Fixpoint ticking_close (prev : Z) (l : list Z) : bool :=
  match l with
  | [] => true
  | t :: l' => (prev <? t) && (t - prev <? 2 ^ 63) && ticking_close t l'
  end.

(** The rates of a counter as the spec words them: increase over duration,
    for each sample after the first. *)
Fixpoint rates (prev : float64 * Z) (l : list (float64 * Z)) : list float64 :=
  match l with
  | [] => []
  | (v, t) :: l' =>
      ((v - fst prev) / f64_of_int (t - snd prev))%F :: rates (v, t) l'
  end.

Definition points (samples : list (Metric * Z)) : list (float64 * Z) :=
  map (fun sample => (Number (fst sample), snd sample)) samples.

(** No value of the list is below the one before it. *)
Definition nondecreasing (l : list float64) : bool :=
  match l with
  | [] => true
  | v :: l' => rising v l'
  end.

(** The state in which the next [Add] cannot raise the lap error whatever
    it is given: the value before the last was not positive, or the last
    did not fall below it. *)
Definition unlappable (s : Stats) : Prop :=
  f64_gt (penuVal s) 0 = false \/ (penuVal s <= prevVal s)%F.

(** The types [NewStats] lets through. *)
Definition recognised (s : Stats) : Prop :=
  metricType s = "gauge" \/ metricType s = "counter".

(** The summary fields alone. *)
Definition summary (s : Stats)
    : Z * float64 * float64 * float64 * float64 * float64 * float64 :=
  (Cnt s, Min s, Pct5 s, Avg s, Med s, Pct95 s, Max s).

(** Nothing but the summary fields is set. *)
Definition stripped (s : Stats) : Prop :=
  metricType s = "" /\ str s = "" /\ firstVal s = false /\
  prevTs s = 0 /\ penuTs s = 0 /\ prevVal s = 0%F /\ penuVal s = 0%F /\
  vals s = [] /\ sum s = 0%F.

(** *** Aggregator *)

(** [time.Time] as an offset from the zero instant (January 1, year 1 UTC),
    which is what [IsZero] tests. *)
Definition Time : Type := Z.
Definition IsZero (t : Time) : bool := t =? 0.

Record Collection : Type := mkCollection {
  StartTs : Z;
  Collection_Metrics : list Metric   (* Go field [Metrics] *)
}.

(** Go type [Metrics], a [map[string]*Stats]. *)
Abbreviation Metrics := (gmap string Stats).

Record Report : Type := mkReport {
  Ts : Time;
  Report_Metrics : Metrics           (* Go field [Metrics] *)
}.

(** What the [select] of the run loop receives: a clock tick, a collection
    from a monitor, or the stop signal. *)
Inductive event : Type :=
| Tick (now : Time)
| Collect (collection : Collection)
| StopSignal.

(** The locals [startTs] and [cur] of [run], and the reports handed to
    [spool.Write] so far, oldest first. *)
Record Aggregator : Type := mkAggregator {
  startTs : Time;
  cur : Metrics;
  spool : list Report
}.

Definition NewAggregator (spool : list Report) : Aggregator :=
  {| startTs := 0; cur := ∅; spool := spool |}.

(** One iteration of [for _, metric := range collection.Metrics].  A type
    that [NewStats] rejects leaves no usable [Stats], and the [Add] that
    follows panics; the result of [Add] is dropped by the caller. *)
Definition addMetric (ts : Z) (cur : Metrics) (metric : Metric) : outcome Metrics :=
  match cur !! Name metric with
  | Some stats =>
      match Add stats metric ts with
      | Returned (stats', _) => Returned (<[Name metric := stats']> cur)
      | Panicked msg => Panicked msg
      end
  | None =>
      match NewStats (Type_ metric) with
      | inr stats =>
          match Add stats metric ts with
          | Returned (stats', _) => Returned (<[Name metric := stats']> cur)
          | Panicked msg => Panicked msg
          end
      | inl _ => Panicked ("mm:Aggregator:Add: Invalid metric type: " +:+ Type_ metric)
      end
  end.

Fixpoint addMetrics (ts : Z) (cur : Metrics) (metrics : list Metric) : outcome Metrics :=
  match metrics with
  | [] => Returned cur
  | metric :: rest =>
      match addMetric ts cur metric with
      | Returned cur' => addMetrics ts cur' rest
      | Panicked msg => Panicked msg
      end
  end.

Definition report (startTs : Time) (metrics : Metrics) (spool : list Report)
    : list Report :=
  spool ++ [{| Ts := startTs; Report_Metrics := Summarize <$> metrics |}].

(** The run loop over the events it consumes, in the order consumed.  The
    empty list is a loop blocked in [select]. *)
Fixpoint run (events : list event) (a : Aggregator) : outcome Aggregator :=
  match events with
  | [] => Returned a
  | Tick now :: rest =>
      let spool' :=
        if negb (IsZero (startTs a)) then report (startTs a) (cur a) (spool a)
        else spool a in
      run rest {| startTs := now; cur := ∅; spool := spool' |}
  | Collect collection :: rest =>
      match addMetrics (StartTs collection) (cur a) (Collection_Metrics collection) with
      | Returned cur' =>
          run rest {| startTs := startTs a; cur := cur'; spool := spool a |}
      | Panicked msg => Panicked msg
      end
  | StopSignal :: _ => Returned a
  end.

(** *** Traces of the run loop, as the spec reads them *)

(** The metrics of some collections, accumulated from an empty window. *)
Fixpoint accumulate (cur : Metrics) (collections : list Collection) : outcome Metrics :=
  match collections with
  | [] => Returned cur
  | collection :: rest =>
      match addMetrics (StartTs collection) cur (Collection_Metrics collection) with
      | Returned cur' => accumulate cur' rest
      | Panicked msg => Panicked msg
      end
  end.

(** The windows a trace closes: a tick closes the window that the tick
    before it opened, holding the collections received in between; what
    arrives before the first tick is in no window, and nothing is closed
    once the stop signal is taken. *)
Fixpoint closedWindows (start : option Time) (since : list Collection)
    (events : list event) : list (Time * list Collection) :=
  match events with
  | [] => []
  | Tick now :: rest =>
      match start with
      | Some t => (t, since) :: closedWindows (Some now) [] rest
      | None => closedWindows (Some now) [] rest
      end
  | Collect collection :: rest => closedWindows start (since ++ [collection]) rest
  | StopSignal :: _ => []
  end.

(** A report is the report of a window: stamped with its start, holding the
    summary of each metric the window's collections carried. *)
Definition reportOf (r : Report) (w : Time * list Collection) : Prop :=
  Ts r = fst w /\
  exists metrics, accumulate ∅ (snd w) = Returned metrics /\
                  Report_Metrics r = Summarize <$> metrics.

Fixpoint tickTimes (events : list event) : list Time :=
  match events with
  | [] => []
  | Tick now :: rest => now :: tickTimes rest
  | _ :: rest => tickTimes rest
  end.

(** The names of the metrics that some collections carry. *)
Definition metricNames (collections : list Collection) : gset string :=
  list_to_set (flat_map (fun c => map Name (Collection_Metrics c)) collections).

(** A [Stats] that [Add] has been called on. *)
Definition sampled (s : Stats) : Prop :=
  recognised s /\
  (metricType s = "gauge" -> vals s <> []) /\
  (metricType s = "counter" -> firstVal s = false).

(** A [Stats] as [report] writes it. *)
Definition summarized (s : Stats) : Prop :=
  recognised s /\
  Cnt s = Z.of_nat (length (vals s)) /\
  (metricType s = "gauge" -> vals s <> []).

(** Every metric of every collection has a type [NewStats] lets through. *)
Fixpoint wellTyped (events : list event) : bool :=
  match events with
  | [] => true
  | Collect collection :: rest =>
      forallb (fun m => MetricTypes (Type_ m)) (Collection_Metrics collection)
      && wellTyped rest
  | _ :: rest => wellTyped rest
  end.

(** What [run] holds between events, against the window the spec has open. *)
Definition tracks (a : Aggregator) (start : option Time)
    (since : list Collection) : Prop :=
  match start with
  | Some t =>
      startTs a = t /\ IsZero t = false /\
      accumulate ∅ since = Returned (cur a) /\
      dom (cur a) = metricNames since
  | None => IsZero (startTs a) = true
  end.

(** No tick carries the zero [time.Time]. *)
Definition ticksNonZero (events : list event) : bool :=
  forallb (fun t => negb (IsZero t)) (tickTimes events).

(** *** The claims as the spec words them, where the code differs *)

(** No report carries a summary of zero samples. *)
Definition no_empty_summary_reported : Prop :=
  forall (events : list event) (a : Aggregator) (r : Report) (name : string)
         (s : Stats),
    run events (NewAggregator []) = Returned a ->
    In r (spool a) -> Report_Metrics r !! name = Some s -> Cnt s <> 0.

(** Rising counter values at rising [int64] timestamps give the spec's
    rates, none of them negative. *)
Definition rising_counter_rates : Prop :=
  forall (s0 : Stats) (m : Metric) (ts : Z) (samples : list (Metric * Z)),
    NewStats "counter" = inr s0 ->
    rising (Number m) (values samples) = true ->
    - 2 ^ 63 <= ts -> ticking ts (stamps samples) = true ->
    exists s errs,
      AddAll s0 ((m, ts) :: samples) = Returned (s, errs) /\
      vals s = rates (Number m, ts) (points samples) /\
      Forall (fun r => (0 <= r)%F) (vals s) /\
      Cnt (Summarize s) = Z.of_nat (length ((m, ts) :: samples)) - 1.

(** The [Add] that follows the values [a], [b] raises the lap error exactly
    when [b] fell below [a] and the new value exceeds [a]. *)
Definition lap_iff_reset_then_exceeds : Prop :=
  forall (s0 : Stats) (before : list (Metric * Z)) (ma mb mc : Metric)
         (ta tb tc : Z) (s : Stats) (errs : list (option error)),
    NewStats "counter" = inr s0 ->
    AddAll s0 (before ++ [(ma, ta); (mb, tb)]) = Returned (s, errs) ->
    exists s' err,
      Add s mc tc = Returned (s', err) /\
      (is_Some err <->
       (Number mb < Number ma)%F /\ (Number ma < Number mc)%F).

(** Every tick after the first writes the report of the window it closes. *)
Definition every_tick_reports : Prop :=
  forall (events : list event) (a : Aggregator),
    run events (NewAggregator []) = Returned a ->
    Forall2 reportOf (spool a) (closedWindows None [] events).

(** [Finalize] gives nil exactly when [Add] was never called. *)
Definition Finalize_nil_iff_no_Add : Prop :=
  forall (t : string) (s0 : Stats) (samples : list (Metric * Z)) (s : Stats)
         (errs : list (option error)),
    NewStats t = inr s0 ->
    AddAll s0 samples = Returned (s, errs) ->
    (snd (Finalize s) = None <-> samples = []).

(** The summary of gauge samples, whatever they are, is in order. *)
Definition gauge_summary_ordered : Prop :=
  forall (g0 : Stats) (m : Metric) (ts : Z) (samples : list (Metric * Z)),
    NewStats "gauge" = inr g0 ->
    exists g errs,
      AddAll g0 ((m, ts) :: samples) = Returned (g, errs) /\
      let r := Summarize g in
      (Min r <= Pct5 r)%F /\ (Pct5 r <= Med r)%F /\
      (Med r <= Pct95 r)%F /\ (Pct95 r <= Max r)%F.

(** A counter seen once in a window is left out of the window's report. *)
Definition single_counter_omitted : Prop :=
  forall (now next : Time) (ts : Z) (m : Metric) (a : Aggregator) (r : Report),
    Type_ m = "counter" -> IsZero now = false ->
    run [Tick now; Collect {| StartTs := ts; Collection_Metrics := [m] |};
         Tick next] (NewAggregator []) = Returned a ->
    In r (spool a) -> Report_Metrics r !! Name m = None.

(** *** [Stats.Reset], and what the samples of a [Stats] add up to *)

Definition Reset (s : Stats) : Stats :=
  {| metricType := metricType s; str := str s; firstVal := firstVal s;
     prevTs := prevTs s; penuTs := penuTs s;
     prevVal := prevVal s; penuVal := penuVal s;
     vals := []; sum := 0;
     Cnt := Cnt s; Min := Min s; Pct5 := Pct5 s; Avg := Avg s;
     Med := Med s; Pct95 := Pct95 s; Max := Max s |}.

(** The values added up one after the other, as [s.sum += val] does. *)
Definition total (l : list float64) : float64 := foldl f64_add 0%F l.

(** The running sum is the sum of the values held. *)
Definition balanced (s : Stats) : Prop := sum s = total (vals s).

(** How many values of the list are not below the one before them. *)
Fixpoint steps (prev : float64) (l : list float64) : nat :=
  match l with
  | [] => O
  | v :: l' => ((if f64_ge v prev then 1 else 0) + steps v l')%nat
  end.

(** Two [Stats] that differ in the samples and their sum only, the first
    holding [before] ahead of the samples of the second. *)
Definition continues (before : list float64) (s s' : Stats) : Prop :=
  metricType s = metricType s' /\ firstVal s = firstVal s' /\
  prevTs s = prevTs s' /\ penuTs s = penuTs s' /\
  prevVal s = prevVal s' /\ penuVal s = penuVal s' /\
  vals s = before ++ vals s'.

(** *** The samples of a window, by name *)

(** The samples of some collections in the order the run loop adds them:
    each metric with the timestamp of its collection. *)
Definition windowSamples (collections : list Collection) : list (Metric * Z) :=
  flat_map (fun c => map (fun m => (m, StartTs c)) (Collection_Metrics c))
           collections.

Definition named (name : string) (samples : list (Metric * Z))
    : list (Metric * Z) :=
  List.filter (fun sample => String.eqb (Name (fst sample)) name) samples.

(** What a window holds under a name after some samples of that name,
    given what it held before: the [Stats] fed the samples in order, which
    [NewStats] made for the type of the first if there was none. *)
Definition entryOf (before : option Stats) (samples : list (Metric * Z))
    (after : option Stats) : Prop :=
  match before, samples with
  | Some s, _ =>
      exists s' errs, AddAll s samples = Returned (s', errs) /\ after = Some s'
  | None, [] => after = None
  | None, (m, ts) :: _ =>
      exists s0 s' errs,
        NewStats (Type_ m) = inr s0 /\
        AddAll s0 samples = Returned (s', errs) /\ after = Some s'
  end.

(** A report holds the window: its stamp, and under each name the summary
    of the [Stats] that the samples of that name made, a name without a
    sample having no entry.  The entry of a counter with one sample has
    [Cnt] 0. *)
Definition holdsWindow (r : Report) (w : Time * list Collection) : Prop :=
  Ts r = fst w /\
  forall name,
    match named name (windowSamples (snd w)) with
    | [] => Report_Metrics r !! name = None
    | (m, ts) :: rest =>
        exists s0 s errs,
          NewStats (Type_ m) = inr s0 /\
          AddAll s0 ((m, ts) :: rest) = Returned (s, errs) /\
          Report_Metrics r !! name = Some (Summarize s) /\
          (rest = [] -> Type_ m = "counter" -> Cnt (Summarize s) = 0)
    end.

End mm.

Module data.

(** *** Collaborators of the Sender

    The logger is left out: no call of it changes what [send] does.  So is
    the sleep before a reconnect; the clock is scripted instead. *)

Definition MAX_SEND_ERRORS : Z := 3.
Definition CONNECT_ERROR_WAIT : Z := 3.

(** [proto.Response], as far as the Sender reads it. *)
Record Response : Type := mkResponse {
  Code : Z;
  Error : string
}.

(** What the websocket client and the clock answer, by call number: the
    k-th [ConnectOnce] and [SendBytes] return an error or nil, the k-th
    [SendBytes] takes [sendSeconds k], the k-th [Recv] fails or fills in a
    response, and the k-th look at the clock finds [uint(runTime)] to be
    [elapsed k]. *)
Record Script : Type := mkScript {
  connectOnce : nat -> option string;
  sendBytes : nat -> option string;
  sendSeconds : nat -> Q;
  recv : nat -> string + Response;
  elapsed : nat -> Z
}.

(** The "data-sender" entry of the status table.  The closing entry is
    built by [Sprintf] from the counters; it is kept as the values that are
    formatted, [detail] being the part appended only after trouble. *)
Record SentInfo : Type := mkSentInfo {
  info_sent : Z;
  info_sentTime : Q;
  info_sentBytes : Z;
  info_detail : option (Z * Z * bool * bool)  (* bad, errs, apiErr, timeoutErr *)
}.

Inductive Status : Type :=
| Text (msg : string)
| IdleSent (sentInfo : SentInfo).

(** The Sender's own fields, then its collaborators: the spool directory
    (unit name to what [Read] gives: an error or the bytes), the status
    entry, the client's connection, and how often client and clock have
    been called.  The counters ([uint], [int]) rise by one a unit or a turn
    and by the length of a unit, far from where they would wrap. *)
Record Sender : Type := mkSender {
  timeout : Z;
  blackhole : bool;
  sent : Z;
  sentBytes : Z;
  sentTime : Q;
  errs : Z;
  bad : Z;
  apiErr : bool;
  timeoutErr : bool;
  spool : gmap string (string + string);
  status : Status;
  connected : bool;
  connects : nat;
  sends : nat;
  recvs : nat;
  looks : nat
}.

(** *** State passing *)

Definition M (A : Type) : Type := Sender -> A * Sender.

#[export] Instance M_ret : MRet M := fun A a s => (a, s).

#[export] Instance M_bind : MBind M :=
  fun A B k c s => let '(a, s') := c s in k a s'.

Definition ret {A : Type} (a : A) : M A := mret a.

Definition get {A : Type} (f : Sender -> A) : M A := fun s => (f s, s).

Definition setCounters (sent' sentBytes' : Z) (sentTime' : Q) (errs' bad' : Z)
    (apiErr' timeoutErr' : bool) : M unit :=
  fun s =>
    (tt, {| timeout := timeout s; blackhole := blackhole s;
            sent := sent'; sentBytes := sentBytes'; sentTime := sentTime';
            errs := errs'; bad := bad';
            apiErr := apiErr'; timeoutErr := timeoutErr';
            spool := spool s; status := status s; connected := connected s;
            connects := connects s; sends := sends s; recvs := recvs s;
            looks := looks s |}).

Definition setWorld (spool' : gmap string (string + string)) (status' : Status)
    (connected' : bool) (connects' sends' recvs' looks' : nat) : M unit :=
  fun s =>
    (tt, {| timeout := timeout s; blackhole := blackhole s;
            sent := sent s; sentBytes := sentBytes s; sentTime := sentTime s;
            errs := errs s; bad := bad s;
            apiErr := apiErr s; timeoutErr := timeoutErr s;
            spool := spool'; status := status'; connected := connected';
            connects := connects'; sends := sends'; recvs := recvs';
            looks := looks' |}).

Definition incSent : M unit := fun s =>
  setCounters (sent s + 1) (sentBytes s) (sentTime s) (errs s) (bad s)
              (apiErr s) (timeoutErr s) s.
Definition incBad : M unit := fun s =>
  setCounters (sent s) (sentBytes s) (sentTime s) (errs s) (bad s + 1)
              (apiErr s) (timeoutErr s) s.
Definition incErrs : M unit := fun s =>
  setCounters (sent s) (sentBytes s) (sentTime s) (errs s + 1) (bad s)
              (apiErr s) (timeoutErr s) s.
Definition addSent (seconds : Q) (bytes : Z) : M unit := fun s =>
  setCounters (sent s) (sentBytes s + bytes) (sentTime s + seconds)%Q (errs s)
              (bad s) (apiErr s) (timeoutErr s) s.
Definition setApiErr : M unit := fun s =>
  setCounters (sent s) (sentBytes s) (sentTime s) (errs s) (bad s)
              true (timeoutErr s) s.
Definition setTimeoutErr : M unit := fun s =>
  setCounters (sent s) (sentBytes s) (sentTime s) (errs s) (bad s)
              (apiErr s) true s.

Definition statusUpdate (status' : Status) : M unit := fun s =>
  setWorld (spool s) status' (connected s) (connects s) (sends s) (recvs s)
           (looks s) s.

(** [spool.Files()], in the order the spooler lists the directory. *)
Definition spoolFiles : M (list string) :=
  get (fun s => (map_to_list (spool s)).*1).

Definition spoolRead (file : string) : M (string + string) :=
  get (fun s => match spool s !! file with
                | Some r => r
                | None => inl ("open " +:+ file +:+ ": no such file")
                end).

(** [spool.Remove(file)] of a spool that removes the unit it is asked to.
    The Sender drops what [Remove] returns, so a spool whose [Remove] fails
    would leave the unit where it is and the Sender would go on as here. *)
Definition spoolRemove (file : string) : M unit := fun s =>
  setWorld (delete file (spool s)) (status s) (connected s) (connects s)
           (sends s) (recvs s) (looks s) s.

Section Client.

Variable sc : Script.

(** [uint(time.Now().Sub(startTime).Seconds())] *)
Definition runTime : M Z := fun s =>
  (elapsed sc (looks s),
   snd (setWorld (spool s) (status s) (connected s) (connects s) (sends s)
                 (recvs s) (S (looks s)) s)).

Definition clientConnectOnce : M (option string) := fun s =>
  let r := connectOnce sc (connects s) in
  (r, snd (setWorld (spool s) (status s)
                    (match r with Some _ => connected s | None => true end)
                    (S (connects s)) (sends s) (recvs s) (looks s) s)).

Definition clientDisconnectOnce : M unit := fun s =>
  setWorld (spool s) (status s) false (connects s) (sends s) (recvs s)
           (looks s) s.

(** [SendBytes], with the seconds it took. *)
Definition clientSendBytes : M (option string * Q) := fun s =>
  ((sendBytes sc (sends s), sendSeconds sc (sends s)),
   snd (setWorld (spool s) (status s) (connected s) (connects s) (S (sends s))
                 (recvs s) (looks s) s)).

Definition clientRecv : M (string + Response) := fun s =>
  (recv sc (recvs s),
   snd (setWorld (spool s) (status s) (connected s) (connects s) (sends s)
                 (S (recvs s)) (looks s) s)).

(** *** [Sender.sendAllFiles] *)

(** How one turn of [for file := range s.spool.Files()] ends: [continue] or
    falling off the body, or [return err]. *)
Inductive turn : Type :=
| NextFile
| Return (err : option string).

Definition sendFile (file : string) : M turn :=
  t ← runTime;
  budget ← get timeout;
  if budget <? t then
    setTimeoutErr;; ret (Return None)
  else
    statusUpdate (Text ("Reading " +:+ file));;
    r ← spoolRead file;
    match r with
    | inl err => ret (Return (Some ("spool.Read: " +:+ err)))
    | inr data =>
        bh ← get blackhole;
        if (bh : bool) then
          statusUpdate (Text ("Removing " +:+ file +:+ " (blackhole)"));;
          spoolRemove file;;
          ret NextFile
        else if Z.of_nat (String.length data) =? 0 then
          spoolRemove file;;
          ret NextFile
        else
          statusUpdate (Text ("Sending " +:+ file));;
          r ← clientSendBytes;
          match r with
          | (Some err, _) =>
              ret (Return (Some ("Sending " +:+ file +:+ ": " +:+ err)))
          | (None, seconds) =>
              addSent seconds (Z.of_nat (String.length data));;
              statusUpdate (Text ("Waiting for API to ack " +:+ file));;
              r ← clientRecv;
              match r with
              | inl err =>
                  ret (Return (Some ("Waiting for API to ack " +:+ file
                                     +:+ ": " +:+ err)))
              | inr resp =>
                  if 500 <=? Code resp then
                    setApiErr;; ret (Return None)
                  else if 400 <=? Code resp then
                    statusUpdate (Text ("Removing " +:+ file));;
                    spoolRemove file;;
                    incSent;;
                    incBad;;
                    ret NextFile
                  else if 300 <=? Code resp then
                    ret (Return (Some ("Recieved unhandled response code from API: "
                                       +:+ pretty (Code resp) +:+ ": "
                                       +:+ Error resp)))
                  else if 200 <=? Code resp then
                    statusUpdate (Text ("Removing " +:+ file));;
                    spoolRemove file;;
                    incSent;;
                    ret NextFile
                  else
                    ret (Return (Some ("Recieved unknown response code from API: "
                                       +:+ pretty (Code resp) +:+ ": "
                                       +:+ Error resp)))
              end
          end
    end.

Fixpoint sendFiles (files : list string) : M (option string) :=
  match files with
  | [] => ret None
  | file :: rest =>
      r ← sendFile file;
      match r with
      | NextFile => sendFiles rest
      | Return err => ret err
      end
  end.

Definition sendAllFiles : M (option string) :=
  statusUpdate (Text "Running");;
  files ← spoolFiles;
  sendFiles files.

(** *** [Sender.send] *)

(** One turn of the loop "connect and send files until too many errors
    occur"; [again] is the loop itself, for the two [continue]. *)
Definition sendTurn (again : M unit) : M unit :=
  t ← runTime;
  budget ← get timeout;
  if budget <? t then
    setTimeoutErr;; ret tt
  else
    statusUpdate (Text "Connecting");;
    r ← clientConnectOnce;
    match r with
    | Some _ => incErrs;; again
    | None =>
        r ← sendAllFiles;
        match r with
        | Some _ => incErrs;; clientDisconnectOnce;; again
        | None => ret tt
        end
    end.

(** Every turn that does not return adds one to [errs], so [tries], which
    starts at [MAX_SEND_ERRORS], is never the reason to stop (see
    [sendLoop_tries]). *)
Fixpoint sendLoop (tries : nat) : M unit :=
  a ← get apiErr;
  e ← get errs;
  t ← get timeoutErr;
  if negb (a : bool) && (e <? MAX_SEND_ERRORS) && negb (t : bool) then
    match tries with
    | O => ret tt
    | S tries' => sendTurn (sendLoop tries')
    end
  else ret tt.

(** The deferred function of [send]. *)
Definition sendDeferred : M unit :=
  statusUpdate (Text "Disconnecting");;
  clientDisconnectOnce;;
  s ← get (fun s => s);
  statusUpdate
    (IdleSent {| info_sent := sent s; info_sentTime := sentTime s;
                 info_sentBytes := sentBytes s;
                 info_detail :=
                   if (0 <? errs s) || (0 <? bad s) || apiErr s || timeoutErr s
                   then Some (bad s, errs s, apiErr s, timeoutErr s)
                   else None |}).

Definition send : M unit :=
  setCounters 0 0 0 0 0 false false;;
  sendLoop (Z.to_nat MAX_SEND_ERRORS);;
  sendDeferred.

End Client.

(** *** A cycle in which every unit sent is acknowledged *)

(** A unit that [Read] returns, and not empty. *)
Definition sendable (r : string + string) : bool :=
  match r with
  | inr data => negb (Z.of_nat (String.length data) =? 0)
  | inl _ => false
  end.

(** A code that [sendAllFiles] takes for an answer about the unit: 2xx,
    4xx, or 500 and above. *)
Definition answers (resp : Response) : bool :=
  (200 <=? Code resp) && ((Code resp <? 300) || (400 <=? Code resp)).

(** How many acknowledgments, in order, come before the first of 500 or
    above. *)
Fixpoint delivered (acks : list Response) : nat :=
  match acks with
  | [] => O
  | resp :: rest => if 500 <=? Code resp then O else S (delivered rest)
  end.

(** How many acknowledgments are of 400 or above. *)
Fixpoint rejected (acks : list Response) : Z :=
  match acks with
  | [] => 0
  | resp :: rest => (if 400 <=? Code resp then 1 else 0) + rejected rest
  end.

(** The spool without some units. *)
Definition removeAll (files : list string) (spool : gmap string (string + string))
    : gmap string (string + string) :=
  foldl (fun m file => delete file m) spool files.

(** What a turn of [sendAllFiles] leaves alone. *)
Definition sameCycle (s s' : Sender) : Prop :=
  timeout s' = timeout s /\ blackhole s' = blackhole s /\
  errs s' = errs s /\ timeoutErr s' = timeoutErr s /\
  connects s' = connects s /\ connected s' = connected s.

(** *** What any cycle keeps *)

(** From [s] to [s']: no unit was added, and the units counted as sent, the
    bad ones among them, were removed. *)
Definition accounted (s s' : Sender) : Prop :=
  spool s' ⊆ spool s /\
  0 <= bad s' - bad s /\ bad s' - bad s <= sent s' - sent s /\
  sent s' - sent s + Z.of_nat (size (spool s')) <= Z.of_nat (size (spool s)).

(** What no step of a cycle changes. *)
Definition sameSetup (s s' : Sender) : Prop :=
  timeout s' = timeout s /\ blackhole s' = blackhole s.



(** *** [Sender.run] *)

(** What the [select] of [run] receives. *)
Inductive signal : Type :=
| TickerChan
| StopChan.

(** The loop of [run] over the signals it receives, in order; the empty
    list is a loop blocked in [select].  The result tells whether the loop
    was left, which it is by the stop signal only, after [Graceful]. *)
Fixpoint runLoop (sc : Script) (signals : list signal) : M bool :=
  match signals with
  | [] => ret false
  | TickerChan :: rest => send sc;; runLoop sc rest
  | StopChan :: _ => ret true
  end.

(** [run], with its deferred function, which finds the stop graceful. *)
Definition run (sc : Script) (signals : list signal) : M unit :=
  statusUpdate (Text "Idle");;
  returned ← runLoop sc signals;
  if (returned : bool) then statusUpdate (Text "Stopped") else ret tt.

(** The ticks received before the stop signal. *)
Fixpoint cycles (signals : list signal) : nat :=
  match signals with
  | [] => O
  | TickerChan :: rest => S (cycles rest)
  | StopChan :: _ => O
  end.

Definition stopped (signals : list signal) : bool :=
  existsb (fun sig => match sig with StopChan => true | TickerChan => false end)
          signals.

(** *** Scenarios

    A quiet API: it connects, takes every unit and answers with [code],
    the clock standing at [seconds]. *)
Definition answering (code : Z) (seconds : Z) : Script :=
  {| connectOnce := fun _ => None;
     sendBytes := fun _ => None;
     sendSeconds := fun _ => 1%Q;
     recv := fun _ => inr {| Code := code; Error := "" |};
     elapsed := fun _ => seconds |}.

(** A Sender about to start a cycle on [units], with a budget of a minute. *)
Definition spooled (bh : bool) (units : gmap string (string + string)) : Sender :=
  {| timeout := 60; blackhole := bh; sent := 0; sentBytes := 0;
     sentTime := 0; errs := 0; bad := 0; apiErr := false;
     timeoutErr := false; spool := units;
     status := Text "Idle"; connected := false; connects := O;
     sends := O; recvs := O; looks := O |}.

End data.

Module mysql.

Section Connection.

(** [pct.Backoff] is declared in package [pct]; [Connect] only
    calls [Wait], which gives the time to sleep and moves the backoff on,
    and [Success].  [DB] is the driver's handle, [*sql.DB]. *)
Variable Backoff : Type.
Variable Wait : Backoff -> Z * Backoff.
Variable Success : Backoff -> Backoff.
Variable DB : Type.

(** What one attempt meets: [sql.Open] fails, or it gives a handle whose
    [Ping] fails, or the handle is alive. *)
Inductive attempt : Type :=
| OpenFails (err : string)
| PingFails (db : DB) (err : string)
| Alive (db : DB).

(** What [Connect] does to the outside, in order. *)
Inductive effect : Type :=
| Sleep (d : Z)
| Open (dsn : string)
| Ping (db : DB)
| Close (db : DB).

Record Connection : Type := mkConnection {
  dsn : string;
  conn : option DB;
  backoff : Backoff
}.

(** The driver answers by attempt number. *)
Variable driver : nat -> attempt.

(** [for i := tries; i > 0; i--], at attempt number [n], with the [err] of
    the attempts so far.  The last component tells whether the loop was
    left by [return nil]. *)
Fixpoint connectLoop (i n : nat) (c : Connection) (err : option string)
    (done : list effect) : Connection * option string * list effect * bool :=
  match i with
  | O => (c, err, done, false)
  | S i' =>
      let '(d, b) := Wait (backoff c) in
      let c' := {| dsn := dsn c; conn := conn c; backoff := b |} in
      let done' := done ++ [Sleep d; Open (dsn c)] in
      match driver n with
      | OpenFails e => connectLoop i' (S n) c' (Some e) done'
      | PingFails db e =>
          connectLoop i' (S n) c' (Some e) (done' ++ [Ping db; Close db])
      | Alive db =>
          ({| dsn := dsn c; conn := Some db; backoff := Success b |},
           None, done' ++ [Ping db], true)
      end
  end.

(** [%s] of an error value. *)
Definition errString (err : option string) : string :=
  match err with
  | Some e => e
  | None => "%!s(<nil>)"
  end.

(** [tries] is a [uint] that the loop only counts down. *)
Definition Connect (tries : nat) (c : Connection)
    : Connection * option string * list effect :=
  if Nat.eqb tries 0 then (c, None, [])
  else
    let '(c', err, done, connected) := connectLoop tries 0 c None [] in
    if connected then (c', None, done)
    else (c',
          Some ("Failed to connect to MySQL after " +:+ pretty tries
                +:+ " tries (" +:+ errString err +:+ ")"),
          done).

(** *** Attempts, as the spec reads them *)

Definition alive (a : attempt) : option DB :=
  match a with
  | Alive db => Some db
  | _ => None
  end.

(** The error of an attempt that failed. *)
Definition failure (a : attempt) : string :=
  match a with
  | OpenFails e => e
  | PingFails _ e => e
  | Alive _ => ""
  end.

(** The backoff after [n] calls of [Wait]. *)
Definition waits (n : nat) (b : Backoff) : Backoff :=
  Nat.iter n (fun b => snd (Wait b)) b.

(** One attempt: sleep for what the backoff says, open, and, if that gave a
    handle, probe it, and close it if the probe failed. *)
Definition attemptEffects (b : Backoff) (dsn : string) (a : attempt) : list effect :=
  [Sleep (fst (Wait b)); Open dsn] ++
  match a with
  | OpenFails _ => []
  | PingFails db _ => [Ping db; Close db]
  | Alive db => [Ping db]
  end.

(** The attempts of number [n] to [n + i - 1], one after the other. *)
Fixpoint attemptsEffects (n i : nat) (b : Backoff) (dsn : string) : list effect :=
  match i with
  | O => []
  | S i' =>
      attemptEffects b dsn (driver n) ++ attemptsEffects (S n) i' (snd (Wait b)) dsn
  end.

End Connection.

Arguments OpenFails {DB} err.
Arguments PingFails {DB} db err.
Arguments Alive {DB} db.
Arguments Sleep {DB} d.
Arguments Open {DB} dsn.
Arguments Ping {DB} db.
Arguments Close {DB} db.
Arguments mkConnection {Backoff DB} dsn conn backoff.
Arguments dsn {Backoff DB} c.
Arguments conn {Backoff DB} c.
Arguments backoff {Backoff DB} c.
Arguments connectLoop {Backoff} Wait Success {DB} driver i n c err done.
Arguments Connect {Backoff} Wait Success {DB} driver tries c.
Arguments alive {DB} a.
Arguments failure {DB} a.
Arguments waits {Backoff} Wait n b.
Arguments attemptEffects {Backoff} Wait {DB} b dsn a.
Arguments attemptsEffects {Backoff} Wait {DB} driver n i b dsn.

(** How often [sql.Open] was called. *)
Fixpoint opens {DB : Type} (done : list (effect DB)) : nat :=
  match done with
  | [] => O
  | Open _ :: rest => S (opens rest)
  | _ :: rest => opens rest
  end.

(** Modelled from the spec: [pct.Backoff], which package [pct] declares.
    [Wait] "starts at a small baseline and increases monotonically
    (e.g., doubling) on repeated calls without an intervening [Success],
    capped at a configured maximum"; [Success] "resets the internal state".
    Durations are seconds. *)
Record Backoff : Type := mkBackoff {
  lastWait : Z;
  maxWait : Z
}.

Definition Backoff_Wait (b : Backoff) : Z * Backoff :=
  let wait := if lastWait b =? 0 then 1
              else Z.min (2 * lastWait b) (maxWait b) in
  (wait, {| lastWait := wait; maxWait := maxWait b |}).

Definition Backoff_Success (b : Backoff) : Backoff :=
  {| lastWait := 0; maxWait := maxWait b |}.

Definition NewBackoff (maxWait : Z) : Backoff :=
  {| lastWait := 0; maxWait := maxWait |}.

Definition NewConnection (dsn : string) : Connection Backoff nat :=
  {| dsn := dsn; conn := None; backoff := NewBackoff 20 |}.

(** *** [Connection.Close], [Connection.Set] *)

(** [Close] closes the handle that is held, and forgets it. *)
Definition Connection_Close {Backoff DB : Type} (c : Connection Backoff DB)
    : Connection Backoff DB * list (effect DB) :=
  match conn c with
  | Some db => ({| dsn := dsn c; conn := None; backoff := backoff c |}, [Close db])
  | None => (c, [])
  end.

Section Statements.

(** [Query] is declared elsewhere in the package; [Set] reads its field
    [Set] only, the statement to execute.  The server answers [Exec] by
    call number and statement: an error, or none. *)
Context {Backoff DB Query : Type}.
Variable Set_ : Query -> string.
Variable exec : nat -> string -> option string.

(** [for _, query := range queries], at call number [n], with the
    statements executed so far. *)
Fixpoint setLoop (queries : list Query) (n : nat) (done : list string)
    : option string * list string :=
  match queries with
  | [] => (None, done)
  | query :: rest =>
      match exec n (Set_ query) with
      | Some err => (Some err, done ++ [Set_ query])
      | None => setLoop rest (S n) (done ++ [Set_ query])
      end
  end.

Definition Connection_Set (queries : list Query) (c : Connection Backoff DB)
    : option string * list string :=
  match conn c with
  | None => (Some "Not connected", [])
  | Some _ => setLoop queries 0 []
  end.

End Statements.

(** *** Data source names *)

Import Stdlib.Strings.Ascii.

Record DSN : Type := mkDSN {
  Username : string;
  Password : string;
  Hostname : string;
  Port : string;
  Socket : string;
  OldPasswords : bool;
  Protocol : string
}.

Definition dsnSuffix : string := "/?parseTime=true".
Definition allowOldPasswords : string := "&allowOldPasswords=true".
Definition HiddenPassword : string := "<password-hidden>".

Definition ErrNoSocket : string :=
  "Cannot find MySQL socket (localhost implies socket).  Specify socket or use 127.0.0.1 instead of localhost.".

(** Assignments to a field of the receiver, which the methods hold by
    value. *)
Definition withUsername (dsn : DSN) (v : string) : DSN :=
  {| Username := v; Password := Password dsn; Hostname := Hostname dsn;
     Port := Port dsn; Socket := Socket dsn; OldPasswords := OldPasswords dsn;
     Protocol := Protocol dsn |}.
Definition withPassword (dsn : DSN) (v : string) : DSN :=
  {| Username := Username dsn; Password := v; Hostname := Hostname dsn;
     Port := Port dsn; Socket := Socket dsn; OldPasswords := OldPasswords dsn;
     Protocol := Protocol dsn |}.
Definition withHostname (dsn : DSN) (v : string) : DSN :=
  {| Username := Username dsn; Password := Password dsn; Hostname := v;
     Port := Port dsn; Socket := Socket dsn; OldPasswords := OldPasswords dsn;
     Protocol := Protocol dsn |}.
Definition withPort (dsn : DSN) (v : string) : DSN :=
  {| Username := Username dsn; Password := Password dsn; Hostname := Hostname dsn;
     Port := v; Socket := Socket dsn; OldPasswords := OldPasswords dsn;
     Protocol := Protocol dsn |}.
Definition withSocket (dsn : DSN) (v : string) : DSN :=
  {| Username := Username dsn; Password := Password dsn; Hostname := Hostname dsn;
     Port := Port dsn; Socket := v; OldPasswords := OldPasswords dsn;
     Protocol := Protocol dsn |}.

(** [strings.TrimSuffix]: [cutSuffix s suffix] is [s] without [suffix] when
    [s] ends with it. *)
Fixpoint cutSuffix (s suffix : string) : option string :=
  if String.eqb s suffix then Some EmptyString
  else match s with
       | EmptyString => None
       | String a rest => option_map (String a) (cutSuffix rest suffix)
       end.

Definition TrimSuffix (s suffix : string) : string :=
  match cutSuffix s suffix with
  | Some s' => s'
  | None => s
  end.

(** [strings.Split] with a separator of one byte: the pieces between its
    occurrences, one more than there are occurrences. *)
Fixpoint Split (s : string) (sep : ascii) : list string :=
  match s with
  | EmptyString => [EmptyString]
  | String a rest =>
      if Ascii.eqb a sep then EmptyString :: Split rest sep
      else match Split rest sep with
           | part :: parts => String a part :: parts
           | [] => [String a EmptyString]
           end
  end.

(** [strings.Contains] for one byte. *)
Fixpoint Contains (s : string) (c : ascii) : bool :=
  match s with
  | EmptyString => false
  | String a rest => Ascii.eqb a c || Contains rest c
  end.

Section Host.

(** What the host answers: [netstat -anp] fails or prints, and
    [user.Current()] fails or names the user.  [ParseSocketFromNetstat]
    is any function from the output to a socket, empty when it finds none. *)
Variable netstat : string + string.
Variable currentUser : string + string.
Variable ParseSocketFromNetstat : string -> string.

Definition DSN_DSN (dsn : DSN) : string * option string :=
  let dsn := if negb (String.eqb (Password dsn) "")
             then withPassword dsn (":" +:+ Password dsn) else dsn in
  let dsn := if String.eqb (Hostname dsn) "" && String.eqb (Socket dsn) ""
             then withHostname dsn "localhost" else dsn in
  let detected : string + DSN :=
    if String.eqb (Hostname dsn) "localhost"
       && (String.eqb (Protocol dsn) "" || String.eqb (Protocol dsn) "socket")
    then
      if String.eqb (Socket dsn) "" then
        match netstat with
        | inl _ => inl ErrNoSocket
        | inr out =>
            let socket := ParseSocketFromNetstat out in
            if String.eqb socket "" then inl ErrNoSocket
            else inr (withSocket dsn socket)
        end
      else inr dsn
    else inr dsn in
  match detected with
  | inl err => ("", Some err)
  | inr dsn =>
      let dsnString : string + string :=
        if negb (String.eqb (Socket dsn) "") then
          inr (Username dsn +:+ Password dsn +:+ "@unix(" +:+ Socket dsn +:+ ")")
        else if negb (String.eqb (Hostname dsn) "") then
          let dsn := if String.eqb (Port dsn) "" then withPort dsn "3306"
                     else dsn in
          inr (Username dsn +:+ Password dsn +:+ "@tcp(" +:+ Hostname dsn
               +:+ ":" +:+ Port dsn +:+ ")")
        else
          match currentUser with
          | inl err => inl err
          | inr name => inr (name +:+ "@")
          end in
      match dsnString with
      | inl err => ("", Some err)
      | inr dsnString =>
          let dsnString := dsnString +:+ dsnSuffix in
          let dsnString := if OldPasswords dsn
                           then dsnString +:+ allowOldPasswords
                           else dsnString in
          (dsnString, None)
      end
  end.

(** The receiver of [String] and [StringWithSuffixes] before they call
    [DSN]. *)
Definition hidden (dsn : DSN) : DSN :=
  let dsn := if String.eqb (Username dsn) ""
             then withUsername dsn "<anonymous-user>" else dsn in
  withPassword dsn HiddenPassword.

Definition DSN_String (dsn : DSN) : string :=
  let dsn := hidden dsn in
  let '(dsnString, _) := DSN_DSN dsn in
  let dsnString := TrimSuffix dsnString allowOldPasswords in
  let dsnString := TrimSuffix dsnString dsnSuffix in
  dsnString.

Definition StringWithSuffixes (dsn : DSN) : string :=
  let dsn := hidden dsn in
  let '(dsnString, _) := DSN_DSN dsn in
  dsnString.

(** Whether [DSN] tries to detect the socket, and fails to. *)
Definition undetected : bool :=
  match netstat with
  | inl _ => true
  | inr out => String.eqb (ParseSocketFromNetstat out) ""
  end.

End Host.

Definition HideDSNPassword (dsn : string) : outcome string :=
  let dsnParts := Split dsn "@" in
  match dsnParts !! 0%nat with
  | None => Panicked "runtime error: index out of range [0] with length 0"
  | Some userPassword =>
      let userPasswordParts := Split userPassword ":" in
      match userPasswordParts !! 0%nat with
      | None => Panicked "runtime error: index out of range [0] with length 0"
      | Some user =>
          match dsnParts !! 1%nat with
          | None => Panicked "runtime error: index out of range [1] with length 1"
          | Some rest =>
              Returned (user +:+ ":" +:+ HiddenPassword +:+ "@" +:+ rest)
          end
      end
  end.

(** *** [fillCreateTableInClassicExplain] *)

(** [proto.NullString], and [proto.ExplainRow] with the two fields that the
    function reads and writes. *)
Record NullString : Type := mkNullString {
  String_ : string;
  Valid : bool
}.

Record ExplainRow : Type := mkExplainRow {
  Table : NullString;
  CreateTable : NullString
}.

(** The first rune of a name is "<" exactly when its first byte is: "<" is
    a rune of one byte, and a byte that begins no rune decodes to U+FFFD. *)
Definition isRealTable (tableName : string) : bool :=
  if String.eqb tableName "" then false
  else match tableName with
       | String first _ => if Ascii.eqb first "<" then false else true
       | EmptyString => true
       end.

Section CreateTables.

(** What [QueryRow(...).Scan] leaves in [createTable], and its error, by
    call number and statement. *)
Variable scan : nat -> string -> NullString * option string.

Definition showCreateTable (n : nat) (table : string)
    : NullString * option string :=
  let '(createTable, err) := scan n ("SHOW CREATE TABLE " +:+ table) in
  match err with
  | Some e => ({| String_ := ""; Valid := false |}, Some e)
  | None => (createTable, None)
  end.

(** The rows are pointers: what the loop assigned stays assigned when it
    returns with an error.  The result is the rows, the error, and the
    tables asked for, from call number [n] on. *)
Fixpoint fillCreateTableInClassicExplain (classicExplain : list ExplainRow)
    (n : nat) : list ExplainRow * option string * list string :=
  match classicExplain with
  | [] => ([], None, [])
  | explainRow :: rest =>
      let tableName := String_ (Table explainRow) in
      if isRealTable tableName then
        let '(createTable, err) := showCreateTable n tableName in
        let explainRow' := {| Table := Table explainRow;
                              CreateTable := createTable |} in
        match err with
        | Some e => (explainRow' :: rest, Some e, [tableName])
        | None =>
            let '(rest', err', asked) :=
              fillCreateTableInClassicExplain rest (S n) in
            (explainRow' :: rest', err', tableName :: asked)
        end
      else
        let '(rest', err', asked) := fillCreateTableInClassicExplain rest n in
        (explainRow :: rest', err', asked)
  end.

End CreateTables.

(** The names among [tables] that are of real tables. *)
Definition realTables (classicExplain : list ExplainRow) : list string :=
  List.filter isRealTable (map (fun row => String_ (Table row)) classicExplain).

(** How many real tables stand before row [i]. *)
Definition rank (classicExplain : list ExplainRow) (i : nat) : nat :=
  length (realTables (take i classicExplain)).

(** A row after the statement of number [j] was run for it. *)
Definition asked (scan : nat -> string -> NullString * option string)
    (j : nat) (row : ExplainRow) : ExplainRow :=
  {| Table := Table row;
     CreateTable := fst (showCreateTable scan j (String_ (Table row))) |}.

End mysql.

(** ** Checking the configuration (package [main]) *)

Module main.

(** The [\n] that ends each message. *)
Definition newline : string :=
  String (Ascii.Ascii false true false true false false false false) EmptyString.

(** [agent.Config], with the fields that [CheckConfig] reads. *)
Record Config : Type := mkConfig {
  ApiHostname : string;
  ApiKey : string;
  AgentUuid : string
}.

Definition CheckConfig (config : Config) (configFile : string)
    : bool * list string :=
  let isValid := true in
  let missing := [] in
  let '(isValid, missing) :=
    if String.eqb (ApiHostname config) ""
    then (false, missing ++ ["No ApiHostname in " +:+ configFile +:+ newline])
    else (isValid, missing) in
  let '(isValid, missing) :=
    if String.eqb (ApiKey config) ""
    then (false, missing ++ ["No ApiKey in " +:+ configFile +:+ newline])
    else (isValid, missing) in
  let '(isValid, missing) :=
    if String.eqb (AgentUuid config) ""
    then (false, missing ++ ["No AgentUuid in " +:+ configFile +:+ newline])
    else (isValid, missing) in
  (isValid, missing).

(** How many of the three fields are empty. *)
Definition unset (config : Config) : nat :=
  length (List.filter (fun field => String.eqb field "")
                      [ApiHostname config; ApiKey config; AgentUuid config]).

End main.

(** * Properties *)

(** ** Arithmetic of the embedding *)

Lemma wrap64_id (z : Z) : int64_range z -> wrap64 z = z.
Proof.
  unfold int64_range, wrap64. intros Hz.
  rewrite Z.mod_small by lia. lia.
Qed.

Lemma wrap64_range (z : Z) : int64_range (wrap64 z).
Proof.
  unfold int64_range, wrap64.
  pose proof (Z.mod_pos_bound (z + 2 ^ 63) (2 ^ 64)). lia.
Qed.

(** The three percentile indexes of [Summarize] stay inside the slice. *)
Lemma pct_index_lt (p n : Z) : 0 <= p < 100 -> 0 < n -> 0 <= p * n / 100 < n.
Proof.
  intros Hp Hn. split.
  - apply Z.div_pos; lia.
  - apply Z.div_lt_upper_bound; nia.
Qed.

Lemma pct_index_mono (p q n : Z) : 0 <= p <= q -> 0 <= n -> p * n / 100 <= q * n / 100.
Proof. intros Hpq Hn. apply Z.div_le_mono; nia. Qed.

(** The integer quotient of the source is the floor of the spec's
    [p/100 * Cnt]. *)
Lemma pct_index_floor (p n : Z) :
  Qfloor ((p # 100) * inject_Z n) = p * n / 100.
Proof.
  unfold Qfloor, Qmult, inject_Z. simpl. reflexivity.
Qed.

(** *** Comparisons of [float64] *)

Lemma Qle_bool_false (x y : Q) : Qle_bool x y = false <-> (y < x)%Q.
Proof.
  rewrite <- not_true_iff_false, Qle_bool_iff.
  split; [apply Qnot_le_lt|apply Qlt_not_le].
Qed.

Lemma Qeq_bool_false (x y : Q) : Qeq_bool x y = false <-> ~ (x == y)%Q.
Proof. now rewrite <- not_true_iff_false, Qeq_bool_iff. Qed.

(** Case analysis on the floats in sight, down to facts about rationals. *)
Ltac f64_props :=
  repeat match goal with
         | H : _ || _ = false |- _ => apply orb_false_iff in H; destruct H
         | H : _ || _ = true |- _ => apply orb_prop in H; destruct H
         | H : _ && _ = true |- _ => apply andb_prop in H; destruct H
         | H : negb _ = true |- _ => apply negb_true_iff in H
         | H : negb _ = false |- _ => apply negb_false_iff in H
         | H : Qle_bool _ _ = true |- _ => apply Qle_bool_iff in H
         | H : Qle_bool _ _ = false |- _ => apply Qle_bool_false in H
         | H : Qeq_bool _ _ = true |- _ => apply Qeq_bool_iff in H
         | H : Qeq_bool _ _ = false |- _ => apply Qeq_bool_false in H
         | |- _ || _ = false => apply orb_false_iff; split
         | |- negb _ = true => apply negb_true_iff
         | |- negb _ = false => apply negb_false_iff
         | |- Qle_bool _ _ = true => apply Qle_bool_iff
         | |- Qle_bool _ _ = false => apply Qle_bool_false
         | |- Qeq_bool _ _ = true => apply Qeq_bool_iff
         | |- Qeq_bool _ _ = false => apply Qeq_bool_false
         end.

Ltac f64_cases :=
  unfold Fle, Flt, Feq, notAfter, lessNaN, f64_ge, f64_gt in *;
  repeat match goal with x : float64 |- _ => destruct x end;
  simpl in *;
  rewrite ?orb_false_r, ?orb_true_r, ?andb_false_r, ?andb_true_r in *;
  try discriminate; try reflexivity; try tauto;
  f64_props; try discriminate; try reflexivity; try lra.

Lemma f64_ge_le (a b : float64) : f64_ge a b = true <-> (b <= a)%F.
Proof. reflexivity. Qed.

Lemma f64_gt_lt (a b : float64) : f64_gt a b = true <-> (b < a)%F.
Proof. reflexivity. Qed.

Lemma f64_eq_eq (a b : float64) : f64_eq a b = true <-> (a == b)%F.
Proof. reflexivity. Qed.

Lemma Fle_refl (a : float64) : isNaN a = false -> (a <= a)%F.
Proof. intros H. f64_cases. Qed.

Lemma Fle_trans (a b c : float64) : (a <= b)%F -> (b <= c)%F -> (a <= c)%F.
Proof. intros H1 H2. f64_cases. Qed.

Lemma Flt_le (a b : float64) : (a < b)%F -> (a <= b)%F.
Proof. intros H. f64_cases. Qed.

Lemma Flt_not_ge (a b : float64) : (a < b)%F -> f64_ge a b = false.
Proof. intros H. f64_cases. Qed.

Lemma Fle_not_gt (a b : float64) : (a <= b)%F -> f64_gt a b = false.
Proof. intros H. f64_cases. Qed.

Lemma Flt_le_trans (a b c : float64) : (a < b)%F -> (b <= c)%F -> (a < c)%F.
Proof. intros H1 H2. f64_cases. Qed.

Lemma Fle_noNaN (a b : float64) : (a <= b)%F -> isNaN a = false /\ isNaN b = false.
Proof. intros H. f64_cases. Qed.

Lemma Flt_noNaN (a b : float64) : (a < b)%F -> isNaN a = false /\ isNaN b = false.
Proof. intros H. f64_cases. Qed.

Lemma same_refl (a : float64) : same a a.
Proof. destruct a; simpl; auto. reflexivity. Qed.

(** *** The order of [sort.Float64s] *)

Lemma notAfter_refl (a : float64) : notAfter a a.
Proof. f64_cases. Qed.

Lemma notAfter_trans (a b c : float64) :
  notAfter a b -> notAfter b c -> notAfter a c.
Proof. intros H1 H2. f64_cases. Qed.

Lemma lessNaN_notAfter (a b : float64) : lessNaN a b = true -> notAfter a b.
Proof. intros H. f64_cases. Qed.

(** Without NaN it is the order of the values. *)
Lemma notAfter_le (a b : float64) :
  isNaN a = false -> isNaN b = false -> notAfter a b -> (a <= b)%F.
Proof. intros Ha Hb H. f64_cases. Qed.

(** ** [sort.Float64s] sorts *)

Lemma insert_Float64_perm (x : float64) (l : list float64) :
  Permutation (insert_Float64 x l) (x :: l).
Proof.
  induction l as [|y l IH]; simpl; [reflexivity|].
  destruct (lessNaN y x); [|reflexivity].
  rewrite IH. apply perm_swap.
Qed.

Lemma sort_Float64s_perm (l : list float64) : Permutation (sort_Float64s l) l.
Proof.
  induction l as [|x l IH]; simpl; [constructor|].
  rewrite insert_Float64_perm. now constructor.
Qed.

Lemma sort_Float64s_length (l : list float64) :
  length (sort_Float64s l) = length l.
Proof. apply Permutation_length, sort_Float64s_perm. Qed.

Lemma insert_Float64_sorted (x : float64) (l : list float64) :
  StronglySorted notAfter l -> StronglySorted notAfter (insert_Float64 x l).
Proof.
  induction 1 as [|y l Hl IH Hy]; simpl.
  - repeat constructor.
  - destruct (lessNaN y x) eqn:Hyx.
    + constructor; [exact IH|].
      eapply Permutation_Forall; [symmetry; apply insert_Float64_perm|].
      constructor; [now apply lessNaN_notAfter|exact Hy].
    + constructor; [now constructor|].
      constructor; [exact Hyx|].
      eapply Forall_impl; [exact Hy|]. intros z Hz. simpl in Hz.
      eapply notAfter_trans; [exact Hyx|exact Hz].
Qed.

Lemma sort_Float64s_sorted (l : list float64) :
  StronglySorted notAfter (sort_Float64s l).
Proof.
  induction l as [|x l IH]; simpl; [constructor|].
  now apply insert_Float64_sorted.
Qed.

(** A slice without NaN is sorted by value. *)
Lemma sort_Float64s_ascending (l : list float64) :
  forallb (fun v => negb (isNaN v)) l = true ->
  StronglySorted Fle (sort_Float64s l).
Proof.
  intros Hnan.
  assert (Hall : Forall (fun v => isNaN v = false) (sort_Float64s l)).
  { eapply Permutation_Forall; [symmetry; apply sort_Float64s_perm|].
    apply Forall_forall. intros v Hv. apply list_elem_of_In in Hv.
    rewrite forallb_forall in Hnan. now apply negb_true_iff, Hnan. }
  pose proof (sort_Float64s_sorted l) as Hs.
  induction Hs as [|x k Hk IH Hx]; [constructor|].
  apply Forall_cons in Hall as [Hxn Hall].
  constructor; [now apply IH|].
  rewrite Forall_forall in Hx, Hall. apply Forall_forall. intros z Hz.
  apply notAfter_le; auto.
Qed.

(** In a sorted slice, a smaller index holds a value that stands before. *)
Lemma sorted_nth_le (R : float64 -> float64 -> Prop) (l : list float64)
    (i j : nat) :
  StronglySorted R l -> (i < j)%nat -> (j < length l)%nat ->
  R (nth i l 0%F) (nth j l 0%F).
Proof.
  intros Hs. revert i j. induction Hs as [|x l Hl IH Hx]; intros i j Hij Hj.
  - simpl in Hj. lia.
  - destruct i as [|i], j as [|j]; simpl in *; try lia.
    + rewrite Forall_forall in Hx. apply Hx.
      apply list_elem_of_In, nth_In. lia.
    + apply IH; lia.
Qed.

Lemma index_sorted_le (l : list float64) (i j : Z) :
  Forall (fun v => isNaN v = false) l ->
  StronglySorted Fle l -> 0 <= i <= j -> j < Z.of_nat (length l) ->
  (index l i <= index l j)%F.
Proof.
  intros Hnan Hs Hij Hj. unfold index.
  destruct (Z.eq_dec i j) as [->|Hne].
  - apply Fle_refl. rewrite Forall_forall in Hnan. apply Hnan.
    apply list_elem_of_In, nth_In. lia.
  - apply sorted_nth_le; [exact Hs|lia|lia].
Qed.

Lemma index_In (l : list float64) (i : Z) :
  0 <= i < Z.of_nat (length l) -> In (index l i) l.
Proof. intros Hi. unfold index. apply nth_In. lia. Qed.

(** ** [Stats]: [Add] returns, [Finalize] and the empty sample list *)

Section StatsBasics.
Import mm.

Lemma NewStats_recognised (t : string) (s : Stats) :
  NewStats t = inr s -> recognised s /\ metricType s = t.
Proof.
  unfold NewStats, MetricTypes, recognised. intros H.
  destruct (String.eqb t "gauge") eqn:Hg; simpl in H.
  - inversion H; subst; simpl. apply String.eqb_eq in Hg. auto.
  - destruct (String.eqb t "counter") eqn:Hc; simpl in H; [|discriminate].
    inversion H; subst; simpl. apply String.eqb_eq in Hc. auto.
Qed.

Lemma Add_gauge (s : Stats) (m : Metric) (ts : Z) :
  metricType s = "gauge" ->
  exists s', Add s m ts = Returned (s', None) /\
    metricType s' = "gauge" /\ vals s' = vals s ++ [Number m].
Proof.
  intros Hg. unfold Add. rewrite Hg. simpl. eexists. split; [reflexivity|].
  simpl. auto.
Qed.

Lemma Add_counter (s : Stats) (m : Metric) (ts : Z) :
  metricType s = "counter" ->
  exists s' err, Add s m ts = Returned (s', err) /\
    metricType s' = "counter" /\ firstVal s' = false /\
    prevTs s' = ts /\ penuTs s' = prevTs s /\
    prevVal s' = Number m /\ penuVal s' = prevVal s /\
    (vals s', err) =
      if negb (firstVal s) && f64_ge (Number m) (prevVal s)
      then (vals s ++ [rate s (Number m) ts],
            if lapped s (Number m)
            then Some (ValueLap (penuTs s) (penuVal s) (prevTs s) (prevVal s)
                                ts (Number m))
            else None)
      else (vals s, None).
Proof.
  intros Hc. unfold Add. rewrite Hc. simpl.
  destruct (firstVal s); simpl.
  - do 2 eexists. split; [reflexivity|]. simpl. auto 10.
  - destruct (f64_ge (Number m) (prevVal s)); simpl;
      do 2 eexists; (split; [reflexivity|]); simpl; auto 10.
Qed.

Lemma Add_returns (s : Stats) (m : Metric) (ts : Z) :
  recognised s ->
  exists s' err, Add s m ts = Returned (s', err) /\ metricType s' = metricType s.
Proof.
  intros [Hg|Hc].
  - destruct (Add_gauge s m ts Hg) as (s' & HA & Ht & _).
    exists s', None. split; [exact HA|congruence].
  - destruct (Add_counter s m ts Hc) as (s' & err & HA & Ht & _).
    exists s', err. split; [exact HA|congruence].
Qed.

Lemma AddAll_returns (samples : list (Metric * Z)) (s : Stats) :
  recognised s ->
  exists s' errs, AddAll s samples = Returned (s', errs) /\
    metricType s' = metricType s /\ length errs = length samples.
Proof.
  revert s. induction samples as [|[m ts] rest IH]; intros s Hs; simpl.
  - now exists s, [].
  - destruct (Add_returns s m ts Hs) as (s1 & err & HA & Ht).
    rewrite HA.
    destruct (IH s1) as (s2 & errs & HB & Ht2 & Hlen).
    { unfold recognised in *. now rewrite Ht. }
    rewrite HB. exists s2, (err :: errs). simpl. split; [reflexivity|].
    split; [congruence|now f_equal].
Qed.

Lemma AddAll_snoc (samples : list (Metric * Z)) (m : Metric) (ts : Z) (s : Stats) :
  AddAll s (samples ++ [(m, ts)]) =
  match AddAll s samples with
  | Returned (s', errs) =>
      match Add s' m ts with
      | Returned (s'', err) => Returned (s'', errs ++ [err])
      | Panicked msg => Panicked msg
      end
  | Panicked msg => Panicked msg
  end.
Proof.
  revert s. induction samples as [|[m1 t1] rest IH]; intros s; simpl.
  - destruct (Add s m ts) as [[s' err]|]; reflexivity.
  - destruct (Add s m1 t1) as [[s1 e1]|]; [|reflexivity].
    rewrite IH. destruct (AddAll s1 rest) as [[s2 errs]|]; [|reflexivity].
    destruct (Add s2 m ts) as [[s3 e3]|]; reflexivity.
Qed.

(** C10.  A [Stats] whose [metricType] is "gauge" or "counter" never reaches
    the [log.Panic] of [Add]'s default branch: [Add] returns, with an error
    or without, and leaves the type as it was, so that the same holds for
    every later call.  These are the only types [NewStats] gives a [Stats]. *)
Theorem Add_panic_free (s : Stats) (m : Metric) (ts : Z)
    (Htype : metricType s = "gauge" \/ metricType s = "counter") :
  (exists s' err,
     Add s m ts = Returned (s', err) /\
     (metricType s' = "gauge" \/ metricType s' = "counter")) /\
  (forall t s0, NewStats t = inr s0 ->
                metricType s0 = "gauge" \/ metricType s0 = "counter").
Proof.
  split.
  - destruct (Add_returns s m ts Htype) as (s' & err & HA & Ht).
    exists s', err. split; [exact HA|]. now rewrite Ht.
  - intros t s0 Hnew. now apply NewStats_recognised in Hnew.
Qed.

Lemma Add_panic_free_witness :
  let s := {| metricType := "counter"; str := ""; firstVal := false;
              prevTs := 10; penuTs := 0; prevVal := 7; penuVal := 0;
              vals := []; sum := 0; Cnt := 0; Min := 0; Pct5 := 0;
              Avg := 0; Med := 0; Pct95 := 0; Max := 0 |} in
  let m := {| Name := "Threads_running"; Type_ := "counter"; Number := 9 |} in
  (metricType s = "gauge" \/ metricType s = "counter") /\
  exists s' err,
    Add s m 11 = Returned (s', err) /\
    (metricType s' = "gauge" \/ metricType s' = "counter").
Proof.
  intros s m. split.
  - right. reflexivity.
  - apply (Add_panic_free s m 11). right. reflexivity.
Defined.

Lemma Finalize_None (s : Stats) : snd (Finalize s) = None <-> vals s = [].
Proof.
  unfold Finalize. destruct (vals s) as [|v l]; simpl; [tauto|].
  split; discriminate.
Qed.

Lemma Finalize_Some (s r : Stats) :
  snd (Finalize s) = Some r -> stripped r /\ summary r = summary (Summarize s).
Proof.
  unfold Finalize. destruct (Z.of_nat (length (vals s)) =? 0); simpl; [discriminate|].
  intros H. inversion H; subst; clear H. unfold stripped, summary. simpl.
  repeat split; reflexivity.
Qed.

Lemma AddAll_gauge (samples : list (Metric * Z)) (s : Stats) :
  metricType s = "gauge" ->
  exists s' errs, AddAll s samples = Returned (s', errs) /\
    metricType s' = "gauge" /\ vals s' = vals s ++ values samples /\
    Forall (fun err => err = None) errs.
Proof.
  revert s. induction samples as [|[m ts] rest IH]; intros s Hg; simpl.
  - exists s, []. rewrite app_nil_r. auto.
  - destruct (Add_gauge s m ts Hg) as (s1 & HA & Hg1 & Hv1). rewrite HA.
    destruct (IH s1 Hg1) as (s2 & errs & HB & Hg2 & Hv2 & Herrs). rewrite HB.
    exists s2, (None :: errs). split; [reflexivity|]. split; [exact Hg2|].
    split; [|now constructor].
    rewrite Hv2, Hv1, <- app_assoc. reflexivity.
Qed.

(** A counter that only falls gains no rate. *)
Lemma AddAll_falling (samples : list (Metric * Z)) (s : Stats) :
  metricType s = "counter" -> firstVal s = false ->
  falling (prevVal s) (values samples) = true ->
  exists s' errs, AddAll s samples = Returned (s', errs) /\
    vals s' = vals s /\ Forall (fun err => err = None) errs.
Proof.
  revert s. induction samples as [|[m ts] rest IH]; intros s Hc Hf Hfall; simpl.
  - exists s, []. auto.
  - simpl in Hfall. apply andb_prop in Hfall as [Hgt Hrest].
    destruct (Add_counter s m ts Hc)
      as (s1 & err & HA & Hc1 & Hf1 & _ & _ & Hp1 & _ & Hv1).
    assert (Hge : f64_ge (Number m) (prevVal s) = false).
    { now apply Flt_not_ge. }
    rewrite Hf, Hge in Hv1. simpl in Hv1. inversion Hv1 as [[Hvals Herr]].
    rewrite HA. destruct (IH s1 Hc1 Hf1) as (s2 & errs & HB & Hv2 & Herrs).
    { now rewrite Hp1. }
    rewrite HB. subst err. exists s2, (None :: errs). split; [reflexivity|].
    split; [congruence|now constructor].
Qed.

Lemma Add_first (s0 : Stats) (m : Metric) (ts : Z) :
  NewStats "counter" = inr s0 ->
  exists s1, Add s0 m ts = Returned (s1, None) /\
    metricType s1 = "counter" /\ firstVal s1 = false /\ vals s1 = [] /\
    prevVal s1 = Number m /\ prevTs s1 = ts /\ penuVal s1 = 0%F.
Proof.
  intros Hnew. inversion Hnew; subst; clear Hnew.
  eexists. split; [reflexivity|]. simpl. auto 10.
Qed.

End StatsBasics.

(** ** [Finalize] and the empty sample list *)

Section FinalizeNil.
Import mm.

(** C8, as worded: a counter that was given one sample still finalizes to
    nil, so "nil exactly when nothing was ever added" fails. *)
Lemma Finalize_nil_after_Add :
  let m := {| Name := "Queries"; Type_ := "counter"; Number := 5 |} in
  (exists s0 s,
     NewStats "counter" = inr s0 /\
     AddAll s0 [(m, 1)] = Returned (s, [None]) /\
     snd (Finalize s) = None) /\
  ~ Finalize_nil_iff_no_Add.
Proof.
  intros m.
  destruct (NewStats "counter") as [|s0] eqn:Hnew; [discriminate|].
  destruct (Add_first s0 m 1 Hnew) as (s1 & HA & _ & _ & Hv & _).
  assert (HAll : AddAll s0 [(m, 1)] = Returned (s1, [None])).
  { simpl. now rewrite HA. }
  assert (Hfin : snd (Finalize s1) = None) by now apply Finalize_None.
  split.
  - exists s0, s1. auto.
  - intros H.
    destruct (H "counter" s0 [(m, 1)] s1 [None] Hnew HAll) as [Hnil _].
    specialize (Hnil Hfin). discriminate.
Qed.

(** C8, amended.  [Finalize] returns nil exactly when the accumulated sample
    list is empty; for a gauge that is exactly when [Add] was never called.
    Otherwise it returns a copy that holds the summary fields of
    [Summarize] and nothing else: type, sample list, running sum and the
    previous and penultimate timestamps and values are all unset. *)
Theorem Finalize_nil_iff_no_vals (s g0 : Stats) (samples : list (Metric * Z))
    (Hnew : NewStats "gauge" = inr g0) :
  (snd (Finalize s) = None <-> vals s = []) /\
  (exists g errs,
     AddAll g0 samples = Returned (g, errs) /\
     (snd (Finalize g) = None <-> samples = [])) /\
  match snd (Finalize s) with
  | Some r => stripped r /\ summary r = summary (Summarize s)
  | None => True
  end.
Proof.
  split; [apply Finalize_None|]. split.
  - destruct (NewStats_recognised _ _ Hnew) as [_ Hg].
    destruct (AddAll_gauge samples g0 Hg) as (g & errs & HA & _ & Hv & _).
    exists g, errs. split; [exact HA|].
    rewrite Finalize_None, Hv.
    inversion Hnew; subst; simpl. unfold values.
    destruct samples; simpl; split; (discriminate || reflexivity || congruence).
  - destruct (snd (Finalize s)) as [r|] eqn:Hr; [|exact I].
    now apply Finalize_Some.
Qed.

Lemma Finalize_nil_iff_no_vals_witness :
  let g0 := {| metricType := "gauge"; str := ""; firstVal := true;
               prevTs := 0; penuTs := 0; prevVal := 0; penuVal := 0;
               vals := []; sum := 0; Cnt := 0; Min := 0; Pct5 := 0;
               Avg := 0; Med := 0; Pct95 := 0; Max := 0 |} in
  let m := {| Name := "Threads_running"; Type_ := "gauge"; Number := 4 |} in
  let s := {| metricType := "counter"; str := ""; firstVal := false;
              prevTs := 9; penuTs := 8; prevVal := 6; penuVal := 2;
              vals := [4%F]; sum := 4; Cnt := 0; Min := 0; Pct5 := 0;
              Avg := 0; Med := 0; Pct95 := 0; Max := 0 |} in
  NewStats "gauge" = inr g0 /\
  (snd (Finalize s) = None <-> vals s = []) /\
  (exists g errs,
     AddAll g0 [(m, 7)] = Returned (g, errs) /\
     (snd (Finalize g) = None <-> [(m, 7)] = [])) /\
  match snd (Finalize s) with
  | Some r => stripped r /\ summary r = summary (Summarize s)
  | None => True
  end.
Proof.
  intros g0 m s.
  split; [reflexivity|].
  apply (Finalize_nil_iff_no_vals s g0 [(m, 7)]); reflexivity.
Defined.

End FinalizeNil.

(** ** A counter without a rate *)

Section CounterWithoutRate.
Import mm.

Lemma single_counter_run (now next : Time) (ts : Z) (m : Metric) (sp : list Report) :
  Type_ m = "counter" -> IsZero now = false ->
  exists s,
    run [Tick now; Collect {| StartTs := ts; Collection_Metrics := [m] |};
         Tick next] (NewAggregator sp)
    = Returned {| startTs := next; cur := ∅;
                  spool := sp ++ [{| Ts := now;
                                     Report_Metrics := {[ Name m := s ]} |}] |} /\
    metricType s = "counter" /\ vals s = [] /\ Cnt s = 0.
Proof.
  intros Hc Hnow. simpl. unfold addMetric. rewrite lookup_empty, Hc. simpl.
  rewrite Hnow. simpl. unfold report. simpl.
  rewrite insert_empty, map_fmap_singleton.
  eexists. split; [reflexivity|]. simpl. auto.
Qed.

(** C9, as worded: the report of a window in which a counter was seen once
    does carry the counter, with [Cnt] 0. *)
Lemma single_counter_reported :
  let m := {| Name := "Queries"; Type_ := "counter"; Number := 5 |} in
  (exists a r s,
     run [Tick 60; Collect {| StartTs := 61; Collection_Metrics := [m] |};
          Tick 120] (NewAggregator []) = Returned a /\
     spool a = [r] /\ Report_Metrics r !! "Queries" = Some s /\ Cnt s = 0) /\
  ~ single_counter_omitted.
Proof.
  intros m.
  destruct (single_counter_run 60 120 61 m [] eq_refl eq_refl)
    as (s & Hrun & _ & _ & Hcnt).
  split.
  - eexists _, _, s. split; [exact Hrun|]. simpl. split; [reflexivity|].
    split; [apply lookup_singleton_eq|exact Hcnt].
  - intros H.
    specialize (H 60 120 61 m _ _ eq_refl eq_refl Hrun (or_introl eq_refl)).
    simpl in H. rewrite lookup_singleton_eq in H. discriminate.
Qed.

(** C9, amended.  For a counter, [Finalize] returns nil whenever the list of
    rates is empty, although [Add] was called: after the one [Add] that
    only records the baseline, and after any samples each of which is
    strictly below the one before.  [report] does not ask [Finalize]: a
    counter seen once in a window is written to the report, with [Cnt] 0. *)
Theorem counter_Finalize_nil (s0 : Stats) (m : Metric) (ts : Z)
    (samples : list (Metric * Z)) (now next : Time)
    (Hnew : NewStats "counter" = inr s0)
    (Hfall : falling (Number m) (values samples) = true)
    (Htype : Type_ m = "counter")
    (Hnow : IsZero now = false) :
  (forall s, vals s = [] -> snd (Finalize s) = None) /\
  (exists s1 err, Add s0 m ts = Returned (s1, err) /\ snd (Finalize s1) = None) /\
  (exists s errs,
     AddAll s0 ((m, ts) :: samples) = Returned (s, errs) /\
     snd (Finalize s) = None) /\
  (exists s,
     run [Tick now; Collect {| StartTs := ts; Collection_Metrics := [m] |};
          Tick next] (NewAggregator [])
     = Returned {| startTs := next; cur := ∅;
                   spool := [{| Ts := now;
                                Report_Metrics := {[ Name m := s ]} |}] |} /\
     Cnt s = 0 /\ snd (Finalize s) = None).
Proof.
  destruct (Add_first s0 m ts Hnew) as (s1 & HA & Hc1 & Hf1 & Hv1 & Hp1 & _).
  split; [intros s Hs; now apply Finalize_None|].
  split; [exists s1, None; split; [exact HA|now apply Finalize_None]|].
  split.
  - destruct (AddAll_falling samples s1 Hc1 Hf1) as (s2 & errs & HB & Hv2 & _).
    { now rewrite Hp1. }
    exists s2, (None :: errs). simpl. rewrite HA, HB. split; [reflexivity|].
    apply Finalize_None. congruence.
  - destruct (single_counter_run now next ts m [] Htype Hnow)
      as (s & Hrun & _ & Hv & Hcnt).
    exists s. split; [exact Hrun|]. split; [exact Hcnt|now apply Finalize_None].
Qed.

Lemma counter_Finalize_nil_witness :
  let s0 := {| metricType := "counter"; str := ""; firstVal := true;
               prevTs := 0; penuTs := 0; prevVal := 0; penuVal := 0;
               vals := []; sum := 0; Cnt := 0; Min := 0; Pct5 := 0;
               Avg := 0; Med := 0; Pct95 := 0; Max := 0 |} in
  let m := {| Name := "Queries"; Type_ := "counter"; Number := 9 |} in
  let m' := {| Name := "Queries"; Type_ := "counter"; Number := 4 |} in
  let m'' := {| Name := "Queries"; Type_ := "counter"; Number := 1 |} in
  NewStats "counter" = inr s0 /\
  falling (Number m) (values [(m', 2); (m'', 3)]) = true /\
  (exists s errs,
     AddAll s0 [(m, 1); (m', 2); (m'', 3)] = Returned (s, errs) /\
     snd (Finalize s) = None).
Proof.
  intros s0 m m' m''.
  split; [reflexivity|]. split; [reflexivity|].
  apply (counter_Finalize_nil s0 m 1 [(m', 2); (m'', 3)] 60 120);
    reflexivity.
Defined.

End CounterWithoutRate.

(** ** Counters: rates and the lap error *)

Section Counters.
Import mm.

Lemma rate_finite (p v : Q) (d : Z) :
  d <> 0 ->
  ((Finite v - Finite p) / f64_of_int d)%F = Finite ((v + - p) / inject_Z d).
Proof.
  intros Hd. unfold f64_sub, f64_of_int. simpl.
  assert (H : Qeq_bool (inject_Z d) 0 = false).
  { unfold Qeq_bool, inject_Z. simpl. apply Z.eqb_neq. lia. }
  now rewrite H.
Qed.

Lemma rate_nonneg (p v : float64) (d : Z) :
  isFinite p = true -> isFinite v = true -> (p <= v)%F -> 0 < d ->
  (0 <= (v - p) / f64_of_int d)%F.
Proof.
  intros Hp Hv Hpv Hd. destruct p as [p| | |], v as [v| | |]; try discriminate.
  rewrite rate_finite by lia. unfold Fle in *. simpl in *.
  apply Qle_bool_iff in Hpv. apply Qle_bool_iff.
  apply Qle_shift_div_l.
  - unfold Qlt, inject_Z. simpl. lia.
  - lra.
Qed.

(** While a counter rises over timestamps that rise by less than [2^63] a
    step, each [Add] appends the spec's rate. *)
Lemma AddAll_rising_rates (samples : list (Metric * Z)) (s : Stats) :
  metricType s = "counter" -> firstVal s = false ->
  isFinite (prevVal s) = true -> allFinite (values samples) = true ->
  rising (prevVal s) (values samples) = true ->
  ticking_close (prevTs s) (stamps samples) = true ->
  exists s' errs,
    AddAll s samples = Returned (s', errs) /\
    metricType s' = "counter" /\
    vals s' = vals s ++ rates (prevVal s, prevTs s) (points samples) /\
    Forall (fun r => (0 <= r)%F) (rates (prevVal s, prevTs s) (points samples)).
Proof.
  revert s.
  induction samples as [|[m ts] rest IH]; intros s Hc Hf Hfp Hfin Hrise Htick.
  - exists s, []. simpl. rewrite app_nil_r. auto.
  - simpl in Hrise, Htick, Hfin.
    apply andb_prop in Hrise as [Hge Hrise].
    apply andb_prop in Hfin as [Hfm Hfin].
    apply andb_prop in Htick as [Hlt Htick].
    apply andb_prop in Hlt as [Hlt Hclose].
    apply Z.ltb_lt in Hlt, Hclose.
    destruct (Add_counter s m ts Hc)
      as (s1 & err & HA & Hc1 & Hf1 & Ht1 & _ & Hp1 & _ & Hv1).
    rewrite Hf, Hge in Hv1. simpl in Hv1. inversion Hv1 as [[Hvals Herr]].
    destruct (IH s1 Hc1 Hf1) as (s2 & errs & HB & Hc2 & Hv2 & Hpos).
    { now rewrite Hp1. }
    { exact Hfin. }
    { now rewrite Hp1. }
    { now rewrite Ht1. }
    simpl. rewrite HA, HB. exists s2, (err :: errs).
    split; [reflexivity|]. split; [exact Hc2|].
    assert (Hrate : rate s (Number m) ts
                    = ((Number m - prevVal s) / f64_of_int (ts - prevTs s))%F).
    { unfold rate. rewrite wrap64_id; [reflexivity|]. unfold int64_range. lia. }
    rewrite Hp1, Ht1 in Hv2, Hpos. split.
    + rewrite Hv2, Hvals, Hrate, <- app_assoc. reflexivity.
    + constructor; [|exact Hpos]. simpl.
      apply rate_nonneg; [exact Hfp|exact Hfm|exact Hge|lia].
Qed.

Lemma rates_length (prev : float64 * Z) (l : list (float64 * Z)) :
  length (rates prev l) = length l.
Proof.
  revert prev. induction l as [|[v t] l IH]; intros prev; simpl;
    [reflexivity|now rewrite IH].
Qed.

Lemma Summarize_Cnt (s : Stats) :
  recognised s -> Cnt (Summarize s) = Z.of_nat (length (vals s)).
Proof.
  intros Hs. unfold Summarize.
  assert (Ht : String.eqb (metricType s) "gauge"
               || String.eqb (metricType s) "counter" = true).
  { destruct Hs as [H|H]; rewrite H; reflexivity. }
  rewrite Ht.
  destruct (1 <? Z.of_nat (length (vals s))); [reflexivity|].
  destruct (Z.of_nat (length (vals s)) =? 1); reflexivity.
Qed.

(** C2, as worded: two [int64] timestamps that rise by [2^63] make the
    duration wrap to [-2^63], and the rate of a rising counter negative. *)
Lemma rate_negative_on_wrap :
  let m0 := {| Name := "Queries"; Type_ := "counter"; Number := 0 |} in
  let m1 := {| Name := "Queries"; Type_ := "counter"; Number := 1 |} in
  (exists s0 s errs r,
     NewStats "counter" = inr s0 /\
     rising (Number m0) (values [(m1, 2 ^ 63 - 1)]) = true /\
     ticking (-1) (stamps [(m1, 2 ^ 63 - 1)]) = true /\
     AddAll s0 [(m0, -1); (m1, 2 ^ 63 - 1)] = Returned (s, errs) /\
     vals s = [r] /\ (r < 0)%F) /\
  ~ rising_counter_rates.
Proof.
  intros m0 m1.
  destruct (NewStats "counter") as [|s0] eqn:Hnew; [discriminate|].
  assert (Hrun : exists s errs,
             AddAll s0 [(m0, -1); (m1, 2 ^ 63 - 1)] = Returned (s, errs) /\
             vals s = [(1 - 0) / f64_of_int (- 2 ^ 63)]%F).
  { inversion Hnew; subst. do 2 eexists. split; reflexivity. }
  destruct Hrun as (s & errs & Hrun & Hvals).
  assert (Hneg : ((1 - 0) / f64_of_int (- 2 ^ 63) < 0)%F) by reflexivity.
  split.
  - exists s0, s, errs, ((1 - 0) / f64_of_int (- 2 ^ 63))%F.
    repeat split; try reflexivity; assumption.
  - intros H.
    destruct (H s0 m0 (-1) [(m1, 2 ^ 63 - 1)] Hnew eq_refl ltac:(lia) eq_refl)
      as (s' & errs' & Hrun' & _ & Hpos & _).
    rewrite Hrun in Hrun'. inversion Hrun'; subst s' errs'.
    rewrite Hvals in Hpos. inversion Hpos as [|r l Hr _]; subst.
    vm_compute in Hr. discriminate.
Qed.

(** C2, amended.  For a counter as [NewStats] returns it, fed finite values
    (no infinity, no NaN) none of which is below the one before, at
    timestamps each of which is above the one before by less than [2^63]
    (as any two non-negative [int64] timestamps are): each [Add] after the
    first appends exactly one rate, the increase of the value over the
    increase of the timestamp; no rate is negative; and [Summarize] sets
    [Cnt] to the number of samples less one.  A counter that holds a
    sample already gains a rate from the first [Add] on: its [Cnt] grows
    by the number of samples. *)
Theorem counter_rates (s0 : Stats) (m : Metric) (ts : Z)
    (samples : list (Metric * Z))
    (Hnew : NewStats "counter" = inr s0)
    (Hfinite : allFinite (values ((m, ts) :: samples)) = true)
    (Hrise : rising (Number m) (values samples) = true)
    (Htick : ticking_close ts (stamps samples) = true) :
  (exists s errs,
     AddAll s0 ((m, ts) :: samples) = Returned (s, errs) /\
     vals s = rates (Number m, ts) (points samples) /\
     length (vals s) = length samples /\
     Forall (fun r => (0 <= r)%F) (vals s) /\
     Cnt (Summarize s) = Z.of_nat (length ((m, ts) :: samples)) - 1) /\
  (forall s1,
     metricType s1 = "counter" -> firstVal s1 = false ->
     prevVal s1 = Number m -> prevTs s1 = ts ->
     exists s errs,
       AddAll s1 samples = Returned (s, errs) /\
       vals s = vals s1 ++ rates (Number m, ts) (points samples) /\
       Forall (fun r => (0 <= r)%F) (rates (Number m, ts) (points samples)) /\
       Cnt (Summarize s)
       = Z.of_nat (length (vals s1)) + Z.of_nat (length samples)).
Proof.
  simpl in Hfinite. apply andb_prop in Hfinite as [Hfm Hfin].
  assert (Hgen : forall s1,
     metricType s1 = "counter" -> firstVal s1 = false ->
     prevVal s1 = Number m -> prevTs s1 = ts ->
     exists s errs,
       AddAll s1 samples = Returned (s, errs) /\
       metricType s = "counter" /\
       vals s = vals s1 ++ rates (Number m, ts) (points samples) /\
       Forall (fun r => (0 <= r)%F) (rates (Number m, ts) (points samples))).
  { intros s1 Hc1 Hf1 Hp1 Ht1.
    destruct (AddAll_rising_rates samples s1 Hc1 Hf1)
      as (s2 & errs & HB & Hc2 & Hv2 & Hpos).
    { now rewrite Hp1. }
    { exact Hfin. }
    { now rewrite Hp1. }
    { now rewrite Ht1. }
    rewrite Hp1, Ht1 in Hv2, Hpos. exists s2, errs. auto. }
  split.
  - destruct (Add_first s0 m ts Hnew)
      as (s1 & HA & Hc1 & Hf1 & Hv1 & Hp1 & Ht1 & _).
    destruct (Hgen s1 Hc1 Hf1 Hp1 Ht1) as (s2 & errs & HB & Hc2 & Hv2 & Hpos).
    rewrite Hv1 in Hv2. simpl in Hv2.
    exists s2, (None :: errs). simpl. rewrite HA, HB.
    split; [reflexivity|]. split; [exact Hv2|].
    assert (Hlen : length (vals s2) = length samples).
    { rewrite Hv2, rates_length. unfold points. now rewrite length_map. }
    split; [exact Hlen|]. split; [now rewrite Hv2|].
    rewrite Summarize_Cnt by (right; exact Hc2). rewrite Hlen. lia.
  - intros s1 Hc1 Hf1 Hp1 Ht1.
    destruct (Hgen s1 Hc1 Hf1 Hp1 Ht1) as (s2 & errs & HB & Hc2 & Hv2 & Hpos).
    exists s2, errs. split; [exact HB|]. split; [exact Hv2|].
    split; [exact Hpos|].
    rewrite Summarize_Cnt by (right; exact Hc2).
    rewrite Hv2, length_app, rates_length. unfold points.
    rewrite length_map. lia.
Qed.

Lemma counter_rates_witness :
  let s0 := {| metricType := "counter"; str := ""; firstVal := true;
               prevTs := 0; penuTs := 0; prevVal := 0; penuVal := 0;
               vals := []; sum := 0; Cnt := 0; Min := 0; Pct5 := 0;
               Avg := 0; Med := 0; Pct95 := 0; Max := 0 |} in
  let m := {| Name := "Queries"; Type_ := "counter"; Number := 10 |} in
  let m' := {| Name := "Queries"; Type_ := "counter"; Number := 16 |} in
  let m'' := {| Name := "Queries"; Type_ := "counter"; Number := 16 |} in
  NewStats "counter" = inr s0 /\
  allFinite (values [(m, 1); (m', 3); (m'', 5)]) = true /\
  rising (Number m) (values [(m', 3); (m'', 5)]) = true /\
  ticking_close 1 (stamps [(m', 3); (m'', 5)]) = true /\
  exists s errs,
    AddAll s0 [(m, 1); (m', 3); (m'', 5)] = Returned (s, errs) /\
    vals s = [(16 - 10) / f64_of_int (3 - 1); (16 - 16) / f64_of_int (5 - 3)]%F /\
    length (vals s) = 2%nat /\
    Forall (fun r => (0 <= r)%F) (vals s) /\
    Cnt (Summarize s) = 2.
Proof.
  intros s0 m m' m''.
  split; [reflexivity|]. split; [reflexivity|]. split; [reflexivity|].
  split; [reflexivity|].
  apply (counter_rates s0 m 1 [(m', 3); (m'', 5)]); reflexivity.
Defined.

(** After two or more samples, a counter holds the values of the last two. *)
Lemma AddAll_last_two (before : list (Metric * Z)) (ma mb : Metric) (ta tb : Z)
    (s0 s : Stats) (errs : list (option error)) :
  metricType s0 = "counter" ->
  AddAll s0 (before ++ [(ma, ta); (mb, tb)]) = Returned (s, errs) ->
  metricType s = "counter" /\ firstVal s = false /\
  prevVal s = Number mb /\ penuVal s = Number ma /\
  prevTs s = tb /\ penuTs s = ta.
Proof.
  intros Hc0 Hrun.
  change (before ++ [(ma, ta); (mb, tb)])
    with (before ++ [(ma, ta)] ++ [(mb, tb)]) in Hrun.
  rewrite app_assoc, AddAll_snoc, AddAll_snoc in Hrun.
  destruct (AddAll_returns before s0 (or_intror Hc0))
    as (s1 & errs1 & H1 & Hc1 & _).
  rewrite H1 in Hrun. rewrite Hc0 in Hc1.
  destruct (Add_counter s1 ma ta Hc1)
    as (s2 & e2 & H2 & Hc2 & _ & Ht2 & _ & Hp2 & _).
  rewrite H2 in Hrun.
  destruct (Add_counter s2 mb tb Hc2)
    as (s3 & e3 & H3 & Hc3 & Hf3 & Ht3 & Hpt3 & Hp3 & Hpp3 & _).
  rewrite H3 in Hrun. inversion Hrun; subst s3.
  repeat split; congruence.
Qed.

Lemma lapped_iff (s : Stats) (v : float64) :
  lapped s v = true <->
  (prevVal s == 0)%F /\ (0 < penuVal s)%F /\ (penuVal s < v)%F.
Proof.
  unfold lapped, Feq, Flt, f64_gt. rewrite !andb_true_iff. tauto.
Qed.

Lemma zero_not_above (a b : float64) :
  (a <= b)%F -> (b == 0)%F -> (0 < a)%F -> False.
Proof. intros H1 H2 H3. f64_cases. Qed.

Lemma above_zero_ge (a b c : float64) :
  (b == 0)%F -> (0 < a)%F -> (a < c)%F -> f64_ge c b = true.
Proof. intros H1 H2 H3. f64_cases. Qed.

Lemma unlappable_lapped (s : Stats) (v : float64) :
  unlappable s -> f64_ge v (prevVal s) = true -> lapped s v = false.
Proof.
  intros Hu Hge. apply not_true_iff_false. rewrite lapped_iff.
  intros (Hz & Hpos & Hlt). destruct Hu as [Hu|Hu].
  - unfold Flt in Hpos. unfold f64_gt in Hu. congruence.
  - exact (zero_not_above _ _ Hu Hz Hpos).
Qed.

Lemma last_cons_default {A : Type} (l : list A) (x d d' : A) :
  List.last (x :: l) d = List.last (x :: l) d'.
Proof.
  revert x. induction l as [|y l IH]; intros x; [reflexivity|].
  change (List.last (y :: l) d = List.last (y :: l) d'). apply IH.
Qed.

(** A rising counter raises no lap error. *)
Lemma AddAll_rising_no_lap (samples : list (Metric * Z)) (s : Stats) :
  metricType s = "counter" -> firstVal s = false -> unlappable s ->
  rising (prevVal s) (values samples) = true ->
  exists s' errs,
    AddAll s samples = Returned (s', errs) /\
    Forall (fun err => err = None) errs /\
    metricType s' = "counter" /\ firstVal s' = false /\
    prevVal s' = List.last (values samples) (prevVal s) /\
    prevTs s' = List.last (stamps samples) (prevTs s).
Proof.
  revert s. induction samples as [|[m ts] rest IH]; intros s Hc Hf Hu Hrise.
  - exists s, []. simpl. auto 10.
  - simpl in Hrise. apply andb_prop in Hrise as [Hge Hrise].
    destruct (Add_counter s m ts Hc)
      as (s1 & err & HA & Hc1 & Hf1 & Ht1 & _ & Hp1 & Hpp1 & Hv1).
    rewrite Hf, Hge, (unlappable_lapped s _ Hu Hge) in Hv1. simpl in Hv1.
    inversion Hv1 as [[Hvals Herr]]. subst err.
    destruct (IH s1 Hc1 Hf1) as (s2 & errs & HB & Hnone & Hc2 & Hf2 & Hp2 & Ht2).
    { right. rewrite Hpp1, Hp1. now apply f64_ge_le. }
    { now rewrite Hp1. }
    exists s2, (None :: errs). simpl. rewrite HA, HB.
    split; [reflexivity|]. split; [now constructor|].
    split; [exact Hc2|]. split; [exact Hf2|].
    rewrite Hp2, Ht2, Hp1, Ht1.
    unfold values, stamps. destruct rest as [|p rest]; [simpl; auto|].
    split; apply last_cons_default.
Qed.

Lemma AddAll_app (l1 l2 : list (Metric * Z)) (s : Stats) :
  AddAll s (l1 ++ l2) =
  match AddAll s l1 with
  | Returned (s', errs1) =>
      match AddAll s' l2 with
      | Returned (s'', errs2) => Returned (s'', errs1 ++ errs2)
      | Panicked msg => Panicked msg
      end
  | Panicked msg => Panicked msg
  end.
Proof.
  revert s. induction l1 as [|[m ts] l1 IH]; intros s; simpl.
  - destruct (AddAll s l2) as [[s' errs]|]; reflexivity.
  - destruct (Add s m ts) as [[s1 e1]|]; [|reflexivity].
    rewrite IH. destruct (AddAll s1 l1) as [[s2 errs1]|]; [|reflexivity].
    destruct (AddAll s2 l2) as [[s3 errs2]|]; reflexivity.
Qed.

(** The same when only the first of the rising values is known not to lap. *)
Lemma AddAll_rising_no_lap_from (samples : list (Metric * Z)) (s : Stats) :
  metricType s = "counter" -> firstVal s = false ->
  (forall v, head (values samples) = Some v -> lapped s v = false) ->
  rising (prevVal s) (values samples) = true ->
  exists s' errs,
    AddAll s samples = Returned (s', errs) /\
    Forall (fun err => err = None) errs /\
    metricType s' = "counter" /\ firstVal s' = false /\
    prevVal s' = List.last (values samples) (prevVal s).
Proof.
  intros Hc Hf Hhead Hrise. destruct samples as [|[m ts] rest].
  - exists s, []. simpl. auto.
  - simpl in Hrise. apply andb_prop in Hrise as [Hge Hrise].
    destruct (Add_counter s m ts Hc)
      as (s1 & err & HA & Hc1 & Hf1 & _ & _ & Hp1 & Hpp1 & Hv1).
    rewrite Hf, Hge, (Hhead (Number m) eq_refl) in Hv1. simpl in Hv1.
    inversion Hv1 as [[Hvals Herr]]. subst err.
    destruct (AddAll_rising_no_lap rest s1 Hc1 Hf1)
      as (s2 & errs & HB & Hnone & Hc2 & Hf2 & Hp2 & _).
    { right. rewrite Hpp1, Hp1. now apply f64_ge_le. }
    { now rewrite Hp1. }
    exists s2, (None :: errs). simpl. rewrite HA, HB.
    split; [reflexivity|]. split; [now constructor|].
    split; [exact Hc2|]. split; [exact Hf2|].
    rewrite Hp2, Hp1. unfold values.
    destruct rest as [|p rest]; [reflexivity|]. apply last_cons_default.
Qed.

(** C3, as worded: 100, then a fall to 50, then 150, above the value before
    the fall; no [Add] raises the lap error, the value before the new one
    not being 0. *)
Lemma no_lap_after_partial_reset :
  let ma := {| Name := "Queries"; Type_ := "counter"; Number := 100 |} in
  let mb := {| Name := "Queries"; Type_ := "counter"; Number := 50 |} in
  let mc := {| Name := "Queries"; Type_ := "counter"; Number := 150 |} in
  (exists s0 s,
     NewStats "counter" = inr s0 /\
     AddAll s0 [(ma, 1); (mb, 2); (mc, 3)] = Returned (s, [None; None; None]) /\
     (Number mb < Number ma)%F /\ (Number ma < Number mc)%F) /\
  ~ lap_iff_reset_then_exceeds.
Proof.
  intros ma mb mc.
  destruct (NewStats "counter") as [|s0] eqn:Hnew; [discriminate|].
  inversion Hnew; subst s0. split.
  - do 2 eexists. split; [reflexivity|]. split; [reflexivity|].
    split; reflexivity.
  - intros H.
    edestruct (H _ [] ma mb mc 1 2 3 _ _ Hnew eq_refl)
      as (s' & err & HA & Hiff).
    vm_compute in HA. inversion HA; subst err.
    destruct Hiff as [_ Hiff].
    destruct Hiff as [e He]; [split; reflexivity|discriminate].
Qed.

(** C3, amended.  After the values [a], [b] the next [Add], given [c],
    raises the lap error exactly when [b] is 0, [a] is positive and [c]
    exceeds [a]: a counter that fell to exactly 0 and is now above the value
    before the fall.  The first two [Add] raise none.  The error is not
    fatal: the rate is appended and the previous and penultimate values and
    timestamps move on.  Values that rise to a peak, fall once, and rise
    again while staying at or below the peak raise no lap error. *)
Theorem lap_error_iff (s0 : Stats) (before up down : list (Metric * Z))
    (ma mb mc mp md : Metric) (ta tb tc tp td : Z)
    (Hnew : NewStats "counter" = inr s0)
    (Hup : nondecreasing (values (up ++ [(mp, tp)])) = true)
    (Hfall : f64_gt (Number mp) (Number md) = true)
    (Hdown : rising (Number md) (values down) = true)
    (Hbelow : forallb (fun v => f64_ge (Number mp) v) (values down) = true) :
  (exists s errs s' err,
     AddAll s0 (before ++ [(ma, ta); (mb, tb)]) = Returned (s, errs) /\
     Add s mc tc = Returned (s', err) /\
     (is_Some err <->
      (Number mb == 0)%F /\ (0 < Number ma)%F /\ (Number ma < Number mc)%F) /\
     (is_Some err ->
      vals s' = vals s ++ [rate s (Number mc) tc] /\
      prevVal s' = Number mc /\ penuVal s' = Number mb /\
      prevTs s' = tc /\ penuTs s' = tb)) /\
  (exists s2, AddAll s0 [(ma, ta); (mb, tb)] = Returned (s2, [None; None])) /\
  (exists s3 errs3,
     AddAll s0 (up ++ [(mp, tp)] ++ (md, td) :: down) = Returned (s3, errs3) /\
     Forall (fun err => err = None) errs3).
Proof.
  destruct (NewStats_recognised _ _ Hnew) as [_ Hc0].
  split; [|split].
  - destruct (AddAll_returns (before ++ [(ma, ta); (mb, tb)]) s0 (or_intror Hc0))
      as (s & errs & Hadd & _).
    destruct (AddAll_last_two before ma mb ta tb s0 s errs Hc0 Hadd)
      as (Hc & Hf & Hp & Hpp & Ht & Hpt).
    destruct (Add_counter s mc tc Hc)
      as (s' & err & HA & _ & _ & Ht' & Hpt' & Hp' & Hpp' & Hv).
    exists s, errs, s', err. split; [exact Hadd|]. split; [exact HA|].
    rewrite Hf in Hv. simpl in Hv.
    destruct (f64_ge (Number mc) (prevVal s)) eqn:Hge.
    + inversion Hv as [[Hvals Herr]]. split.
      * destruct (lapped s (Number mc)) eqn:Hlap.
        -- apply lapped_iff in Hlap. rewrite Hp, Hpp in Hlap.
           split; [intros _; exact Hlap|intros _; eexists; reflexivity].
        -- split; [intros [e He]; discriminate|].
           intros Hcond. rewrite <- Hp, <- Hpp in Hcond.
           apply lapped_iff in Hcond. congruence.
      * intros _. repeat split; congruence.
    + inversion Hv as [[Hvals Herr]]. split.
      * split; [intros [e He]; discriminate|].
        intros (Hz & Hpos & Hlt). exfalso.
        apply not_true_iff_false in Hge. apply Hge. rewrite Hp.
        exact (above_zero_ge _ _ _ Hz Hpos Hlt).
      * intros [e He]. discriminate.
  - destruct (Add_first s0 ma ta Hnew)
      as (s1 & HA & Hc1 & Hf1 & _ & _ & _ & Hpp1).
    destruct (Add_counter s1 mb tb Hc1) as (s2 & err & HB & _ & _ & _ & _ & _ & _ & Hv).
    assert (Hlap : lapped s1 (Number mb) = false).
    { unfold lapped. rewrite Hpp1. reflexivity. }
    rewrite Hlap in Hv.
    assert (Herr : err = None).
    { destruct (negb (firstVal s1) && f64_ge (Number mb) (prevVal s1));
        now inversion Hv. }
    subst err. exists s2. simpl. now rewrite HA, HB.
  - rewrite (app_assoc up [(mp, tp)]).
    destruct (up ++ [(mp, tp)]) as [|[m0 t0] rest] eqn:Hupl.
    { destruct up; discriminate. }
    assert (Hlast : List.last (values rest) (Number m0) = Number mp).
    { transitivity (List.last (values ((m0, t0) :: rest)) (Number m0)).
      - unfold values. destruct rest as [|p rest]; [reflexivity|].
        simpl. destruct (map _ rest); reflexivity.
      - rewrite <- Hupl. unfold values. rewrite map_app. simpl.
        apply last_last. }
    simpl in Hup.
    destruct (Add_first s0 m0 t0 Hnew)
      as (s1 & HA & Hc1 & Hf1 & _ & Hp1 & _ & Hpp1).
    destruct (AddAll_rising_no_lap rest s1 Hc1 Hf1)
      as (s2 & errs2 & HB & Hnone2 & Hc2 & Hf2 & Hp2 & _).
    { left. rewrite Hpp1. reflexivity. }
    { now rewrite Hp1. }
    rewrite Hp1, Hlast in Hp2.
    destruct (Add_counter s2 md td Hc2)
      as (s3 & err & HC & Hc3 & Hf3 & _ & _ & Hp3 & Hpp3 & Hv3).
    assert (Hge : f64_ge (Number md) (prevVal s2) = false).
    { rewrite Hp2. now apply Flt_not_ge. }
    rewrite Hf2, Hge in Hv3. simpl in Hv3. inversion Hv3 as [[Hvals3 Herr3]].
    subst err.
    destruct (AddAll_rising_no_lap_from down s3 Hc3 Hf3)
      as (s4 & errs4 & HD & Hnone4 & _).
    { intros v Hv. apply not_true_iff_false. rewrite lapped_iff.
      intros (_ & _ & Hlt). rewrite Hpp3, Hp2 in Hlt.
      unfold values in Hv, Hbelow. destruct down as [|d down]; [discriminate|].
      simpl in Hv, Hbelow. inversion Hv; subst v.
      apply andb_prop in Hbelow as [Hle _]. apply Flt_not_ge in Hlt.
      congruence. }
    { now rewrite Hp3. }
    assert (H1 : AddAll s0 ((m0, t0) :: rest) = Returned (s2, None :: errs2)).
    { simpl. now rewrite HA, HB. }
    assert (H2 : AddAll s2 ((md, td) :: down) = Returned (s4, None :: errs4)).
    { simpl. now rewrite HC, HD. }
    exists s4, ((None :: errs2) ++ None :: errs4).
    split.
    + now rewrite AddAll_app, H1, H2.
    + apply Forall_app. split; now constructor.
Qed.

Lemma lap_error_iff_witness :
  let c := fun n => {| Name := "Queries"; Type_ := "counter"; Number := n |} in
  let up := [(c 10%F, 1)] in
  let down := [(c 7%F, 4); (c 20%F, 5)] in
  exists s0,
    NewStats "counter" = inr s0 /\
    nondecreasing (values (up ++ [(c 20%F, 2)])) = true /\
    f64_gt (Number (c 20%F)) (Number (c 5%F)) = true /\
    rising (Number (c 5%F)) (values down) = true /\
    forallb (fun v => f64_ge (Number (c 20%F)) v) (values down) = true /\
    (exists s errs s' err,
       AddAll s0 ([] ++ [(c 100%F, 1); (c 0%F, 2)]) = Returned (s, errs) /\
       Add s (c 150%F) 3 = Returned (s', err) /\
       (is_Some err <->
        (Number (c 0%F) == 0)%F /\ (0 < Number (c 100%F))%F /\
        (Number (c 100%F) < Number (c 150%F))%F) /\
       (is_Some err ->
        vals s' = vals s ++ [rate s (Number (c 150%F)) 3] /\
        prevVal s' = Number (c 150%F) /\ penuVal s' = Number (c 0%F) /\
        prevTs s' = 3 /\ penuTs s' = 2)) /\
    (exists s2,
       AddAll s0 [(c 100%F, 1); (c 0%F, 2)] = Returned (s2, [None; None])) /\
    (exists s3 errs3,
       AddAll s0 (up ++ [(c 20%F, 2)] ++ (c 5%F, 3) :: down)
       = Returned (s3, errs3) /\
       Forall (fun err => err = None) errs3).
Proof.
  intros c up down. eexists.
  split; [reflexivity|].
  split; [reflexivity|]. split; [reflexivity|].
  split; [reflexivity|]. split; [reflexivity|].
  apply (lap_error_iff _ [] up down (c 100%F) (c 0%F) (c 150%F)
                       (c 20%F) (c 5%F) 1 2 3 2 3);
    reflexivity.
Defined.

(** 100, then 0, then 150: the third [Add] raises the lap error, and
    appends the rate all the same. *)
Example lap_100_0_150 :
  let c := fun n => {| Name := "Queries"; Type_ := "counter"; Number := n |} in
  exists s0 s,
    NewStats "counter" = inr s0 /\
    AddAll s0 [(c 100%F, 1); (c 0%F, 2); (c 150%F, 3)]
    = Returned (s, [None; None; Some (ValueLap 1 100 2 0 3 150)]) /\
    vals s = [(150 - 0) / f64_of_int 1]%F.
Proof.
  intros c. do 2 eexists. split; [reflexivity|]. split; reflexivity.
Qed.

End Counters.

(** ** Gauges: the summary *)

Section Gauges.
Import mm.

(** What [Summarize] leaves in the summary of one or more samples, read off
    the sorted sample list. *)
Lemma Summarize_fields (s : Stats) :
  recognised s -> vals s <> [] ->
  let n := Z.of_nat (length (vals s)) in
  let sorted := sort_Float64s (vals s) in
  Cnt (Summarize s) = n /\
  Min (Summarize s) = index sorted 0 /\
  Pct5 (Summarize s) = index sorted (5 * n / 100) /\
  Med (Summarize s) = index sorted (50 * n / 100) /\
  Pct95 (Summarize s) = index sorted (95 * n / 100) /\
  Max (Summarize s) = index sorted (n - 1).
Proof.
  intros Hs Hne n sorted. unfold Summarize.
  assert (Ht : String.eqb (metricType s) "gauge"
               || String.eqb (metricType s) "counter" = true).
  { destruct Hs as [H|H]; rewrite H; reflexivity. }
  rewrite Ht. fold n.
  destruct (1 <? n) eqn:Hgt; [simpl; auto 10|].
  destruct (vals s) as [|v [|w l]] eqn:Hv; [congruence| |].
  - subst n sorted. simpl. auto 10.
  - subst n. simpl length in Hgt. apply Z.ltb_ge in Hgt. lia.
Qed.

(** A slice without NaN, sorted. *)
Lemma sort_Float64s_noNaN (l : list float64) :
  noNaN l = true ->
  StronglySorted Fle (sort_Float64s l) /\
  Forall (fun v => isNaN v = false) (sort_Float64s l).
Proof.
  intros Hnan. split; [now apply sort_Float64s_ascending|].
  eapply Permutation_Forall; [symmetry; apply sort_Float64s_perm|].
  apply Forall_forall. intros v Hv. apply list_elem_of_In in Hv.
  unfold noNaN in Hnan. rewrite forallb_forall in Hnan.
  now apply negb_true_iff, Hnan.
Qed.

(** C4, as worded: 2, NaN and 1.  [sort.Float64s] puts the NaN first, so
    that [Min] and [Pct5] are NaN, which is not below or equal to
    anything, [Med] being 1. *)
Lemma gauge_NaN_unordered :
  let x := fun n => {| Name := "Threads_running"; Type_ := "gauge"; Number := n |} in
  (exists g0 g errs,
     NewStats "gauge" = inr g0 /\
     AddAll g0 [(x 2%F, 1); (x NaN, 2); (x 1%F, 3)] = Returned (g, errs) /\
     vals (Summarize g) = [NaN; 1; 2]%F /\
     Min (Summarize g) = NaN /\ Pct5 (Summarize g) = NaN /\
     Med (Summarize g) = 1%F /\
     f64_le (Min (Summarize g)) (Pct5 (Summarize g)) = false /\
     f64_le (Pct5 (Summarize g)) (Med (Summarize g)) = false) /\
  ~ gauge_summary_ordered.
Proof.
  intros x. split.
  - do 3 eexists. split; [reflexivity|]. split; [reflexivity|].
    repeat split; reflexivity.
  - intros H.
    destruct (H _ (x 2%F) 1 [(x NaN, 2); (x 1%F, 3)] eq_refl)
      as (g & errs & HA & Hord).
    vm_compute in HA. inversion HA; subst g. clear HA.
    destruct Hord as (Hmin & _). vm_compute in Hmin. discriminate.
Qed.

(** C4, amended.  After [Summarize], each of [Min], [Pct5], [Med], [Pct95]
    and [Max] of one or more gauge samples is one of the samples, and
    [Pct5], [Med] and [Pct95] are the elements at index
    [floor(p/100 * Cnt)], for [p] = 5, 50 and 95, of the samples as
    [sort.Float64s] orders them.  When none of the samples is NaN that
    order is ascending and [Min <= Pct5 <= Med <= Pct95 <= Max]. *)
Theorem gauge_summary (g0 : Stats) (m : Metric) (ts : Z)
    (samples : list (Metric * Z))
    (Hnew : NewStats "gauge" = inr g0) :
  exists g errs,
    AddAll g0 ((m, ts) :: samples) = Returned (g, errs) /\
    let inputs := values ((m, ts) :: samples) in
    let r := Summarize g in
    (In (Min r) inputs /\ In (Pct5 r) inputs /\ In (Med r) inputs /\
     In (Pct95 r) inputs /\ In (Max r) inputs) /\
    (exists sorted,
       Permutation sorted inputs /\ StronglySorted notAfter sorted /\
       (noNaN inputs = true -> StronglySorted Fle sorted) /\
       Cnt r = Z.of_nat (length inputs) /\
       Pct5 r = nth (Z.to_nat (Qfloor ((5 # 100) * inject_Z (Cnt r)))) sorted 0%F /\
       Med r = nth (Z.to_nat (Qfloor ((50 # 100) * inject_Z (Cnt r)))) sorted 0%F /\
       Pct95 r = nth (Z.to_nat (Qfloor ((95 # 100) * inject_Z (Cnt r)))) sorted 0%F) /\
    (noNaN inputs = true ->
     (Min r <= Pct5 r)%F /\ (Pct5 r <= Med r)%F /\
     (Med r <= Pct95 r)%F /\ (Pct95 r <= Max r)%F).
Proof.
  destruct (NewStats_recognised _ _ Hnew) as [_ Hg0].
  destruct (AddAll_gauge ((m, ts) :: samples) g0 Hg0)
    as (g & errs & HA & Hg & Hv & _).
  exists g, errs. split; [exact HA|]. intros inputs r.
  assert (Hvals : vals g = inputs).
  { rewrite Hv. inversion Hnew; subst g0. reflexivity. }
  assert (Hne : vals g <> []) by (rewrite Hvals; discriminate).
  destruct (Summarize_fields g (or_introl Hg) Hne)
    as (HCnt & HMin & HP5 & HMed & HP95 & HMax).
  fold r in HCnt, HMin, HP5, HMed, HP95, HMax.
  set (sorted := sort_Float64s (vals g)) in *.
  set (n := Z.of_nat (length (vals g))) in *.
  assert (Hn : 0 < n).
  { subst n. destruct (vals g); [congruence|simpl; lia]. }
  assert (Hlen : Z.of_nat (length sorted) = n).
  { subst sorted n. now rewrite sort_Float64s_length. }
  assert (Hperm : Permutation sorted inputs).
  { subst sorted. rewrite <- Hvals. apply sort_Float64s_perm. }
  pose proof (pct_index_lt 5 n ltac:(lia) Hn) as H5.
  pose proof (pct_index_lt 50 n ltac:(lia) Hn) as H50.
  pose proof (pct_index_lt 95 n ltac:(lia) Hn) as H95.
  pose proof (pct_index_mono 5 50 n ltac:(lia) ltac:(lia)) as H5_50.
  pose proof (pct_index_mono 50 95 n ltac:(lia) ltac:(lia)) as H50_95.
  assert (Hin : forall i, 0 <= i < n -> In (index sorted i) inputs).
  { intros i Hi. eapply Permutation_in; [exact Hperm|].
    apply index_In. lia. }
  split; [|split].
  - rewrite HMin, HP5, HMed, HP95, HMax.
    repeat split; apply Hin; lia.
  - exists sorted. split; [exact Hperm|].
    split; [apply sort_Float64s_sorted|].
    split; [intros Hnan; apply sort_Float64s_noNaN; now rewrite Hvals|].
    split; [now rewrite HCnt, <- Hvals|].
    rewrite HCnt, !pct_index_floor, HP5, HMed, HP95. auto.
  - intros Hnan.
    destruct (sort_Float64s_noNaN (vals g)) as [Hsorted Hclean].
    { now rewrite Hvals. }
    fold sorted in Hsorted, Hclean.
    rewrite HMin, HP5, HMed, HP95, HMax.
    repeat split; apply index_sorted_le; (exact Hsorted || exact Hclean || lia).
Qed.

Lemma gauge_summary_witness :
  let g0 := {| metricType := "gauge"; str := ""; firstVal := true;
               prevTs := 0; penuTs := 0; prevVal := 0; penuVal := 0;
               vals := []; sum := 0; Cnt := 0; Min := 0; Pct5 := 0;
               Avg := 0; Med := 0; Pct95 := 0; Max := 0 |} in
  let x := fun n => {| Name := "Threads_running"; Type_ := "gauge"; Number := n |} in
  let samples := [(x 2%F, 2); (x PosInf, 3)] in
  NewStats "gauge" = inr g0 /\
  noNaN (values ((x 9%F, 1) :: samples)) = true /\
  exists g errs,
    AddAll g0 ((x 9%F, 1) :: samples) = Returned (g, errs) /\
    let inputs := [9; 2; PosInf]%F in
    let r := Summarize g in
    (In (Min r) inputs /\ In (Pct5 r) inputs /\ In (Med r) inputs /\
     In (Pct95 r) inputs /\ In (Max r) inputs) /\
    (exists sorted,
       Permutation sorted inputs /\ StronglySorted Fle sorted /\
       Cnt r = 3 /\
       Pct5 r = nth (Z.to_nat (Qfloor ((5 # 100) * inject_Z (Cnt r)))) sorted 0%F /\
       Med r = nth (Z.to_nat (Qfloor ((50 # 100) * inject_Z (Cnt r)))) sorted 0%F /\
       Pct95 r = nth (Z.to_nat (Qfloor ((95 # 100) * inject_Z (Cnt r)))) sorted 0%F) /\
    ((Min r <= Pct5 r)%F /\ (Pct5 r <= Med r)%F /\
     (Med r <= Pct95 r)%F /\ (Pct95 r <= Max r)%F).
Proof.
  intros g0 x samples.
  split; [reflexivity|]. split; [reflexivity|].
  destruct (gauge_summary g0 (x 9%F) 1 samples eq_refl)
    as (g & errs & HA & Hin & (sorted & Hperm & _ & Hasc & Hrest) & Hord).
  exists g, errs. split; [exact HA|]. split; [exact Hin|].
  split; [|exact (Hord eq_refl)].
  exists sorted. split; [exact Hperm|]. split; [exact (Hasc eq_refl)|exact Hrest].
Defined.

(** The summary of 9, 2 and 7. *)
Example gauge_summary_9_2_7 :
  let x := fun n => {| Name := "Threads_running"; Type_ := "gauge"; Number := n |} in
  exists g0 g errs,
    NewStats "gauge" = inr g0 /\
    AddAll g0 [(x 9%F, 1); (x 2%F, 2); (x 7%F, 3)] = Returned (g, errs) /\
    summary (Summarize g)
    = (3, 2%F, 2%F, ((0 + 9 + 2 + 7) / f64_of_int 3)%F, 7%F, 9%F, 9%F).
Proof.
  intros x. do 3 eexists.
  split; [reflexivity|]. split; reflexivity.
Qed.

End Gauges.

(** ** The Aggregator: what a report holds *)

Section Reports.
Import mm.

Lemma Add_sampled (s s' : Stats) (m : Metric) (ts : Z) (err : option error) :
  recognised s -> Add s m ts = Returned (s', err) -> sampled s'.
Proof.
  intros [Hg|Hc] HA.
  - destruct (Add_gauge s m ts Hg) as (s1 & HB & Hg1 & Hv1).
    rewrite HA in HB. inversion HB; subst s1.
    split; [now left|]. split.
    + intros _. rewrite Hv1. destruct (vals s); discriminate.
    + rewrite Hg1. discriminate.
  - destruct (Add_counter s m ts Hc) as (s1 & e1 & HB & Hc1 & Hf1 & _).
    rewrite HA in HB. inversion HB; subst s1.
    split; [now right|]. split.
    + rewrite Hc1. discriminate.
    + intros _. exact Hf1.
Qed.

Lemma addMetric_sampled (ts : Z) (cur cur' : Metrics) (m : Metric) :
  map_Forall (fun _ s => sampled s) cur ->
  addMetric ts cur m = Returned cur' ->
  map_Forall (fun _ s => sampled s) cur' /\ dom cur' = {[Name m]} ∪ dom cur.
Proof.
  intros Hall. unfold addMetric.
  destruct (cur !! Name m) as [stats|] eqn:Hlook.
  - destruct (Add stats m ts) as [[stats' err]|] eqn:HA; [|discriminate].
    intros H; inversion H; subst cur'. split.
    + apply map_Forall_insert_2; [|exact Hall].
      eapply Add_sampled; [|exact HA]. now apply (Hall _ _ Hlook).
    + now rewrite dom_insert_L.
  - destruct (NewStats (Type_ m)) as [|stats] eqn:Hnew; [discriminate|].
    destruct (Add stats m ts) as [[stats' err]|] eqn:HA; [|discriminate].
    intros H; inversion H; subst cur'. split.
    + apply map_Forall_insert_2; [|exact Hall].
      eapply Add_sampled; [|exact HA]. now apply NewStats_recognised in Hnew.
    + now rewrite dom_insert_L.
Qed.

Lemma addMetrics_sampled (ts : Z) (metrics : list Metric) (cur cur' : Metrics) :
  map_Forall (fun _ s => sampled s) cur ->
  addMetrics ts cur metrics = Returned cur' ->
  map_Forall (fun _ s => sampled s) cur' /\
  dom cur' = list_to_set (map Name metrics) ∪ dom cur.
Proof.
  revert cur. induction metrics as [|m rest IH]; intros cur Hall; simpl.
  - intros H; inversion H; subst. split; [exact Hall|].
    now rewrite (left_id_L ∅ (∪)).
  - destruct (addMetric ts cur m) as [cur1|] eqn:H1; [|discriminate].
    destruct (addMetric_sampled ts cur cur1 m Hall H1) as [Hall1 Hdom1].
    intros H. destruct (IH cur1 Hall1 H) as [Hall' Hdom'].
    split; [exact Hall'|]. rewrite Hdom', Hdom1.
    rewrite (assoc_L (∪)). f_equal. apply (comm_L (∪)).
Qed.

Lemma Summarize_summarized (s : Stats) : sampled s -> summarized (Summarize s).
Proof.
  intros (Hs & Hg & _).
  assert (Ht : metricType (Summarize s) = metricType s).
  { unfold Summarize.
    destruct (String.eqb (metricType s) "gauge"
              || String.eqb (metricType s) "counter"); [|reflexivity].
    destruct (1 <? Z.of_nat (length (vals s))); [reflexivity|].
    destruct (Z.of_nat (length (vals s)) =? 1); reflexivity. }
  assert (Hl : length (vals (Summarize s)) = length (vals s)).
  { unfold Summarize.
    destruct (String.eqb (metricType s) "gauge"
              || String.eqb (metricType s) "counter"); [|reflexivity].
    destruct (1 <? Z.of_nat (length (vals s))); simpl;
      [apply sort_Float64s_length|].
    destruct (Z.of_nat (length (vals s)) =? 1); reflexivity. }
  split; [unfold recognised; now rewrite Ht|]. split.
  - now rewrite Summarize_Cnt, Hl.
  - rewrite Ht. intros H. specialize (Hg H).
    intros Hnil. rewrite Hnil in Hl. destruct (vals s); [congruence|discriminate].
Qed.

Lemma run_summarized (events : list event) (a a' : Aggregator) :
  map_Forall (fun _ s => sampled s) (cur a) ->
  Forall (fun r => map_Forall (fun _ s => summarized s) (Report_Metrics r)) (spool a) ->
  run events a = Returned a' ->
  Forall (fun r => map_Forall (fun _ s => summarized s) (Report_Metrics r)) (spool a').
Proof.
  revert a. induction events as [|[now|collection|] rest IH]; intros a Hcur Hsp; simpl.
  - intros H; inversion H; subst. exact Hsp.
  - apply IH; simpl; [apply map_Forall_empty|].
    destruct (negb (IsZero (startTs a))); [|exact Hsp].
    unfold report. apply Forall_app. split; [exact Hsp|].
    constructor; [|constructor]. simpl.
    intros name s Hlook. rewrite lookup_fmap in Hlook.
    destruct (cur a !! name) as [s1|] eqn:H1; [|discriminate].
    inversion Hlook; subst s. apply Summarize_summarized. now apply (Hcur _ _ H1).
  - destruct (addMetrics _ _ _) as [cur'|] eqn:HA; [|discriminate].
    apply IH; simpl; [|exact Hsp].
    now apply (addMetrics_sampled _ _ _ _ Hcur HA).
  - intros H; inversion H; subst. exact Hsp.
Qed.

(** C1, as worded: a window in which a counter was seen once, beside a
    gauge, is reported with the counter's empty summary in it. *)
Lemma empty_summary_reported :
  let q := {| Name := "Queries"; Type_ := "counter"; Number := 5 |} in
  let t := {| Name := "Threads_running"; Type_ := "gauge"; Number := 3 |} in
  (exists a r s,
     run [Tick 60; Collect {| StartTs := 61; Collection_Metrics := [q; t] |};
          Tick 120] (NewAggregator []) = Returned a /\
     In r (spool a) /\ Report_Metrics r !! "Queries" = Some s /\ Cnt s = 0) /\
  ~ no_empty_summary_reported.
Proof.
  intros q t.
  assert (H : exists a r s,
     run [Tick 60; Collect {| StartTs := 61; Collection_Metrics := [q; t] |};
          Tick 120] (NewAggregator []) = Returned a /\
     In r (spool a) /\ Report_Metrics r !! "Queries" = Some s /\ Cnt s = 0).
  { do 3 eexists. split; [reflexivity|]. split; [left; reflexivity|].
    split; [vm_compute; reflexivity|reflexivity]. }
  split; [exact H|].
  destruct H as (a & r & s & Hrun & Hin & Hlook & Hcnt).
  intros Hclaim. now apply (Hclaim _ a r "Queries" s Hrun Hin Hlook).
Qed.

End Reports.

(** ** The Aggregator: one report a window *)

Section Windows.
Import mm.

Lemma addMetric_returns (ts : Z) (cur : Metrics) (m : Metric) :
  map_Forall (fun _ s => sampled s) cur -> MetricTypes (Type_ m) = true ->
  exists cur', addMetric ts cur m = Returned cur'.
Proof.
  intros Hall Ht. unfold addMetric.
  destruct (cur !! Name m) as [stats|] eqn:Hlook.
  - destruct (Add_returns stats m ts) as (s' & err & HA & _).
    { now apply (Hall _ _ Hlook). }
    rewrite HA. eauto.
  - unfold NewStats. rewrite Ht. simpl.
    match goal with |- context [Add ?s0 m ts] =>
      destruct (Add_returns s0 m ts) as (s' & err & HA & _)
    end.
    { unfold recognised, MetricTypes in *. simpl.
      apply orb_prop in Ht as [H|H]; apply String.eqb_eq in H; auto. }
    rewrite HA. eauto.
Qed.

Lemma addMetrics_returns (ts : Z) (metrics : list Metric) (cur : Metrics) :
  map_Forall (fun _ s => sampled s) cur ->
  forallb (fun m => MetricTypes (Type_ m)) metrics = true ->
  exists cur', addMetrics ts cur metrics = Returned cur'.
Proof.
  revert cur. induction metrics as [|m rest IH]; intros cur Hall Ht; simpl.
  - eauto.
  - simpl in Ht. apply andb_prop in Ht as [Hm Hrest].
    destruct (addMetric_returns ts cur m Hall Hm) as (cur1 & H1). rewrite H1.
    apply IH; [|exact Hrest].
    now apply (addMetric_sampled ts cur cur1 m Hall H1).
Qed.

Lemma accumulate_snoc (collections : list Collection) (c : Collection)
    (cur : Metrics) :
  accumulate cur (collections ++ [c]) =
  match accumulate cur collections with
  | Returned cur' => addMetrics (StartTs c) cur' (Collection_Metrics c)
  | Panicked msg => Panicked msg
  end.
Proof.
  revert cur. induction collections as [|c1 rest IH]; intros cur; simpl.
  - destruct (addMetrics _ _ _); reflexivity.
  - destruct (addMetrics _ cur _) as [cur1|]; [apply IH|reflexivity].
Qed.

Lemma metricNames_snoc (collections : list Collection) (c : Collection) :
  metricNames (collections ++ [c]) =
  list_to_set (map Name (Collection_Metrics c)) ∪ metricNames collections.
Proof.
  unfold metricNames. rewrite flat_map_app, list_to_set_app_L. simpl.
  rewrite app_nil_r. apply (comm_L (∪)).
Qed.

Lemma run_windows (events : list event) (a : Aggregator) (start : option Time)
    (since : list Collection) :
  map_Forall (fun _ s => sampled s) (cur a) ->
  tracks a start since ->
  ticksNonZero events = true -> wellTyped events = true ->
  exists a' new,
    run events a = Returned a' /\ spool a' = spool a ++ new /\
    Forall2 (fun r w => reportOf r w /\ dom (Report_Metrics r) = metricNames (snd w))
            new (closedWindows start since events).
Proof.
  revert a start since.
  induction events as [|[now|c|] rest IH]; intros a start since Hall Htr Hticks Htypes.
  - exists a, []. simpl. rewrite app_nil_r. auto.
  - unfold ticksNonZero in Hticks. simpl in Hticks, Htypes.
    apply andb_prop in Hticks as [Hnow Hticks]. apply negb_true_iff in Hnow.
    simpl run.
    match goal with |- context [run rest ?a1] =>
      destruct (IH a1 (Some now) []) as (a' & new & Hrun & Hsp & Hrep)
    end.
    { apply map_Forall_empty. }
    { simpl. repeat split; auto. }
    { exact Hticks. }
    { exact Htypes. }
    rewrite Hrun. simpl in Hsp.
    destruct start as [t|]; simpl in Htr.
    + destruct Htr as (Hst & Hnz & Hacc & Hdom).
      rewrite Hst, Hnz in Hsp. simpl in Hsp. unfold report in Hsp.
      rewrite <- app_assoc in Hsp.
      eexists a', (_ :: new). split; [reflexivity|]. split; [exact Hsp|].
      simpl. constructor; [|exact Hrep]. split.
      * split; [reflexivity|]. exists (cur a). auto.
      * simpl. now rewrite dom_fmap_L.
    + rewrite Htr in Hsp. simpl in Hsp.
      exists a', new. auto.
  - simpl in Htypes. apply andb_prop in Htypes as [Hc Htypes].
    destruct (addMetrics_returns (StartTs c) (Collection_Metrics c) (cur a) Hall Hc)
      as (cur' & HA).
    destruct (addMetrics_sampled _ _ _ _ Hall HA) as [Hall' Hdom'].
    simpl run. rewrite HA.
    match goal with |- context [run rest ?a1] =>
      destruct (IH a1 start (since ++ [c])) as (a' & new & Hrun & Hsp & Hrep)
    end.
    { exact Hall'. }
    { destruct start as [t|]; simpl in *; [|exact Htr].
      destruct Htr as (Hst & Hnz & Hacc & Hdom).
      repeat split; auto.
      - now rewrite accumulate_snoc, Hacc.
      - now rewrite Hdom', metricNames_snoc, Hdom. }
    { exact Hticks. }
    { exact Htypes. }
    exists a', new. auto.
  - exists a, []. simpl. rewrite app_nil_r. auto.
Qed.

(** The scenario of the spec: a tick opens a window, a gauge of 10 arrives,
    the next tick reports it, and what arrives after belongs to the window
    that is now open. *)
Example aggregator_scenario :
  let x := fun n => {| Name := "x"; Type_ := "gauge"; Number := n |} in
  exists a r s next,
    run [Tick 1000; Collect {| StartTs := 1005; Collection_Metrics := [x 10%F] |};
         Tick 1060; Collect {| StartTs := 1065; Collection_Metrics := [x 3%F] |}]
        (NewAggregator []) = Returned a /\
    spool a = [r] /\ Ts r = 1000 /\
    Report_Metrics r !! "x" = Some s /\
    summary s = (1, 10%F, 10%F, 10%F, 10%F, 10%F, 10%F) /\
    startTs a = 1060 /\ cur a !! "x" = Some next /\ vals next = [3%F].
Proof.
  intros x. do 4 eexists.
  split; [reflexivity|]. split; [reflexivity|]. split; [reflexivity|].
  split; [vm_compute; reflexivity|]. split; [reflexivity|].
  split; [reflexivity|]. split; [vm_compute; reflexivity|reflexivity].
Qed.

(** C6, as worded: a first tick that carries the zero time leaves the
    window unopened, and the second tick reports nothing. *)
Lemma zero_tick_opens_no_window :
  let x := {| Name := "Threads_running"; Type_ := "gauge"; Number := 10 |} in
  let c := {| StartTs := 5; Collection_Metrics := [x] |} in
  (exists a,
     run [Tick 0; Collect c; Tick 60] (NewAggregator []) = Returned a /\
     spool a = [] /\
     closedWindows None [] [Tick 0; Collect c; Tick 60] = [(0, [c])]) /\
  ~ every_tick_reports.
Proof.
  intros x c. split.
  - eexists. split; [reflexivity|]. split; reflexivity.
  - intros H.
    specialize (H [Tick 0; Collect c; Tick 60] _ eq_refl).
    simpl in H. inversion H.
Qed.

(** C6, amended.  For every trace whose ticks carry a time other than the
    zero time (and whose metrics are gauges or counters, so that the loop
    does not panic), the run loop takes the whole trace and the reports it
    has written are, in order, those of the windows the trace closes: none
    holds a metric received before the first tick; each tick after the
    first writes exactly one report, stamped with the tick before it and
    holding exactly the metrics of the collections received since; and
    from the stop signal on nothing is written, the open window included. *)
Theorem run_reports_closed_windows (events : list event)
    (Hticks : ticksNonZero events = true)
    (Htypes : wellTyped events = true) :
  exists a,
    run events (NewAggregator []) = Returned a /\
    Forall2 (fun r w => reportOf r w /\
                        dom (Report_Metrics r) = metricNames (snd w))
            (spool a) (closedWindows None [] events).
Proof.
  destruct (run_windows events (NewAggregator []) None [])
    as (a & new & Hrun & Hsp & Hrep); auto.
  { apply map_Forall_empty. }
  { reflexivity. }
  exists a. split; [exact Hrun|]. simpl in Hsp. now rewrite Hsp.
Qed.

Lemma run_reports_closed_windows_witness :
  let x := fun n => {| Name := "Threads_running"; Type_ := "gauge"; Number := n |} in
  let early := {| StartTs := 1; Collection_Metrics := [x 99%F] |} in
  let c := {| StartTs := 65; Collection_Metrics := [x 10%F] |} in
  let late := {| StartTs := 125; Collection_Metrics := [x 7%F] |} in
  let events := [Collect early; Tick 60; Collect c; Tick 120; Collect late;
                 StopSignal; Tick 180] in
  ticksNonZero events = true /\
  wellTyped events = true /\
  closedWindows None [] events = [(60, [c])] /\
  exists a,
    run events (NewAggregator []) = Returned a /\
    Forall2 (fun r w => reportOf r w /\
                        dom (Report_Metrics r) = metricNames (snd w))
            (spool a) (closedWindows None [] events).
Proof.
  intros x early c late events.
  split; [reflexivity|]. split; [reflexivity|]. split; [reflexivity|].
  apply (run_reports_closed_windows events); reflexivity.
Defined.

End Windows.

(** ** The Aggregator: the entries of a report *)

Section ReportEntries.
Import mm.

Lemma named_app (name : string) (l1 l2 : list (Metric * Z)) :
  named name (l1 ++ l2) = named name l1 ++ named name l2.
Proof. unfold named. apply List.filter_app. Qed.

Lemma entryOf_nil (before : option Stats) : entryOf before [] before.
Proof. destruct before as [s|]; simpl; [|reflexivity]. now exists s, []. Qed.

Lemma entryOf_Some (s : Stats) (l : list (Metric * Z)) (c : option Stats) :
  entryOf (Some s) l c
  = (exists s' errs, AddAll s l = Returned (s', errs) /\ c = Some s').
Proof. reflexivity. Qed.

Lemma entryOf_None_cons (m : Metric) (ts : Z) (l : list (Metric * Z))
    (c : option Stats) :
  entryOf None ((m, ts) :: l) c
  = (exists s0 s' errs,
       NewStats (Type_ m) = inr s0 /\
       AddAll s0 ((m, ts) :: l) = Returned (s', errs) /\ c = Some s').
Proof. reflexivity. Qed.

Lemma entryOf_app (a b c : option Stats) (l1 l2 : list (Metric * Z)) :
  entryOf a l1 b -> entryOf b l2 c -> entryOf a (l1 ++ l2) c.
Proof.
  destruct a as [s|]; [|destruct l1 as [|[m ts] l1]].
  - rewrite !entryOf_Some. intros (s1 & e1 & H1 & ->).
    rewrite entryOf_Some. intros (s2 & e2 & H2 & ->).
    exists s2, (e1 ++ e2). split; [|reflexivity].
    now rewrite AddAll_app, H1, H2.
  - simpl. now intros ->.
  - change (((m, ts) :: l1) ++ l2) with ((m, ts) :: (l1 ++ l2)).
    rewrite !entryOf_None_cons. intros (s0 & s1 & e1 & Hnew & H1 & ->).
    rewrite entryOf_Some. intros (s2 & e2 & H2 & ->).
    exists s0, s2, (e1 ++ e2). split; [exact Hnew|]. split; [|reflexivity].
    change ((m, ts) :: l1 ++ l2) with (((m, ts) :: l1) ++ l2).
    now rewrite AddAll_app, H1, H2.
Qed.

Lemma addMetric_entry (ts : Z) (cur cur' : Metrics) (m : Metric) (name : string) :
  addMetric ts cur m = Returned cur' ->
  entryOf (cur !! name) (named name [(m, ts)]) (cur' !! name).
Proof.
  unfold addMetric, named. simpl.
  destruct (String.eqb_spec (Name m) name) as [<-|Hne].
  - destruct (cur !! Name m) as [stats|] eqn:Hlook.
    + destruct (Add stats m ts) as [[stats' err]|] eqn:HA; [|discriminate].
      intros [= <-]. rewrite lookup_insert_eq. simpl.
      exists stats', [err]. now rewrite HA.
    + destruct (NewStats (Type_ m)) as [|stats] eqn:Hnew; [discriminate|].
      destruct (Add stats m ts) as [[stats' err]|] eqn:HA; [|discriminate].
      intros [= <-]. rewrite lookup_insert_eq. simpl.
      exists stats, stats', [err]. now rewrite HA.
  - intros H.
    assert (Hsame : cur' !! name = cur !! name).
    { destruct (cur !! Name m) as [stats|].
      - destruct (Add stats m ts) as [[stats' err]|]; [|discriminate].
        injection H as <-. now apply lookup_insert_ne.
      - destruct (NewStats (Type_ m)) as [|stats]; [discriminate|].
        destruct (Add stats m ts) as [[stats' err]|]; [|discriminate].
        injection H as <-. now apply lookup_insert_ne. }
    rewrite Hsame. apply entryOf_nil.
Qed.

Lemma addMetrics_entry (ts : Z) (metrics : list Metric) (name : string) :
  forall cur cur',
    addMetrics ts cur metrics = Returned cur' ->
    entryOf (cur !! name) (named name (map (fun m => (m, ts)) metrics))
            (cur' !! name).
Proof.
  induction metrics as [|m rest IH]; intros cur cur' H; simpl in H.
  - injection H as <-. apply entryOf_nil.
  - destruct (addMetric ts cur m) as [cur1|] eqn:H1; [|discriminate].
    change (map (fun m => (m, ts)) (m :: rest))
      with ([(m, ts)] ++ map (fun m => (m, ts)) rest).
    rewrite named_app. eapply entryOf_app.
    + apply addMetric_entry. exact H1.
    + apply IH. exact H.
Qed.

Lemma accumulate_entry (collections : list Collection) (name : string) :
  forall cur cur',
    accumulate cur collections = Returned cur' ->
    entryOf (cur !! name) (named name (windowSamples collections))
            (cur' !! name).
Proof.
  induction collections as [|c rest IH]; intros cur cur' H; simpl in H.
  - injection H as <-. apply entryOf_nil.
  - destruct (addMetrics (StartTs c) cur (Collection_Metrics c))
      as [cur1|] eqn:H1; [|discriminate].
    change (windowSamples (c :: rest))
      with (map (fun m => (m, StartTs c)) (Collection_Metrics c)
            ++ windowSamples rest).
    rewrite named_app. eapply entryOf_app.
    + apply addMetrics_entry. exact H1.
    + apply IH. exact H.
Qed.

Lemma reportOf_holds (r : Report) (w : Time * list Collection) :
  reportOf r w -> holdsWindow r w.
Proof.
  intros (Hts & metrics & Hacc & Hrep). split; [exact Hts|]. intros name.
  pose proof (accumulate_entry (snd w) name ∅ metrics Hacc) as He.
  rewrite lookup_empty in He. rewrite Hrep, lookup_fmap.
  destruct (named name (windowSamples (snd w))) as [|[m ts] rest]; simpl in He.
  - now rewrite He.
  - destruct He as (s0 & s & errs & Hnew & HA & ->).
    exists s0, s, errs. split; [exact Hnew|]. split; [exact HA|].
    split; [reflexivity|]. intros -> Hc. rewrite Hc in Hnew.
    destruct (Add_first s0 m ts Hnew) as (s1 & H1 & Hc1 & _ & Hv1 & _).
    simpl in HA. rewrite H1 in HA. injection HA as <- _.
    rewrite Summarize_Cnt by (right; exact Hc1). now rewrite Hv1.
Qed.

(** C1, amended.  In every report the Aggregator writes, the [Cnt] of an
    entry is the number of values its [Stats] holds.  It is at least 1 for
    a gauge.  It is 0 exactly when [Finalize] would return nil, which
    happens to counters only (a counter without a rate).  Such an entry is
    written to the report like any other: under ticks other than the zero
    time and recognised types the loop returns, and each report it wrote
    holds, for its window, an entry for every name that had a sample and
    for no other name; the entry is the summary of the [Stats] that
    [NewStats] made for the type of the first sample and [Add] fed the
    samples of that name in order; and a counter with its one sample is
    there with [Cnt] 0. *)
Theorem report_Cnt (events : list event) :
  (forall a r name s,
     run events (NewAggregator []) = Returned a ->
     In r (spool a) -> Report_Metrics r !! name = Some s ->
     Cnt s = Z.of_nat (length (vals s)) /\
     (metricType s = "gauge" -> 1 <= Cnt s) /\
     (Cnt s = 0 <-> snd (Finalize s) = None) /\
     (Cnt s = 0 -> metricType s = "counter")) /\
  (ticksNonZero events = true -> wellTyped events = true ->
   exists a,
     run events (NewAggregator []) = Returned a /\
     Forall2 holdsWindow (spool a) (closedWindows None [] events)).
Proof.
  split.
  - intros a r name s Hrun Hin Hlook.
    assert (Hall : Forall (fun r => map_Forall (fun _ s => summarized s)
                                              (Report_Metrics r)) (spool a)).
    { eapply run_summarized; [| |exact Hrun]; simpl;
        [apply map_Forall_empty|constructor]. }
    rewrite Forall_forall in Hall.
    apply list_elem_of_In in Hin.
    destruct (Hall r Hin name s Hlook) as (Hs & HCnt & Hg).
    assert (Hgauge : metricType s = "gauge" -> 1 <= Cnt s).
    { intros H. specialize (Hg H). rewrite HCnt.
      destruct (vals s); [congruence|simpl; lia]. }
    split; [exact HCnt|]. split; [exact Hgauge|]. split.
    + rewrite Finalize_None, HCnt. destruct (vals s); simpl; split;
        (reflexivity || discriminate || lia).
    + intros H0. destruct Hs as [H|H]; [|exact H].
      specialize (Hgauge H). lia.
  - intros Hticks Htypes.
    destruct (run_windows events (NewAggregator []) None [])
      as (a & new & Hrun & Hsp & Hrep); auto.
    { apply map_Forall_empty. }
    { reflexivity. }
    exists a. split; [exact Hrun|]. simpl in Hsp. rewrite Hsp.
    eapply Forall2_impl; [exact Hrep|].
    intros r w [Hr _]. now apply reportOf_holds.
Qed.

(** A counter seen once beside a gauge seen twice: both are in the report,
    the counter with [Cnt] 0. *)
Lemma report_Cnt_witness :
  let q := {| Name := "Queries"; Type_ := "counter"; Number := 5 |} in
  let t := fun n => {| Name := "Threads_running"; Type_ := "gauge"; Number := n |} in
  let c := {| StartTs := 61; Collection_Metrics := [q; t 3%F] |} in
  let c' := {| StartTs := 62; Collection_Metrics := [t 4%F] |} in
  let events := [Tick 60; Collect c; Collect c'; Tick 120] in
  exists a r sq st,
    run events (NewAggregator []) = Returned a /\
    ticksNonZero events = true /\ wellTyped events = true /\
    closedWindows None [] events = [(60, [c; c'])] /\
    spool a = [r] /\ holdsWindow r (60, [c; c']) /\
    Report_Metrics r !! "Queries" = Some sq /\
    Cnt sq = 0 /\ snd (Finalize sq) = None /\ metricType sq = "counter" /\
    Report_Metrics r !! "Threads_running" = Some st /\
    Cnt st = 2 /\ Cnt st = Z.of_nat (length (vals st)) /\
    Report_Metrics r !! "Uptime" = None.
Proof.
  intros q t c c' events.
  destruct (report_Cnt events) as [Hentries Hwindows].
  destruct (Hwindows eq_refl eq_refl) as (a & Hrun & Hw).
  assert (Hsp : exists r, spool a = [r]).
  { vm_compute in Hrun. injection Hrun as <-. now eexists. }
  destruct Hsp as [r Hsp]. rewrite Hsp in Hw.
  change (closedWindows None [] events) with [(60, [c; c'])] in Hw.
  apply Forall2_cons_1 in Hw as [Hr _].
  destruct Hr as [Hts Hnames].
  pose proof (Hnames "Queries") as Hq. simpl in Hq.
  destruct Hq as (s0 & s & errs & _ & _ & Hlq & Hzero).
  pose proof (Hnames "Threads_running") as Ht. simpl in Ht.
  destruct Ht as (g0 & g & errs' & Hnew & HA & Hlt & _).
  pose proof (Hnames "Uptime") as Hu. simpl in Hu.
  assert (Hin : In r (spool a)) by (rewrite Hsp; now left).
  destruct (Hentries a r "Queries" _ Hrun Hin Hlq) as (_ & _ & Hfin & Hcounter).
  destruct (Hentries a r "Threads_running" _ Hrun Hin Hlt) as (Hlen & _).
  exists a, r, (Summarize s), (Summarize g).
  split; [exact Hrun|]. split; [reflexivity|]. split; [reflexivity|].
  split; [reflexivity|]. split; [exact Hsp|].
  split; [split; [exact Hts|exact Hnames]|].
  split; [exact Hlq|]. split; [now apply Hzero|].
  split; [apply Hfin; now apply Hzero|].
  split; [apply Hcounter; now apply Hzero|].
  split; [exact Hlt|]. split; [|split; [exact Hlen|exact Hu]].
  injection Hnew as <-. vm_compute in HA. injection HA as <- _. reflexivity.
Defined.

End ReportEntries.

(** ** The Sender: acknowledged units *)

Section Acknowledged.
Import data.

Variable sc : Script.

(** One unit, read, sent and acknowledged. *)
Lemma sendFile_acked (s : Sender) (file : string) (r : string + string)
    (resp : Response) :
  elapsed sc (looks s) <= timeout s -> blackhole s = false ->
  spool s !! file = Some r -> sendable r = true ->
  sendBytes sc (sends s) = None -> recv sc (recvs s) = inr resp ->
  answers resp = true ->
  exists s',
    sendFile sc file s
    = (if 500 <=? Code resp then Return None else NextFile, s') /\
    spool s' = (if 500 <=? Code resp then spool s else delete file (spool s)) /\
    sent s' = sent s + (if 500 <=? Code resp then 0 else 1) /\
    bad s' = bad s + (if 500 <=? Code resp then 0
                      else if 400 <=? Code resp then 1 else 0) /\
    apiErr s' = (apiErr s || (500 <=? Code resp)) /\
    sameCycle s s' /\
    recvs s' = S (recvs s) /\ looks s' = S (looks s).
Proof.
  intros Ht Hb Hs Hr Hsend Hrecv Hans.
  destruct r as [err|data]; [discriminate|]. simpl in Hr.
  apply negb_true_iff in Hr.
  unfold sendFile, mbind, M_bind, runTime, get, spoolRead. simpl.
  apply Z.ltb_ge in Ht. rewrite Ht. simpl.
  rewrite Hs. simpl. rewrite Hb, Hr. simpl. rewrite Hsend. simpl.
  rewrite Hrecv. simpl.
  unfold answers in Hans. apply andb_prop in Hans as [H200 Hans].
  unfold sameCycle.
  destruct (500 <=? Code resp) eqn:H500; simpl.
  - eexists. split; [reflexivity|]. simpl. rewrite orb_true_r, !Z.add_0_r.
    auto 15.
  - destruct (400 <=? Code resp) eqn:H400; simpl.
    + eexists. split; [reflexivity|]. simpl. rewrite orb_false_r. auto 15.
    + rewrite orb_false_r in Hans.
      assert (H300 : (300 <=? Code resp) = false).
      { apply Z.leb_gt. now apply Z.ltb_lt in Hans. }
      rewrite H300, H200. simpl.
      eexists. split; [reflexivity|]. simpl. rewrite orb_false_r, Z.add_0_r.
      auto 15.
Qed.

(** The units in the order listed, each acknowledged by the next answer. *)
Lemma sendFiles_acked (units : list (string * (string + string))) :
  forall (acks : list Response) (s : Sender),
    NoDup units.*1 ->
    (forall f r, (f, r) ∈ units -> spool s !! f = Some r /\ sendable r = true) ->
    (forall k, elapsed sc k <= timeout s) -> blackhole s = false ->
    (forall k, sendBytes sc k = None) ->
    length acks = length units ->
    (forall k resp, acks !! k = Some resp ->
                    recv sc (recvs s + k) = inr resp) ->
    forallb answers acks = true ->
    exists s',
      sendFiles sc units.*1 s = (None, s') /\
      spool s' = removeAll (take (delivered acks) units.*1) (spool s) /\
      sent s' = sent s + Z.of_nat (delivered acks) /\
      bad s' = bad s + rejected (take (delivered acks) acks) /\
      apiErr s' = (apiErr s || negb (delivered acks =? length acks)%nat) /\
      sameCycle s s'.
Proof.
  induction units as [|[f r] units IH];
    intros acks s Hnd Hunits Hclock Hb Hsend Hlen Hacks Hans.
  - destruct acks; [|discriminate]. exists s. simpl.
    rewrite orb_false_r, !Z.add_0_r. unfold sameCycle. auto 15.
  - destruct acks as [|resp acks]; [discriminate|].
    simpl in Hans. apply andb_prop in Hans as [Hresp Hans].
    simpl in Hnd. apply NoDup_cons in Hnd as [Hf Hnd].
    destruct (Hunits f r) as [Hlook Hr]; [left|].
    destruct (sendFile_acked s f r resp (Hclock _) Hb Hlook Hr (Hsend _))
      as (s1 & H1 & Hsp1 & Hsent1 & Hbad1 & Hapi1 & Hsame1 & Hrecvs1 & _).
    { rewrite <- (Hacks O resp eq_refl). f_equal. lia. }
    { exact Hresp. }
    simpl sendFiles. unfold mbind, M_bind. rewrite H1.
    simpl delivered. simpl length.
    destruct (500 <=? Code resp) eqn:H500.
    + exists s1. simpl. unfold removeAll. simpl.
      rewrite Hsp1, Hsent1, Hbad1, Hapi1, orb_true_r. auto 10.
    + destruct Hsame1 as (Hto & Hbh & Herrs & Hte & Hcs & Hcd).
      destruct (IH acks s1 Hnd) as (s2 & H2 & Hsp2 & Hsent2 & Hbad2 & Hapi2 & Hsame2).
      { intros f' r' Hin. destruct (Hunits f' r') as [Hl' Hr']; [now right|].
        split; [|exact Hr']. rewrite Hsp1, lookup_delete_ne; [exact Hl'|].
        intros ->. apply Hf. apply list_elem_of_fmap. now exists (f', r'). }
      { intros k. rewrite Hto. apply Hclock. }
      { now rewrite Hbh. }
      { exact Hsend. }
      { simpl in Hlen. lia. }
      { intros k resp' Hk. rewrite Hrecvs1.
        replace (S (recvs s) + k)%nat with (recvs s + S k)%nat by lia.
        now apply Hacks. }
      { exact Hans. }
      exists s2. split; [exact H2|].
      split; [rewrite Hsp2, Hsp1; reflexivity|].
      split; [rewrite Hsent2, Hsent1; lia|].
      split; [rewrite Hbad2, Hbad1; simpl; lia|].
      split; [rewrite Hapi2, Hapi1, orb_false_r; reflexivity|].
      unfold sameCycle in *. destruct Hsame2 as (? & ? & ? & ? & ? & ?).
      repeat split; congruence.
Qed.

Lemma removeAll_size (files : list string) (m : gmap string (string + string)) :
  NoDup files -> (forall f, f ∈ files -> is_Some (m !! f)) ->
  size (removeAll files m) = (size m - length files)%nat.
Proof.
  revert m. induction files as [|f files IH]; intros m Hnd Hin; simpl.
  - unfold removeAll. simpl. lia.
  - apply NoDup_cons in Hnd as [Hf Hnd].
    destruct (Hin f) as [r Hr]; [left|].
    unfold removeAll. simpl. fold (removeAll files (delete f m)).
    rewrite IH; [|exact Hnd|].
    + rewrite (map_size_delete_Some f m) by eauto. lia.
    + intros f' Hf'. rewrite lookup_delete_ne; [apply Hin; now right|].
      intros ->. contradiction.
Qed.

(** No turn of [sendAllFiles] touches the error count. *)
Lemma sendFile_errs (file : string) (s : Sender) :
  errs (snd (sendFile sc file s)) = errs s.
Proof.
  unfold sendFile, mbind, M_bind, runTime, get, spoolRead. simpl.
  destruct (timeout s <? elapsed sc (looks s)); simpl; [reflexivity|].
  destruct (spool s !! file) as [[err|data]|]; simpl; try reflexivity.
  destruct (blackhole s); simpl; [reflexivity|].
  destruct (Z.of_nat (String.length data) =? 0); simpl; [reflexivity|].
  destruct (sendBytes sc (sends s)); simpl; [reflexivity|].
  destruct (recv sc (recvs s)) as [err|resp]; simpl; [reflexivity|].
  destruct (500 <=? Code resp); simpl; [reflexivity|].
  destruct (400 <=? Code resp); simpl; [reflexivity|].
  destruct (300 <=? Code resp); simpl; [reflexivity|].
  destruct (200 <=? Code resp); reflexivity.
Qed.

Lemma sendFiles_errs (files : list string) (s : Sender) :
  errs (snd (sendFiles sc files s)) = errs s.
Proof.
  revert s. induction files as [|file rest IH]; intros s; [reflexivity|].
  simpl. unfold mbind, M_bind.
  pose proof (sendFile_errs file s) as H.
  destruct (sendFile sc file s) as [[|err] s1]; simpl in *.
  - now rewrite IH.
  - exact H.
Qed.

Lemma sendTurn_again (again again' : M unit) (s : Sender) :
  (forall s', errs s' = errs s + 1 -> again s' = again' s') ->
  sendTurn sc again s = sendTurn sc again' s.
Proof.
  intros Hsame.
  unfold sendTurn, mbind, M_bind, runTime, get, clientConnectOnce, sendAllFiles,
    spoolFiles, mbind, M_bind, get. simpl.
  destruct (timeout s <? elapsed sc (looks s)); simpl; [reflexivity|].
  destruct (connectOnce sc (connects s)); simpl.
  - now apply Hsame.
  - match goal with |- context [sendFiles sc ?fl ?st] =>
      pose proof (sendFiles_errs fl st) as H;
      destruct (sendFiles sc fl st) as [[err|] s1]
    end; simpl in *; [|reflexivity].
    apply Hsame. simpl. now rewrite H.
Qed.

(** [sendLoop] is never stopped by [tries]: from [MAX_SEND_ERRORS - errs]
    on, one more makes no difference. *)
Lemma sendLoop_tries (tries : nat) (s : Sender) :
  MAX_SEND_ERRORS - errs s <= Z.of_nat tries ->
  sendLoop sc (S tries) s = sendLoop sc tries s.
Proof.
  revert s. induction tries as [|tries IH]; intros s Hle.
  - unfold sendLoop, mbind, M_bind, get. simpl.
    assert (H : (errs s <? MAX_SEND_ERRORS) = false).
    { apply Z.ltb_ge. simpl in Hle. lia. }
    rewrite H, andb_false_r. reflexivity.
  - change (sendLoop sc (S (S tries)) s)
      with ((if negb (apiErr s) && (errs s <? MAX_SEND_ERRORS) && negb (timeoutErr s)
             then sendTurn sc (sendLoop sc (S tries)) else ret tt) s).
    change (sendLoop sc (S tries) s)
      with ((if negb (apiErr s) && (errs s <? MAX_SEND_ERRORS) && negb (timeoutErr s)
             then sendTurn sc (sendLoop sc tries) else ret tt) s).
    destruct (negb (apiErr s) && (errs s <? MAX_SEND_ERRORS) && negb (timeoutErr s));
      [|reflexivity].
    apply sendTurn_again. intros s' Hs'. apply IH. lia.
Qed.

(** C5.  One [send] over a spool of readable, non-empty units, within the
    time budget, to a client that connects, sends, and acknowledges unit
    after unit with a code: the units acknowledged before the first code of
    500 or above are removed, and counted as sent, those with a code of 400
    or above as bad too; at a code of 500 or above the API-error flag is
    set, the unit is kept and so is every unit after it, the cycle being
    over; no error is counted, and the status left behind says so. *)
Theorem send_acknowledged (s : Sender) (acks : list Response)
    (Hblack : blackhole s = false)
    (Hclock : forall k, elapsed sc k <= timeout s)
    (Hconn : connectOnce sc (connects s) = None)
    (Hsend : forall k, sendBytes sc k = None)
    (Hunits : forallb sendable (map_to_list (spool s)).*2 = true)
    (Hlen : length acks = size (spool s))
    (Hacks : forall k resp, acks !! k = Some resp ->
                            recv sc (recvs s + k) = inr resp)
    (Hcodes : forallb answers acks = true) :
  let files := (map_to_list (spool s)).*1 in
  let n := delivered acks in
  let s' := snd (send sc s) in
  spool s' = removeAll (take n files) (spool s) /\
  size (spool s') = (size (spool s) - n)%nat /\
  sent s' = Z.of_nat n /\
  bad s' = rejected (take n acks) /\
  apiErr s' = negb (n =? length acks)%nat /\
  errs s' = 0 /\ timeoutErr s' = false /\
  status s' =
    IdleSent {| info_sent := Z.of_nat n;
                info_sentTime := sentTime s';
                info_sentBytes := sentBytes s';
                info_detail :=
                  if (0 <? bad s') || apiErr s'
                  then Some (bad s', 0, apiErr s', false)
                  else None |}.
Proof.
  intros files n s'.
  assert (Hnd : NoDup files) by apply NoDup_fst_map_to_list.
  assert (Hin : forall f r, (f, r) ∈ map_to_list (spool s) ->
                            spool s !! f = Some r /\ sendable r = true).
  { intros f r Hfr. split; [now apply elem_of_map_to_list|].
    rewrite forallb_forall in Hunits. apply Hunits.
    apply list_elem_of_In, list_elem_of_fmap. now exists (f, r). }
  subst s'. unfold send, mbind, M_bind.
  change (Z.to_nat MAX_SEND_ERRORS) with 3%nat.
  unfold sendLoop, sendTurn, mbind, M_bind, get, runTime, clientConnectOnce,
    sendAllFiles,
    spoolFiles, mbind, M_bind, get.
  simpl. specialize (Hclock (looks s)) as Hnow. apply Z.ltb_ge in Hnow.
  rewrite Hnow. simpl. rewrite Hconn. simpl.
  match goal with |- context [sendFiles sc _ ?st] =>
    destruct (sendFiles_acked (map_to_list (spool s)) acks st)
      as (s1 & H1 & Hsp & Hsent & Hbad & Hapi & Hsame)
  end; simpl; auto.
  { now rewrite length_map_to_list. }
  fold files. fold files in H1. rewrite H1. simpl.
  destruct Hsame as (_ & _ & Herrs & Hte & _). simpl in *.
  fold n in Hsp, Hsent, Hbad, Hapi. rewrite Z.add_0_l in Hsent, Hbad.
  rewrite Hsp, Hsent, Hbad, Hapi, Herrs, Hte. simpl. rewrite orb_false_r.
  split; [reflexivity|]. split.
  - rewrite removeAll_size.
    + rewrite length_take. subst files. rewrite length_fmap, length_map_to_list.
      assert (n <= length acks)%nat; [|lia].
      subst n. clear. induction acks as [|r l IH]; simpl; [lia|].
      destruct (500 <=? Code r); simpl; lia.
    + eapply sublist_NoDup; [exact Hnd|apply sublist_take].
    + intros f Hf. apply subseteq_take in Hf. subst files.
      apply list_elem_of_fmap in Hf as ([f' r] & -> & Hfr).
      exists r. now apply elem_of_map_to_list.
  - repeat split; reflexivity.
Qed.

End Acknowledged.

Section Scenario.
Import data.

(** Three units, acknowledged 204, 204 and 503 in this order: two are
    removed, one remains, and the status tells of an API error and of no
    other. *)
Lemma send_acknowledged_witness :
  let ack := fun code => {| Code := code; Error := "" |} in
  let acks := [ack 204; ack 204; ack 503] in
  let sc := {| connectOnce := fun _ => None;
               sendBytes := fun _ => None;
               sendSeconds := fun _ => 1%Q;
               recv := fun k => match acks !! k with
                                | Some resp => inr resp
                                | None => inl "timeout"
                                end;
               elapsed := fun _ => 0 |} in
  let s := {| timeout := 60; blackhole := false; sent := 0; sentBytes := 0;
              sentTime := 0; errs := 0; bad := 0; apiErr := false;
              timeoutErr := false;
              spool := {[ "mm_1" := inr "{a}"; "mm_2" := inr "{b}";
                          "mm_3" := inr "{c}" ]};
              status := Text "Idle"; connected := false; connects := O;
              sends := O; recvs := O; looks := O |} in
  let s' := snd (send sc s) in
  (blackhole s = false /\
   (forall k, elapsed sc k <= timeout s) /\
   connectOnce sc (connects s) = None /\
   (forall k, sendBytes sc k = None) /\
   forallb sendable (map_to_list (spool s)).*2 = true /\
   length acks = size (spool s) /\
   (forall k resp, acks !! k = Some resp -> recv sc (recvs s + k) = inr resp) /\
   forallb answers acks = true) /\
  size (spool s) = 3%nat /\
  size (spool s') = 1%nat /\
  sent s' = 2 /\ bad s' = 0 /\ apiErr s' = true /\ errs s' = 0 /\
  timeoutErr s' = false /\
  status s' = IdleSent {| info_sent := 2; info_sentTime := sentTime s';
                          info_sentBytes := sentBytes s';
                          info_detail := Some (0, 0, true, false) |}.
Proof.
  intros ack acks sc s s'.
  assert (Hclock : forall k, elapsed sc k <= timeout s) by (intros k; simpl; lia).
  assert (Hsend : forall k, sendBytes sc k = None) by reflexivity.
  assert (Hacks : forall k resp, acks !! k = Some resp ->
                                 recv sc (recvs s + k) = inr resp).
  { intros k resp Hk. simpl. now rewrite Hk. }
  destruct (send_acknowledged sc s acks eq_refl Hclock eq_refl Hsend eq_refl
                              eq_refl Hacks eq_refl)
    as (_ & Hsize & Hsent & Hbad & Hapi & Herrs & Hte & Hstatus).
  split; [repeat split; (reflexivity || assumption)|].
  split; [reflexivity|]. split; [exact Hsize|]. split; [exact Hsent|].
  split; [exact Hbad|]. split; [exact Hapi|]. split; [exact Herrs|].
  split; [exact Hte|]. exact Hstatus.
Defined.

End Scenario.

(** ** The MySQL connection: attempts of [Connect] *)

Section Attempts.
Import mysql.

Context {Backoff DB : Type}.
Variable Wait : Backoff -> Z * Backoff.
Variable Success : Backoff -> Backoff.
Variable driver : nat -> attempt DB.

Lemma waits_S (n : nat) (b : Backoff) :
  waits Wait (S n) b = waits Wait n (snd (Wait b)).
Proof. unfold waits. now rewrite Nat.iter_succ_r. Qed.

(** Attempts that all fail use up the loop. *)
Lemma connectLoop_exhausted (i : nat) :
  forall (n : nat) (c : Connection Backoff DB) (err : option string)
         (done : list (effect DB)),
    (forall j, (j < i)%nat -> alive (driver (n + j)) = None) ->
    connectLoop Wait Success driver i n c err done
    = ({| dsn := dsn c; conn := conn c; backoff := waits Wait i (backoff c) |},
       match i with
       | O => err
       | S i' => Some (failure (driver (n + i')))
       end,
       done ++ attemptsEffects Wait driver n i (backoff c) (dsn c),
       false).
Proof.
  induction i as [|i IH]; intros n c err done Hfail.
  - simpl. rewrite app_nil_r. now destruct c.
  - simpl connectLoop. destruct (Wait (backoff c)) as [d b] eqn:HW.
    pose proof (Hfail O ltac:(lia)) as H0. rewrite Nat.add_0_r in H0.
    assert (Hrest : forall j, (j < i)%nat -> alive (driver (S n + j)) = None).
    { intros j Hj. replace (S n + j)%nat with (n + S j)%nat by lia.
      apply Hfail. lia. }
    rewrite waits_S, HW. simpl attemptsEffects. unfold attemptEffects.
    rewrite HW. simpl.
    destruct (driver n) as [e|db e|db] eqn:Hd; [| |discriminate].
    + rewrite IH by exact Hrest. simpl. rewrite <- app_assoc. simpl.
      replace (match i with
               | O => Some e
               | S i' => Some (failure (driver (S (n + i'))))
               end) with (Some (failure (driver (n + i)))); [reflexivity|].
      destruct i; [now rewrite Nat.add_0_r, Hd|].
      now replace (n + S i)%nat with (S (n + i)) by lia.
    + rewrite IH by exact Hrest. simpl. rewrite <- !app_assoc. simpl.
      replace (match i with
               | O => Some e
               | S i' => Some (failure (driver (S (n + i'))))
               end) with (Some (failure (driver (n + i)))); [reflexivity|].
      destruct i; [now rewrite Nat.add_0_r, Hd|].
      now replace (n + S i)%nat with (S (n + i)) by lia.
Qed.

(** The first attempt that is alive ends the loop. *)
Lemma connectLoop_connected (k : nat) :
  forall (i n : nat) (c : Connection Backoff DB) (err : option string)
         (done : list (effect DB)) (db : DB),
    (k < i)%nat ->
    (forall j, (j < k)%nat -> alive (driver (n + j)) = None) ->
    driver (n + k) = Alive db ->
    connectLoop Wait Success driver i n c err done
    = ({| dsn := dsn c; conn := Some db;
          backoff := Success (waits Wait (S k) (backoff c)) |},
       None,
       done ++ attemptsEffects Wait driver n (S k) (backoff c) (dsn c),
       true).
Proof.
  induction k as [|k IH]; intros i n c err done db Hi Hfail Hk.
  - destruct i as [|i]; [lia|]. rewrite Nat.add_0_r in Hk.
    simpl connectLoop. destruct (Wait (backoff c)) as [d b] eqn:HW.
    rewrite Hk. simpl attemptsEffects. unfold attemptEffects, waits.
    rewrite Hk, HW. simpl. rewrite HW. simpl.
    rewrite <- app_assoc. reflexivity.
  - destruct i as [|i]; [lia|].
    simpl connectLoop. destruct (Wait (backoff c)) as [d b] eqn:HW.
    pose proof (Hfail O ltac:(lia)) as H0. rewrite Nat.add_0_r in H0.
    assert (Hrest : forall j, (j < k)%nat -> alive (driver (S n + j)) = None).
    { intros j Hj. replace (S n + j)%nat with (n + S j)%nat by lia.
      apply Hfail. lia. }
    assert (Hk' : driver (S n + k) = Alive db).
    { replace (S n + k)%nat with (n + S k)%nat by lia. exact Hk. }
    rewrite (waits_S (S k)), HW.
    change (attemptsEffects Wait driver n (S (S k)) (backoff c) (dsn c))
      with (attemptEffects Wait (backoff c) (dsn c) (driver n)
            ++ attemptsEffects Wait driver (S n) (S k) (snd (Wait (backoff c)))
                               (dsn c)).
    unfold attemptEffects at 1. rewrite HW. simpl fst. simpl snd.
    destruct (driver n) as [e|db' e|db'] eqn:Hd; [| |discriminate].
    + rewrite (IH i (S n) _ _ _ db) by (lia || assumption). simpl.
      now rewrite <- app_assoc.
    + rewrite (IH i (S n) _ _ _ db) by (lia || assumption). simpl.
      now rewrite <- !app_assoc.
Qed.

Lemma opens_app (l1 l2 : list (effect DB)) :
  opens (l1 ++ l2) = (opens l1 + opens l2)%nat.
Proof.
  induction l1 as [|[d|dsn|db|db] l1 IH]; simpl; auto.
Qed.

Lemma connectLoop_opens (i : nat) :
  forall (n : nat) (c : Connection Backoff DB) (err : option string)
         (done : list (effect DB)),
    (opens (connectLoop Wait Success driver i n c err done).1.2
     <= opens done + i)%nat.
Proof.
  induction i as [|i IH]; intros n c err done; simpl; [lia|].
  destruct (Wait (backoff c)) as [d b].
  destruct (driver n) as [e|db e|db].
  - etransitivity; [apply IH|]. rewrite opens_app. simpl. lia.
  - etransitivity; [apply IH|]. rewrite !opens_app. simpl. lia.
  - simpl. rewrite !opens_app. simpl. lia.
Qed.

(** C7.  [Connect] with no tries returns nil at once and attempts nothing.
    With tries, it calls [sql.Open] at most that often, each attempt coming
    after a sleep of what the backoff's [Wait] gave.  The first attempt
    whose handle opens and answers the ping ends it: the handle is kept,
    [Success] is called on the backoff, nil is returned.  A handle whose
    ping failed is closed.  When every attempt failed, the connection is
    left as it was and the error names the number of tries and carries the
    error of the last attempt. *)
Theorem Connect_attempts (tries k : nat) (c : Connection Backoff DB)
    (Hk : (k <= tries)%nat)
    (Hfail : forall j, (j < k)%nat -> alive (driver j) = None) :
  Connect Wait Success driver 0 c = (c, None, []) /\
  (opens (Connect Wait Success driver tries c).2 <= tries)%nat /\
  (forall db, (k < tries)%nat -> driver k = Alive db ->
     Connect Wait Success driver tries c
     = ({| dsn := dsn c; conn := Some db;
           backoff := Success (waits Wait (S k) (backoff c)) |},
        None,
        attemptsEffects Wait driver 0 (S k) (backoff c) (dsn c))) /\
  ((0 < tries)%nat -> k = tries ->
     Connect Wait Success driver tries c
     = ({| dsn := dsn c; conn := conn c;
           backoff := waits Wait tries (backoff c) |},
        Some ("Failed to connect to MySQL after " +:+ pretty tries
              +:+ " tries (" +:+ failure (driver (pred tries)) +:+ ")"),
        attemptsEffects Wait driver 0 tries (backoff c) (dsn c))).
Proof.
  split; [reflexivity|]. split; [|split].
  - unfold Connect. destruct (Nat.eqb tries 0); [simpl; lia|].
    pose proof (connectLoop_opens tries 0 c None []) as H.
    destruct (connectLoop Wait Success driver tries 0 c None [])
      as [[[c' err] done] connected].
    simpl in H. destruct connected; simpl; exact H.
  - intros db Hlt Hdb. unfold Connect.
    destruct (Nat.eqb_spec tries 0) as [->|_]; [lia|].
    rewrite (connectLoop_connected k tries 0 c None [] db); auto.
  - intros Hpos ->. unfold Connect.
    destruct (Nat.eqb_spec tries 0) as [->|_]; [lia|].
    rewrite connectLoop_exhausted by exact Hfail.
    destruct tries as [|i]; [lia|]. reflexivity.
Qed.

End Attempts.

Section AttemptsScenario.
Import mysql.

(** Five tries against a server that refuses the first connection, denies
    the second, and then answers. *)
Lemma Connect_attempts_witness :
  let driver := fun n => match n with
                         | O => OpenFails "dial tcp: connection refused"
                         | S O => PingFails 7%nat "Access denied"
                         | _ => Alive 8%nat
                         end in
  let c := NewConnection "root:@unix(/var/run/mysqld/mysqld.sock)/" in
  (2 <= 5)%nat /\
  (forall j, (j < 2)%nat -> alive (driver j) = None) /\
  driver 2%nat = Alive 8%nat /\
  Connect Backoff_Wait Backoff_Success driver 5 c
  = ({| dsn := dsn c; conn := Some 8%nat;
        backoff := {| lastWait := 0; maxWait := 20 |} |},
     None,
     [Sleep 1; Open (dsn c);
      Sleep 2; Open (dsn c); Ping 7%nat; Close 7%nat;
      Sleep 4; Open (dsn c); Ping 8%nat]).
Proof.
  intros driver c.
  assert (Hfail : forall j, (j < 2)%nat -> alive (driver j) = None).
  { intros [|[|j]] Hj; simpl; (reflexivity || lia). }
  split; [lia|]. split; [exact Hfail|]. split; [reflexivity|].
  destruct (Connect_attempts Backoff_Wait Backoff_Success driver 5 2 c
                             ltac:(lia) Hfail) as (_ & _ & Hok & _).
  exact (Hok 8%nat ltac:(lia) eq_refl).
Defined.

End AttemptsScenario.

(** * Further properties *)

(** ** [Stats]: bounds, mean, repeated [Summarize], resets *)

Section StatsMore.
Import mm.

Lemma insert_Float64_head (x : float64) (l : list float64) :
  StronglySorted notAfter (x :: l) -> insert_Float64 x l = x :: l.
Proof.
  intros H. inversion H as [|? ? _ Hx]; subst.
  destruct l as [|y l]; [reflexivity|]. simpl.
  inversion Hx as [|? ? Hxy _]; subst.
  unfold notAfter in Hxy. now rewrite Hxy.
Qed.

Lemma sort_Float64s_id (l : list float64) :
  StronglySorted notAfter l -> sort_Float64s l = l.
Proof.
  induction 1 as [|x l Hl IH Hx]; [reflexivity|]. simpl. rewrite IH.
  apply insert_Float64_head. now constructor.
Qed.

Lemma In_index (l : list float64) (v : float64) :
  In v l -> exists i, 0 <= i < Z.of_nat (length l) /\ index l i = v.
Proof.
  intros Hin. destruct (In_nth l v 0%F Hin) as (n & Hn & Hv).
  exists (Z.of_nat n). split; [lia|]. unfold index. now rewrite Nat2Z.id.
Qed.

(** X1.  Whatever its history, a gauge or counter [Stats] whose values hold
    no NaN is summarized with [Min <= Pct5 <= Med <= Pct95 <= Max], [Min]
    and [Max] being values, and no value is below [Min] or above [Max]. *)
Theorem Summarize_bounds (s : Stats)
    (Htype : metricType s = "gauge" \/ metricType s = "counter")
    (Hvals : vals s <> [])
    (Hnan : noNaN (vals s) = true) :
  let r := Summarize s in
  ((Min r <= Pct5 r)%F /\ (Pct5 r <= Med r)%F /\
   (Med r <= Pct95 r)%F /\ (Pct95 r <= Max r)%F) /\
  In (Min r) (vals s) /\ In (Max r) (vals s) /\
  Forall (fun v => (Min r <= v)%F /\ (v <= Max r)%F) (vals s).
Proof.
  intros r.
  destruct (Summarize_fields s Htype Hvals)
    as (_ & HMin & HP5 & HMed & HP95 & HMax).
  fold r in HMin, HP5, HMed, HP95, HMax.
  destruct (sort_Float64s_noNaN (vals s) Hnan) as [Hsorted Hclean].
  set (sorted := sort_Float64s (vals s)) in *.
  set (n := Z.of_nat (length (vals s))) in *.
  assert (Hn : 0 < n).
  { subst n. destruct (vals s); [congruence|simpl; lia]. }
  assert (Hlen : Z.of_nat (length sorted) = n).
  { subst sorted n. now rewrite sort_Float64s_length. }
  assert (Hperm : Permutation sorted (vals s)) by apply sort_Float64s_perm.
  pose proof (pct_index_lt 5 n ltac:(lia) Hn) as H5.
  pose proof (pct_index_lt 50 n ltac:(lia) Hn) as H50.
  pose proof (pct_index_lt 95 n ltac:(lia) Hn) as H95.
  pose proof (pct_index_mono 5 50 n ltac:(lia) ltac:(lia)) as H5_50.
  pose proof (pct_index_mono 50 95 n ltac:(lia) ltac:(lia)) as H50_95.
  rewrite HMin, HP5, HMed, HP95, HMax.
  split; [repeat split; apply index_sorted_le;
          (exact Hsorted || exact Hclean || lia)|].
  split; [eapply Permutation_in; [exact Hperm|]; apply index_In; lia|].
  split; [eapply Permutation_in; [exact Hperm|]; apply index_In; lia|].
  apply Forall_forall. intros v Hv. apply list_elem_of_In in Hv.
  apply (Permutation_in _ (Permutation_sym Hperm)) in Hv.
  destruct (In_index sorted v Hv) as (i & Hi & <-).
  split; apply index_sorted_le; (exact Hsorted || exact Hclean || lia).
Qed.

Lemma Summarize_bounds_witness :
  let s := {| metricType := "counter"; str := ""; firstVal := false;
              prevTs := 9; penuTs := 8; prevVal := 6; penuVal := 2;
              vals := [4; NegInf; 3]%F; sum := NegInf; Cnt := 0; Min := 0;
              Pct5 := 0; Avg := 0; Med := 0; Pct95 := 0; Max := 0 |} in
  (metricType s = "gauge" \/ metricType s = "counter") /\
  vals s <> [] /\ noNaN (vals s) = true /\
  Min (Summarize s) = NegInf /\ Max (Summarize s) = 4%F /\
  Forall (fun v => (Min (Summarize s) <= v)%F /\ (v <= Max (Summarize s))%F)
         (vals s).
Proof.
  intros s.
  assert (Ht : metricType s = "gauge" \/ metricType s = "counter") by now right.
  assert (Hv : vals s <> []) by discriminate.
  split; [exact Ht|]. split; [exact Hv|]. split; [reflexivity|].
  split; [reflexivity|]. split; [reflexivity|].
  apply (Summarize_bounds s Ht Hv eq_refl).
Defined.

(** X2.  [Summarize] twice is [Summarize] once: the summary that
    [Finalize] takes after [report] has summarized is the same. *)
Theorem Summarize_idempotent (s : Stats) :
  Summarize (Summarize s) = Summarize s.
Proof.
  unfold Summarize at 2.
  destruct (String.eqb (metricType s) "gauge"
            || String.eqb (metricType s) "counter") eqn:Ht; [|unfold Summarize; now rewrite Ht].
  destruct (1 <? Z.of_nat (length (vals s))) eqn:H1.
  - unfold Summarize. simpl. rewrite Ht, sort_Float64s_length, H1.
    rewrite (sort_Float64s_id (sort_Float64s (vals s)))
      by apply sort_Float64s_sorted.
    reflexivity.
  - destruct (Z.of_nat (length (vals s)) =? 1) eqn:H2.
    + unfold Summarize. simpl. rewrite Ht, H1, H2. reflexivity.
    + unfold Summarize. simpl. rewrite Ht, H1, H2. reflexivity.
Qed.

Lemma total_snoc (l : list float64) (v : float64) :
  total (l ++ [v]) = (total l + v)%F.
Proof. unfold total. now rewrite foldl_app. Qed.

Lemma Add_balanced (s s' : Stats) (m : Metric) (ts : Z) (err : option error) :
  balanced s -> Add s m ts = Returned (s', err) -> balanced s'.
Proof.
  unfold balanced, Add. intros Hb.
  destruct (String.eqb (metricType s) "gauge").
  { intros H; inversion H; subst; simpl. now rewrite total_snoc, Hb. }
  destruct (String.eqb (metricType s) "counter"); [|discriminate].
  destruct (negb (firstVal s)).
  - destruct (f64_ge (Number m) (prevVal s)); intros H; inversion H; subst; simpl.
    + now rewrite total_snoc, Hb.
    + exact Hb.
  - intros H; inversion H; subst; simpl. exact Hb.
Qed.

Lemma AddAll_balanced (samples : list (Metric * Z)) (s s' : Stats)
    (errs : list (option error)) :
  balanced s -> AddAll s samples = Returned (s', errs) -> balanced s'.
Proof.
  revert s errs. induction samples as [|[m ts] rest IH]; intros s errs Hb; simpl.
  - intros H; inversion H; subst. exact Hb.
  - destruct (Add s m ts) as [[s1 e1]|] eqn:HA; [|discriminate].
    destruct (AddAll s1 rest) as [[s2 e2]|] eqn:HB; [|discriminate].
    intros H; inversion H; subst. eapply IH; [|exact HB].
    eapply Add_balanced; eassumption.
Qed.

(** The only value, which [Summarize] takes for [Avg], is the sum over 1. *)
Lemma over_one (v : float64) : same v ((0 + v) / f64_of_int 1)%F.
Proof.
  destruct v as [q| | |]; simpl; auto.
  unfold Qeq, Qdiv, Qmult, Qplus, Qinv. simpl. lia.
Qed.

Lemma Avg_of_balanced (s : Stats) :
  recognised s -> balanced s -> vals s <> [] ->
  same (Avg (Summarize s))
       (total (vals s) / f64_of_int (Z.of_nat (length (vals s))))%F.
Proof.
  intros Hs Hb Hne. unfold balanced in Hb. unfold Summarize.
  assert (Ht : String.eqb (metricType s) "gauge"
               || String.eqb (metricType s) "counter" = true).
  { destruct Hs as [H|H]; rewrite H; reflexivity. }
  rewrite Ht.
  destruct (1 <? Z.of_nat (length (vals s))) eqn:H1; simpl.
  - rewrite Hb. apply same_refl.
  - destruct (vals s) as [|v [|w l]] eqn:Hv; [congruence| |].
    + simpl. unfold index. simpl. apply over_one.
    + simpl length in H1. apply Z.ltb_ge in H1. lia.
Qed.

(** X3.  For a [Stats] made by [NewStats] and fed any samples, the running
    [sum] is the sum of the values the [Stats] holds (the values of a
    gauge, the rates of a counter), added in the order they came; and
    [Summarize] sets [Avg] to that sum divided by [Cnt], also where it
    takes the only value for it. *)
Theorem Avg_mean (t : string) (s0 : Stats) (samples : list (Metric * Z))
    (Hnew : NewStats t = inr s0) :
  exists s errs,
    AddAll s0 samples = Returned (s, errs) /\
    sum s = total (vals s) /\
    (vals s <> [] ->
     let r := Summarize s in
     same (Avg r) (total (vals s) / f64_of_int (Cnt r))%F).
Proof.
  destruct (NewStats_recognised _ _ Hnew) as [Hs0 _].
  destruct (AddAll_returns samples s0 Hs0) as (s & errs & HA & Ht & _).
  exists s, errs. split; [exact HA|].
  assert (Hs : recognised s) by (unfold recognised in *; now rewrite Ht).
  assert (Hb : balanced s).
  { eapply AddAll_balanced; [|exact HA].
    unfold NewStats in Hnew. destruct (negb (MetricTypes t)); [discriminate|].
    inversion Hnew; subst. unfold balanced. simpl. reflexivity. }
  split; [exact Hb|]. intros Hne r.
  pose proof (Avg_of_balanced s Hs Hb Hne) as HAvg. fold r in HAvg.
  subst r. now rewrite Summarize_Cnt.
Qed.

Lemma Avg_mean_witness :
  let q := fun n => {| Name := "Queries"; Type_ := "counter"; Number := n |} in
  let s0 := {| metricType := "counter"; str := ""; firstVal := true;
               prevTs := 0; penuTs := 0; prevVal := 0; penuVal := 0;
               vals := []; sum := 0; Cnt := 0; Min := 0; Pct5 := 0;
               Avg := 0; Med := 0; Pct95 := 0; Max := 0 |} in
  NewStats "counter" = inr s0 /\
  exists s errs,
    AddAll s0 [(q 10%F, 1); (q 16%F, 3); (q 2%F, 4); (q 12%F, 9)]
    = Returned (s, errs) /\
    sum s = total (vals s) /\
    (vals s <> [] ->
     let r := Summarize s in
     same (Avg r) (total (vals s) / f64_of_int (Cnt r))%F).
Proof.
  intros q s0. split; [reflexivity|].
  apply (Avg_mean "counter" s0). reflexivity.
Defined.

Lemma AddAll_steps (samples : list (Metric * Z)) (s : Stats) :
  metricType s = "counter" -> firstVal s = false ->
  exists s' errs,
    AddAll s samples = Returned (s', errs) /\
    metricType s' = "counter" /\
    length (vals s') = (length (vals s) + steps (prevVal s) (values samples))%nat.
Proof.
  revert s. induction samples as [|[m ts] rest IH]; intros s Hc Hf.
  - exists s, []. simpl. split; [reflexivity|]. split; [exact Hc|lia].
  - destruct (Add_counter s m ts Hc)
      as (s1 & err & HA & Hc1 & Hf1 & _ & _ & Hp1 & _ & Hv1).
    destruct (IH s1 Hc1 Hf1) as (s2 & errs & HB & Hc2 & Hlen).
    exists s2, (err :: errs). simpl. rewrite HA, HB.
    split; [reflexivity|]. split; [exact Hc2|].
    rewrite Hlen, Hp1. rewrite Hf in Hv1. simpl in Hv1.
    destruct (f64_ge (Number m) (prevVal s)); inversion Hv1 as [[Hvals Herr]];
      rewrite Hvals; [rewrite length_app; simpl|]; lia.
Qed.

(** X4.  A counter gains one rate for every sample that is not below the
    sample before it, and none for the first sample or for a sample that
    fell: after [Summarize], [Cnt] is the number of such steps, whatever
    the order of rises and resets. *)
Theorem counter_Cnt_steps (s0 : Stats) (m : Metric) (ts : Z)
    (samples : list (Metric * Z))
    (Hnew : NewStats "counter" = inr s0) :
  exists s errs,
    AddAll s0 ((m, ts) :: samples) = Returned (s, errs) /\
    length (vals s) = steps (Number m) (values samples) /\
    Cnt (Summarize s) = Z.of_nat (steps (Number m) (values samples)).
Proof.
  destruct (Add_first s0 m ts Hnew) as (s1 & HA & Hc1 & Hf1 & Hv1 & Hp1 & _).
  destruct (AddAll_steps samples s1 Hc1 Hf1) as (s2 & errs & HB & Hc2 & Hlen).
  rewrite Hv1, Hp1 in Hlen. simpl in Hlen.
  exists s2, (None :: errs). simpl. rewrite HA, HB.
  split; [reflexivity|]. split; [exact Hlen|].
  rewrite Summarize_Cnt by (right; exact Hc2). now rewrite Hlen.
Qed.

Lemma counter_Cnt_steps_witness :
  let q := fun n => {| Name := "Queries"; Type_ := "counter"; Number := n |} in
  let s0 := {| metricType := "counter"; str := ""; firstVal := true;
               prevTs := 0; penuTs := 0; prevVal := 0; penuVal := 0;
               vals := []; sum := 0; Cnt := 0; Min := 0; Pct5 := 0;
               Avg := 0; Med := 0; Pct95 := 0; Max := 0 |} in
  let samples := [(q 16%F, 3); (q 2%F, 4); (q 12%F, 9); (q 12%F, 10)] in
  NewStats "counter" = inr s0 /\
  exists s errs,
    AddAll s0 ((q 10%F, 1) :: samples) = Returned (s, errs) /\
    length (vals s) = 3%nat /\
    Cnt (Summarize s) = 3.
Proof.
  intros q s0 samples. split; [reflexivity|].
  apply (counter_Cnt_steps s0 (q 10%F) 1 samples). reflexivity.
Defined.

Lemma Add_continues (before : list float64) (s s' s1 : Stats) (m : Metric) (ts : Z)
    (err : option error) :
  continues before s s' -> Add s m ts = Returned (s1, err) ->
  exists s1', Add s' m ts = Returned (s1', err) /\ continues before s1 s1'.
Proof.
  intros (Ht & Hf & Hpt & Hppt & Hp & Hpp & Hv). unfold Add, lapped, rate, continues.
  rewrite <- Ht, <- Hf, <- Hpt, <- Hppt, <- Hp, <- Hpp.
  destruct (String.eqb (metricType s) "gauge").
  { intros H; inversion H; subst; simpl. eexists. split; [reflexivity|].
    simpl. rewrite Hv, <- app_assoc. auto 10. }
  destruct (String.eqb (metricType s) "counter"); [|discriminate].
  destruct (negb (firstVal s)).
  - destruct (f64_ge (Number m) (prevVal s)); intros H; inversion H; subst; simpl;
      (eexists; split; [reflexivity|]); simpl;
      [rewrite Hv, <- app_assoc|]; auto 10.
  - intros H; inversion H; subst; simpl. eexists. split; [reflexivity|].
    simpl. auto 10.
Qed.

Lemma AddAll_continues (samples : list (Metric * Z)) (before : list float64)
    (s s' s2 : Stats) (errs : list (option error)) :
  continues before s s' -> AddAll s samples = Returned (s2, errs) ->
  exists s2', AddAll s' samples = Returned (s2', errs) /\ continues before s2 s2'.
Proof.
  revert s s' errs. induction samples as [|[m ts] rest IH]; intros s s' errs Hc; simpl.
  - intros H; inversion H; subst. eauto.
  - destruct (Add s m ts) as [[s1 e1]|] eqn:HA; [|discriminate].
    destruct (AddAll s1 rest) as [[s3 e3]|] eqn:HB; [|discriminate].
    intros H; inversion H; subst.
    destruct (Add_continues _ _ _ _ _ _ _ Hc HA) as (s1' & HA' & Hc1).
    destruct (IH _ _ _ Hc1 HB) as (s2' & HB' & Hc2).
    exists s2'. now rewrite HA', HB'.
Qed.

(** X5.  [Reset] empties the window and forgets nothing else: [Finalize]
    then gives nil, the summary fields stay as they were, and the samples
    added after it yield the very rates (or gauge values) and errors they
    would have yielded without it, a counter's first sample after the
    [Reset] being measured against its last sample before. *)
Theorem Reset_continues (s : Stats) (samples : list (Metric * Z))
    (Htype : metricType s = "gauge" \/ metricType s = "counter") :
  snd (Finalize (Reset s)) = None /\
  summary (Reset s) = summary s /\
  exists s2 s2' errs,
    AddAll s samples = Returned (s2, errs) /\
    AddAll (Reset s) samples = Returned (s2', errs) /\
    vals s2 = vals s ++ vals s2' /\
    prevVal s2' = prevVal s2 /\ prevTs s2' = prevTs s2.
Proof.
  split; [reflexivity|]. split; [reflexivity|].
  destruct (AddAll_returns samples s Htype) as (s2 & errs & HA & _).
  assert (Hc : continues (vals s) s (Reset s)).
  { unfold continues. simpl. rewrite app_nil_r. auto 10. }
  destruct (AddAll_continues samples _ _ _ _ _ Hc HA) as (s2' & HB & Hc2).
  exists s2, s2', errs. split; [exact HA|]. split; [exact HB|].
  destruct Hc2 as (_ & _ & Hpt & _ & Hp & _ & Hv). auto.
Qed.

Lemma Reset_continues_witness :
  let q := fun n => {| Name := "Queries"; Type_ := "counter"; Number := n |} in
  let s := {| metricType := "counter"; str := ""; firstVal := false;
              prevTs := 60; penuTs := 50; prevVal := 100; penuVal := 90;
              vals := [1%F]; sum := 1; Cnt := 1; Min := 1; Pct5 := 1;
              Avg := 1; Med := 1; Pct95 := 1; Max := 1 |} in
  (metricType s = "gauge" \/ metricType s = "counter") /\
  (exists s2', AddAll (Reset s) [(q 130%F, 70)] = Returned (s2', [None]) /\
               vals s2' = [(130 - 100) / f64_of_int 10]%F) /\
  snd (Finalize (Reset s)) = None /\
  summary (Reset s) = summary s /\
  exists s2 s2' errs,
    AddAll s [(q 130%F, 70)] = Returned (s2, errs) /\
    AddAll (Reset s) [(q 130%F, 70)] = Returned (s2', errs) /\
    vals s2 = vals s ++ vals s2' /\
    prevVal s2' = prevVal s2 /\ prevTs s2' = prevTs s2.
Proof.
  intros q s.
  split; [right; reflexivity|].
  split; [eexists; split; reflexivity|].
  apply (Reset_continues s [(q 130%F, 70)]). right. reflexivity.
Defined.

End StatsMore.

(** ** The Aggregator: traces *)

Section TracesMore.
Import mm.

Lemma run_spool_from (events : list event) :
  forall a a',
    run events a = Returned a' ->
    exists new,
      spool a' = spool a ++ new /\
      (length new <= length (tickTimes events))%nat /\
      (IsZero (startTs a) = true -> tickTimes events <> [] ->
       (length new < length (tickTimes events))%nat) /\
      Forall (fun r => IsZero (Ts r) = false /\
                       In (Ts r) (startTs a :: tickTimes events)) new.
Proof.
  induction events as [|[now|c|] rest IH]; intros a a' Hrun; simpl in Hrun.
  - inversion Hrun; subst. exists []. rewrite app_nil_r.
    split; [reflexivity|]. split; [simpl; lia|].
    split; [intros _ H; now elim H|constructor].
  - apply IH in Hrun as (new & Hsp & Hlen & _ & Hall). simpl in Hsp, Hall.
    assert (Hall' : Forall (fun r => IsZero (Ts r) = false /\
                       In (Ts r) (startTs a :: tickTimes (Tick now :: rest))) new).
    { eapply Forall_impl; [exact Hall|]. intros r [Hz Hin].
      split; [exact Hz|]. simpl. now right. }
    destruct (IsZero (startTs a)) eqn:Hz; simpl in Hsp.
    + exists new. split; [exact Hsp|]. simpl.
      split; [lia|]. split; [intros _ _; lia|exact Hall'].
    + unfold report in Hsp. rewrite <- app_assoc in Hsp.
      eexists (_ :: new). split; [exact Hsp|]. simpl.
      split; [lia|]. split; [discriminate|].
      constructor; [|exact Hall']. simpl. split; [exact Hz|now left].
  - destruct (addMetrics _ _ _) as [cur'|]; [|discriminate].
    apply IH in Hrun as (new & Hsp & Hlen & Hlt & Hall). simpl in *.
    exists new. auto.
  - inversion Hrun; subst. exists []. rewrite app_nil_r.
    split; [reflexivity|]. split; [simpl; lia|]. simpl.
    split; [intros _ H; destruct (tickTimes rest); [congruence|simpl; lia]
           |constructor].
Qed.

(** X7.  The run loop only ever appends to what it has written: the
    reports there stay, in order; each new one is stamped with a non-zero
    time that is a tick of the trace; and there are fewer new reports than
    ticks, the first tick of a fresh Aggregator writing none. *)
Theorem run_spool_grows (events : list event) (written : list Report)
    (a : Aggregator)
    (Hrun : run events (NewAggregator written) = Returned a) :
  exists new,
    spool a = written ++ new /\
    (length new <= length (tickTimes events))%nat /\
    (tickTimes events <> [] -> (length new < length (tickTimes events))%nat) /\
    Forall (fun r => IsZero (Ts r) = false /\ In (Ts r) (tickTimes events)) new.
Proof.
  destruct (run_spool_from events _ _ Hrun) as (new & Hsp & Hlen & Hlt & Hall).
  simpl in Hsp, Hall. exists new. split; [exact Hsp|].
  split; [exact Hlen|]. split; [apply Hlt; reflexivity|].
  eapply Forall_impl; [exact Hall|]. intros r [Hz [H0|Hin]].
  - rewrite <- H0 in Hz. discriminate.
  - now split.
Qed.

Lemma run_spool_grows_witness :
  let x := fun n => {| Name := "Threads_running"; Type_ := "gauge"; Number := n |} in
  let c := fun ts n => Collect {| StartTs := ts; Collection_Metrics := [x n] |} in
  let old := {| Ts := 1; Report_Metrics := ∅ |} in
  let events := [Tick 60; c 61 4%F; Tick 120; c 121 5%F; Tick 180] in
  exists a new,
    run events (NewAggregator [old]) = Returned a /\
    spool a = [old] ++ new /\
    (length new <= length (tickTimes events))%nat /\
    (tickTimes events <> [] -> (length new < length (tickTimes events))%nat) /\
    Forall (fun r => IsZero (Ts r) = false /\ In (Ts r) (tickTimes events)) new.
Proof.
  intros x c old events.
  destruct (run events (NewAggregator [old])) as [a|] eqn:Hrun;
    [|vm_compute in Hrun; discriminate].
  exists a.
  destruct (run_spool_grows events [old] a Hrun) as (new & H).
  exists new. split; [reflexivity|exact H].
Defined.

(** X8.  Within a window the first sample of a name decides the type: a
    metric whose name already has a [Stats] is added to it whatever type
    the metric itself declares, and the [Stats] keeps its type; only a
    metric of a new name is looked at for its type, and the loop panics
    exactly when that type is neither gauge nor counter. *)
Theorem addMetric_first_type (ts : Z) (cur : Metrics) (m : Metric)
    (Hcur : map_Forall (fun _ s => recognised s) cur) :
  (forall s, cur !! Name m = Some s ->
     exists s' err,
       Add s m ts = Returned (s', err) /\
       addMetric ts cur m = Returned (<[Name m := s']> cur) /\
       metricType s' = metricType s) /\
  (cur !! Name m = None ->
     ((exists msg, addMetric ts cur m = Panicked msg)
      <-> MetricTypes (Type_ m) = false) /\
     (MetricTypes (Type_ m) = true ->
      exists s', addMetric ts cur m = Returned (<[Name m := s']> cur) /\
                 metricType s' = Type_ m)).
Proof.
  split.
  - intros s Hlook.
    destruct (Add_returns s m ts (Hcur _ _ Hlook)) as (s' & err & HA & Ht).
    exists s', err. split; [exact HA|]. split; [|exact Ht].
    unfold addMetric. now rewrite Hlook, HA.
  - intros Hnone. unfold addMetric. rewrite Hnone.
    destruct (NewStats (Type_ m)) as [e|s0] eqn:Hnew.
    + assert (Hbad : MetricTypes (Type_ m) = false).
      { unfold NewStats in Hnew.
        destruct (MetricTypes (Type_ m)); [discriminate|reflexivity]. }
      split; [split; [intros _; exact Hbad|intros _; eauto]|].
      rewrite Hbad. discriminate.
    + destruct (NewStats_recognised _ _ Hnew) as [Hs0 Ht0].
      destruct (Add_returns s0 m ts Hs0) as (s' & err & HA & Ht).
      assert (Hgood : MetricTypes (Type_ m) = true).
      { unfold NewStats in Hnew.
        destruct (MetricTypes (Type_ m)); [reflexivity|discriminate]. }
      rewrite HA. split.
      * split; [intros [msg Hmsg]; discriminate|].
        rewrite Hgood. discriminate.
      * intros _. exists s'. split; [reflexivity|congruence].
Qed.

Lemma addMetric_first_type_witness :
  let odd := {| Name := "Threads_running"; Type_ := "histogram"; Number := 6 |} in
  let s := {| metricType := "gauge"; str := ""; firstVal := true;
              prevTs := 0; penuTs := 0; prevVal := 0; penuVal := 0;
              vals := [4%F]; sum := 4; Cnt := 0; Min := 0; Pct5 := 0;
              Avg := 0; Med := 0; Pct95 := 0; Max := 0 |} in
  let cur : gmap string Stats := {[ "Threads_running" := s ]} in
  map_Forall (fun _ s => recognised s) cur /\
  cur !! Name odd = Some s /\
  MetricTypes (Type_ odd) = false /\
  exists s' err,
    Add s odd 62 = Returned (s', err) /\
    addMetric 62 cur odd = Returned (<[Name odd := s']> cur) /\
    metricType s' = metricType s.
Proof.
  intros odd s cur.
  assert (Hcur : map_Forall (fun _ s => recognised s) cur).
  { apply map_Forall_singleton. left. reflexivity. }
  split; [exact Hcur|].
  split; [apply lookup_singleton_eq|]. split; [reflexivity|].
  destruct (addMetric_first_type 62 cur odd Hcur) as [Hknown _].
  apply Hknown. apply lookup_singleton_eq.
Defined.

End TracesMore.

(** ** The Sender: what every cycle keeps *)

Section CycleInvariants.
Import data.

Variable sc : Script.

Lemma size_delete_present (m : gmap string (string + string)) (k : string)
    (v : string + string) :
  m !! k = Some v -> Z.of_nat (size (delete k m)) + 1 = Z.of_nat (size m).
Proof.
  intros H. rewrite (map_size_delete_Some k m) by eauto.
  pose proof (map_size_ne_0_lookup_2 m k (mk_is_Some _ _ H)). lia.
Qed.

Lemma accounted_refl (s : Sender) : accounted s s.
Proof. unfold accounted. split; [reflexivity|lia]. Qed.

Lemma accounted_trans (s1 s2 s3 : Sender) :
  accounted s1 s2 -> accounted s2 s3 -> accounted s1 s3.
Proof.
  unfold accounted. intros (Ha & ? & ? & ?) (Hb & ? & ? & ?).
  split; [etransitivity; eassumption|lia].
Qed.

Lemma sameSetup_trans (s1 s2 s3 : Sender) :
  sameSetup s1 s2 -> sameSetup s2 s3 -> sameSetup s1 s3.
Proof. unfold sameSetup. intros [? ?] [? ?]. split; congruence. Qed.

(** One unit, whatever happens to it. *)
Lemma sendFile_accounted (file : string) (s : Sender) :
  accounted s (snd (sendFile sc file s)) /\
  sameSetup s (snd (sendFile sc file s)) /\
  connects (snd (sendFile sc file s)) = connects s /\
  connected (snd (sendFile sc file s)) = connected s.
Proof.
  unfold sendFile, mbind, M_bind, runTime, get, spoolRead, accounted, sameSetup.
  simpl.
  destruct (timeout s <? elapsed sc (looks s)); simpl;
    [split; [split; [reflexivity|lia]|auto]|].
  destruct (spool s !! file) as [[err|data]|] eqn:Hlook; simpl;
    try (split; [split; [reflexivity|lia]|auto]).
  pose proof (size_delete_present _ _ _ Hlook) as Hsize.
  pose proof (delete_subseteq (spool s) file) as Hsub.
  destruct (blackhole s); simpl; [split; [split; [exact Hsub|lia]|auto]|].
  destruct (Z.of_nat (String.length data) =? 0); simpl;
    [split; [split; [exact Hsub|lia]|auto]|].
  destruct (sendBytes sc (sends s)); simpl;
    [split; [split; [reflexivity|lia]|auto]|].
  destruct (recv sc (recvs s)) as [err|resp]; simpl;
    [split; [split; [reflexivity|lia]|auto]|].
  destruct (500 <=? Code resp); simpl;
    [split; [split; [reflexivity|lia]|auto]|].
  destruct (400 <=? Code resp); simpl;
    [split; [split; [exact Hsub|lia]|auto]|].
  destruct (300 <=? Code resp); simpl;
    [split; [split; [reflexivity|lia]|auto]|].
  destruct (200 <=? Code resp); simpl;
    [split; [split; [exact Hsub|lia]|auto]|].
  split; [split; [reflexivity|lia]|auto].
Qed.

Lemma sendFiles_accounted (files : list string) (s : Sender) :
  accounted s (snd (sendFiles sc files s)) /\
  sameSetup s (snd (sendFiles sc files s)) /\
  connects (snd (sendFiles sc files s)) = connects s /\
  connected (snd (sendFiles sc files s)) = connected s.
Proof.
  revert s. induction files as [|file rest IH]; intros s.
  - simpl. split; [apply accounted_refl|]. unfold sameSetup. auto.
  - simpl. unfold mbind, M_bind.
    pose proof (sendFile_accounted file s) as (Ha & Hs & Hc & Hd).
    destruct (sendFile sc file s) as [[|err] s1]; simpl in *.
    + destruct (IH s1) as (Ha' & Hs' & Hc' & Hd').
      split; [eapply accounted_trans; eassumption|].
      split; [eapply sameSetup_trans; eassumption|]. split; congruence.
    + auto.
Qed.

(** One turn of the loop either returns, or goes on with one error more. *)
Lemma sendTurn_cases (again : M unit) (s : Sender) :
  exists s1,
    accounted s s1 /\ sameSetup s s1 /\
    (connects s <= connects s1 <= S (connects s))%nat /\
    ((errs s1 = errs s /\ sendTurn sc again s = (tt, s1)) \/
     (errs s1 = errs s + 1 /\ sendTurn sc again s = again s1)).
Proof.
  unfold sendTurn, mbind, M_bind, runTime, get, clientConnectOnce, sendAllFiles,
    spoolFiles, mbind, M_bind, get. simpl.
  destruct (timeout s <? elapsed sc (looks s)); simpl.
  { match goal with |- context [ret tt ?st] => exists st end.
    unfold accounted, sameSetup. simpl.
    split; [split; [reflexivity|lia]|]. split; [auto|]. split; [lia|].
    left. split; reflexivity. }
  destruct (connectOnce sc (connects s)); simpl.
  { match goal with |- context [again ?st] => exists st end.
    unfold accounted, sameSetup. simpl.
    split; [split; [reflexivity|lia]|]. split; [auto|]. split; [lia|].
    right. split; reflexivity. }
  match goal with |- context [sendFiles sc ?fl ?st] =>
    pose proof (sendFiles_accounted fl st) as (Ha & Hs & Hc & Hd);
    pose proof (sendFiles_errs sc fl st) as He;
    destruct (sendFiles sc fl st) as [[err|] s1]
  end; simpl in *.
  - match goal with |- context [again ?st] => exists st end. simpl.
    split; [exact Ha|]. split; [exact Hs|]. split; [lia|].
    right. split; [lia|reflexivity].
  - exists s1. split; [exact Ha|]. split; [exact Hs|]. split; [lia|].
    left. split; [exact He|reflexivity].
Qed.

Lemma sendLoop_kept (tries : nat) :
  forall s,
    accounted s (snd (sendLoop sc tries s)) /\
    sameSetup s (snd (sendLoop sc tries s)) /\
    (connects s <= connects (snd (sendLoop sc tries s)) <= connects s + tries)%nat /\
    errs s <= errs (snd (sendLoop sc tries s)) /\
    (errs s <= MAX_SEND_ERRORS ->
     errs (snd (sendLoop sc tries s)) <= MAX_SEND_ERRORS).
Proof.
  induction tries as [|tries IH]; intros s.
  - unfold sendLoop, mbind, M_bind, get. simpl.
    destruct (negb (apiErr s) && (errs s <? MAX_SEND_ERRORS) && negb (timeoutErr s));
      simpl; (split; [apply accounted_refl|]); unfold sameSetup;
      (split; [auto|]); (split; [lia|]); (split; [lia|auto]).
  - change (sendLoop sc (S tries) s)
      with ((if negb (apiErr s) && (errs s <? MAX_SEND_ERRORS) && negb (timeoutErr s)
             then sendTurn sc (sendLoop sc tries) else ret tt) s).
    destruct (negb (apiErr s) && (errs s <? MAX_SEND_ERRORS) && negb (timeoutErr s))
      eqn:Hcond.
    + apply andb_prop in Hcond as [Hcond _]. apply andb_prop in Hcond as [_ Hlt].
      apply Z.ltb_lt in Hlt.
      destruct (sendTurn_cases (sendLoop sc tries) s)
        as (s1 & Ha & Hs & Hc & [[He Heq]|[He Heq]]); rewrite Heq.
      * simpl. split; [exact Ha|]. split; [exact Hs|]. split; [lia|].
        split; [lia|]. intros _. lia.
      * destruct (IH s1) as (Ha' & Hs' & Hc' & He' & Hmax).
        split; [eapply accounted_trans; eassumption|].
        split; [eapply sameSetup_trans; eassumption|].
        split; [lia|]. split; [lia|]. intros _. apply Hmax. lia.
    + simpl. split; [apply accounted_refl|]. unfold sameSetup.
      split; [auto|]. split; [lia|]. split; [lia|auto].
Qed.

(** X9.  Over a spool whose [Remove] removes the unit it is asked to
    ([spoolRemove]; the Sender drops what [Remove] returns and counts the
    unit as sent all the same), and whatever the client and the clock do
    and whatever [Read] gives: a cycle adds no unit to the spool, counts as
    sent no more units than it removed, and as bad only units it counted as
    sent; it leaves the time budget and the blackhole mode as they were. *)
Theorem send_accounts (s : Sender) :
  let s' := snd (send sc s) in
  spool s' ⊆ spool s /\
  0 <= bad s' /\ bad s' <= sent s' /\
  sent s' + Z.of_nat (size (spool s')) <= Z.of_nat (size (spool s)) /\
  timeout s' = timeout s /\ blackhole s' = blackhole s.
Proof.
  unfold send, mbind, M_bind. cbv beta iota delta [setCounters].
  match goal with |- context [sendLoop sc ?n ?st] =>
    destruct (sendLoop_kept n st) as ((Hsub & Hb0 & Hbs & Hsz) & (Hto & Hbh) & _);
    destruct (sendLoop sc n st) as [[] s1]
  end. simpl in *.
  split; [exact Hsub|]. repeat split; (lia || assumption).
Qed.

(** X10.  Every cycle comes to an end disconnected, with at most
    [MAX_SEND_ERRORS] errors counted, after at most as many calls of
    [ConnectOnce], and leaves in the status the counters it ends with. *)
Theorem send_ends (s : Sender) :
  let s' := snd (send sc s) in
  connected s' = false /\
  0 <= errs s' <= MAX_SEND_ERRORS /\
  (connects s <= connects s' <= connects s + Z.to_nat MAX_SEND_ERRORS)%nat /\
  status s' =
    IdleSent {| info_sent := sent s';
                info_sentTime := sentTime s';
                info_sentBytes := sentBytes s';
                info_detail :=
                  if (0 <? errs s') || (0 <? bad s') || apiErr s' || timeoutErr s'
                  then Some (bad s', errs s', apiErr s', timeoutErr s')
                  else None |}.
Proof.
  unfold send, mbind, M_bind. cbv beta iota delta [setCounters].
  match goal with |- context [sendLoop sc ?n ?st] =>
    destruct (sendLoop_kept n st) as (_ & _ & Hc & He & Hmax);
    destruct (sendLoop sc n st) as [[] s1]
  end. simpl in *.
  split; [reflexivity|]. split; [|split; [exact Hc|reflexivity]].
  split; [exact He|]. apply Hmax. unfold MAX_SEND_ERRORS. lia.
Qed.






(** X12.  A cycle that finds its budget used up at the first look neither
    connects nor touches the spool: it flags the timeout and is over. *)
Theorem send_over_budget (s : Sender)
    (Hlate : timeout s < elapsed sc (looks s)) :
  let s' := snd (send sc s) in
  spool s' = spool s /\ connects s' = connects s /\
  sends s' = sends s /\ recvs s' = recvs s /\
  timeoutErr s' = true /\ sent s' = 0 /\ errs s' = 0 /\
  status s' = IdleSent {| info_sent := 0; info_sentTime := 0;
                          info_sentBytes := 0;
                          info_detail := Some (0, 0, false, true) |}.
Proof.
  intros s'. subst s'. unfold send, mbind, M_bind.
  change (Z.to_nat MAX_SEND_ERRORS) with 3%nat.
  unfold sendLoop, sendTurn, mbind, M_bind, get, runTime.
  simpl. apply Z.ltb_lt in Hlate. rewrite Hlate. simpl. auto 10.
Qed.

(** X13.  When [ConnectOnce] keeps failing, within the budget, the cycle
    gives up after exactly [MAX_SEND_ERRORS] tries, each counted as an
    error, without reading, sending or removing anything. *)
Theorem send_cannot_connect (s : Sender)
    (Hclock : forall k, elapsed sc k <= timeout s)
    (Hconn : forall k, connectOnce sc k <> None) :
  let s' := snd (send sc s) in
  spool s' = spool s /\ connects s' = (connects s + 3)%nat /\
  sends s' = sends s /\ recvs s' = recvs s /\
  errs s' = MAX_SEND_ERRORS /\ sent s' = 0 /\
  status s' = IdleSent {| info_sent := 0; info_sentTime := 0;
                          info_sentBytes := 0;
                          info_detail := Some (0, 3, false, false) |}.
Proof.
  intros s'. subst s'. unfold send, mbind, M_bind.
  change (Z.to_nat MAX_SEND_ERRORS) with 3%nat.
  unfold sendLoop, sendTurn, mbind, M_bind, get, runTime, clientConnectOnce.
  simpl.
  pose proof (Hclock (looks s)) as H0. apply Z.ltb_ge in H0. rewrite H0.
  simpl.
  destruct (connectOnce sc (connects s)) eqn:E0; [|now elim (Hconn _ E0)].
  simpl.
  pose proof (Hclock (S (looks s))) as H1. apply Z.ltb_ge in H1. rewrite H1.
  simpl.
  destruct (connectOnce sc (S (connects s))) eqn:E1; [|now elim (Hconn _ E1)].
  simpl.
  pose proof (Hclock (S (S (looks s)))) as H2. apply Z.ltb_ge in H2. rewrite H2.
  simpl.
  destruct (connectOnce sc (S (S (connects s)))) eqn:E2; [|now elim (Hconn _ E2)].
  simpl. repeat split; try reflexivity. lia.
Qed.







End CycleInvariants.

Section CycleScenarios.
Import data.


(** A cycle started 61 seconds late on a budget of 60. *)
Lemma send_over_budget_witness :
  let sc := answering 200 61 in
  let s := spooled false {[ "mm_1" := inr "{a}" ]} in
  let s' := snd (send sc s) in
  timeout s < elapsed sc (looks s) /\
  spool s' = spool s /\ connects s' = O /\ timeoutErr s' = true.
Proof.
  intros sc s s'.
  assert (Hlate : timeout s < elapsed sc (looks s)) by (simpl; lia).
  destruct (send_over_budget sc s Hlate) as (Hsp & Hconn & _ & _ & Hte & _).
  split; [exact Hlate|]. split; [exact Hsp|]. split; [exact Hconn|exact Hte].
Defined.

(** An API that refuses every connection. *)
Lemma send_cannot_connect_witness :
  let sc := {| connectOnce := fun _ => Some "connection refused";
               sendBytes := fun _ => None;
               sendSeconds := fun _ => 1%Q;
               recv := fun _ => inl "timeout";
               elapsed := fun _ => 0 |} in
  let s := spooled false {[ "mm_1" := inr "{a}" ]} in
  let s' := snd (send sc s) in
  ((forall k, elapsed sc k <= timeout s) /\
   (forall k, connectOnce sc k <> None)) /\
  spool s' = spool s /\ connects s' = 3%nat /\ sends s' = O /\ errs s' = 3.
Proof.
  intros sc s s'.
  assert (Hclock : forall k, elapsed sc k <= timeout s) by (intros k; simpl; lia).
  assert (Hconn : forall k, connectOnce sc k <> None) by (intros k; discriminate).
  destruct (send_cannot_connect sc s Hclock Hconn)
    as (Hsp & Hconnects & Hsends & _ & Herrs & _).
  split; [split; assumption|].
  split; [exact Hsp|]. split; [exact Hconnects|]. split; [exact Hsends|exact Herrs].
Defined.



End CycleScenarios.

(** ** The MySQL connection: handles and statements *)

Section Handles.
Import mysql.

Context {Backoff DB Query : Type}.
Variable Wait : Backoff -> Z * Backoff.
Variable Success : Backoff -> Backoff.
Variable driver : nat -> attempt DB.
Variable Set_ : Query -> string.
Variable exec : nat -> string -> option string.

(** The handles that some attempts close. *)
Lemma attemptsEffects_closes (i : nat) :
  forall (n : nat) (b : Backoff) (dsn : string) (db : DB),
    In (Close db) (attemptsEffects Wait driver n i b dsn) <->
    exists j e, (n <= j < n + i)%nat /\ driver j = PingFails db e.
Proof.
  induction i as [|i IH]; intros n b dsn db.
  - simpl. split; [intros []|intros (j & e & Hj & _); lia].
  - change (attemptsEffects Wait driver n (S i) b dsn)
      with (attemptEffects Wait b dsn (driver n)
            ++ attemptsEffects Wait driver (S n) i (snd (Wait b)) dsn).
    rewrite in_app_iff, IH. split.
    + intros [H|(j & e & Hj & He)].
      * unfold attemptEffects in H. simpl in H.
        destruct H as [H|[H|H]]; [discriminate..|].
        destruct (driver n) as [e|db' e|db'] eqn:Hd; simpl in H.
        -- destruct H.
        -- destruct H as [H|[H|[]]]; [discriminate|].
           injection H as ->. exists n, e. split; [lia|exact Hd].
        -- destruct H as [H|[]]. discriminate.
      * exists j, e. split; [lia|exact He].
    + intros (j & e & Hj & He).
      destruct (Nat.eq_dec j n) as [->|Hne].
      * left. unfold attemptEffects. rewrite He. simpl. auto.
      * right. exists j, e. split; [lia|exact He].
Qed.

(** X16.  [Connect] closes exactly the handles whose ping failed in an
    attempt it made, which are the attempts before the first live one.  So
    a handle that no failed attempt returned is not closed: not the one
    the connection held before, which is neither closed nor kept when a
    new one is, and not the one it keeps. *)
Theorem Connect_closes_failed (tries k : nat) (c : Connection Backoff DB)
    (Hk : (k <= tries)%nat)
    (Hfail : forall j, (j < k)%nat -> alive (driver j) = None)
    (Hlast : k = tries \/ exists db, driver k = Alive db) :
  let closed := fun db => In (Close db) (Connect Wait Success driver tries c).2 in
  (forall db, closed db <->
              exists j e, (j < k)%nat /\ driver j = PingFails db e) /\
  (forall old, conn c = Some old ->
     (forall j e, (j < k)%nat -> driver j <> PingFails old e) ->
     ~ closed old) /\
  (forall db, conn (Connect Wait Success driver tries c).1.1 = Some db ->
     (forall j e, (j < k)%nat -> driver j <> PingFails db e) ->
     ~ closed db).
Proof.
  intros closed.
  assert (Hiff : forall db, closed db <->
                   exists j e, (j < k)%nat /\ driver j = PingFails db e).
  { intros db. subst closed. simpl. unfold Connect.
    destruct (Nat.eqb_spec tries 0) as [->|Hpos].
    - simpl. split; [intros []|intros (j & e & Hj & _); lia].
    - destruct (Nat.eq_dec k tries) as [->|Hne].
      + rewrite connectLoop_exhausted by (intros j Hj; now apply Hfail).
        simpl. etransitivity; [apply attemptsEffects_closes|].
        split; intros (j & e & Hj & He); exists j, e; (split; [lia|exact He]).
      + destruct Hlast as [->|[db' Hdb']]; [contradiction|].
        rewrite (connectLoop_connected Wait Success driver k tries 0 c None [] db')
          by (lia || assumption).
        cbn -[attemptsEffects]. etransitivity; [apply attemptsEffects_closes|].
        split.
        * intros (j & e & Hj & He).
          destruct (Nat.eq_dec j k) as [->|Hjk]; [congruence|].
          exists j, e. split; [lia|exact He].
        * intros (j & e & Hj & He). exists j, e. split; [lia|exact He]. }
  split; [exact Hiff|]. split.
  - intros old _ Hfresh Hc. apply Hiff in Hc as (j & e & Hj & He).
    exact (Hfresh j e Hj He).
  - intros db _ Hfresh Hc. apply Hiff in Hc as (j & e & Hj & He).
    exact (Hfresh j e Hj He).
Qed.

Lemma setLoop_done (queries : list Query) :
  forall (n : nat) (done : list string) (k : nat),
    (k <= length queries)%nat ->
    (forall j q, (j < k)%nat -> queries !! j = Some q ->
                 exec (n + j) (Set_ q) = None) ->
    (k = length queries ->
       setLoop Set_ exec queries n done = (None, done ++ map Set_ queries)) /\
    (forall q e, queries !! k = Some q -> exec (n + k) (Set_ q) = Some e ->
       setLoop Set_ exec queries n done
       = (Some e, done ++ map Set_ (take (S k) queries))).
Proof.
  induction queries as [|query rest IH]; intros n done k Hk Hok.
  - simpl. split; [now rewrite app_nil_r|]. intros q e Hq. discriminate.
  - destruct k as [|k].
    + split; [discriminate|]. intros q e Hq He. simpl in Hq.
      injection Hq as ->. rewrite Nat.add_0_r in He. simpl. now rewrite He.
    + simpl in Hk.
      pose proof (Hok O query ltac:(lia) eq_refl) as H0.
      rewrite Nat.add_0_r in H0.
      destruct (IH (S n) (done ++ [Set_ query]) k ltac:(lia)) as [Hall Hstop].
      { intros j q Hj Hq. replace (S n + j)%nat with (n + S j)%nat by lia.
        apply Hok; [lia|exact Hq]. }
      split.
      * intros Hlen. simpl in Hlen. simpl. rewrite H0. rewrite Hall by lia.
        now rewrite <- app_assoc.
      * intros q e Hq He. simpl in Hq. simpl setLoop. rewrite H0.
        rewrite (Hstop q e Hq) by (now replace (S n + k)%nat with (n + S k)%nat by lia).
        simpl. now rewrite <- app_assoc.
Qed.

(** X17.  [Set] on a live connection executes the statements in order and
    stops at the first that fails, returning its error: the statements
    after it are not executed, and those before it stay executed.  With no
    failure all are executed and nil is returned. *)
Theorem Set_stops_at_first_error (queries : list Query)
    (c : Connection Backoff DB) (k : nat)
    (Hconn : conn c <> None)
    (Hk : (k <= length queries)%nat)
    (Hok : forall j q, (j < k)%nat -> queries !! j = Some q ->
                       exec j (Set_ q) = None) :
  (k = length queries ->
     Connection_Set Set_ exec queries c = (None, map Set_ queries)) /\
  (forall q e, queries !! k = Some q -> exec k (Set_ q) = Some e ->
     Connection_Set Set_ exec queries c
     = (Some e, map Set_ (take (S k) queries))).
Proof.
  unfold Connection_Set. destruct (conn c) as [db|]; [|contradiction].
  exact (setLoop_done queries 0 [] k Hk Hok).
Qed.

(** X18.  [Close] releases the handle once: a second [Close] does nothing,
    and on the closed connection [Set] fails with "Not connected" before
    executing anything, while [Connect] with no tries still returns nil. *)
Theorem Close_releases (queries : list Query) (c : Connection Backoff DB) :
  let c' := (Connection_Close c).1 in
  conn c' = None /\ dsn c' = dsn c /\ backoff c' = backoff c /\
  length (Connection_Close c).2 = match conn c with Some _ => 1 | None => 0 end%nat /\
  Connection_Close c' = (c', []) /\
  Connection_Set Set_ exec queries c' = (Some "Not connected", []) /\
  Connect Wait Success driver 0 c' = (c', None, []).
Proof.
  unfold Connection_Close, Connection_Set.
  destruct c as [d [db|] b]; simpl; repeat split; reflexivity.
Qed.

End Handles.

Section HandlesScenario.
Import mysql.

(** The server of the earlier scenario, asked while 6 is held: 7, whose
    ping was denied, is closed; 6 and 8 are not, and 8 is kept. *)
Lemma Connect_closes_failed_witness :
  let driver := fun n => match n with
                         | O => OpenFails "dial tcp: connection refused"
                         | S O => PingFails 7%nat "Access denied"
                         | _ => Alive 8%nat
                         end in
  let c := {| dsn := "root:@unix(/var/run/mysqld/mysqld.sock)/";
              conn := Some 6%nat; backoff := NewBackoff 20 |} in
  let closed := fun db =>
    In (Close db) (Connect Backoff_Wait Backoff_Success driver 5 c).2 in
  ((2 <= 5)%nat /\
   (forall j, (j < 2)%nat -> alive (driver j) = None) /\
   driver 2%nat = Alive 8%nat) /\
  closed 7%nat /\ ~ closed 6%nat /\ ~ closed 8%nat /\
  conn (Connect Backoff_Wait Backoff_Success driver 5 c).1.1 = Some 8%nat.
Proof.
  intros driver c closed.
  assert (Hfail : forall j, (j < 2)%nat -> alive (driver j) = None).
  { intros [|[|j]] Hj; simpl; (reflexivity || lia). }
  assert (Hlast : 2%nat = 5%nat \/ exists db, driver 2%nat = Alive db).
  { right. now exists 8%nat. }
  destruct (Connect_closes_failed Backoff_Wait Backoff_Success driver 5 2 c
                                  ltac:(lia) Hfail Hlast)
    as (Hiff & Hold & Hkept).
  assert (Hfresh : forall db, db <> 7%nat ->
            forall j e, (j < 2)%nat -> driver j <> PingFails db e).
  { intros db Hdb [|[|j]] e Hj; simpl; [discriminate| |lia].
    intros [= <- _]. now apply Hdb. }
  split; [repeat split; (assumption || reflexivity || lia)|].
  split; [apply Hiff; exists 1%nat, "Access denied"; split; [lia|reflexivity]|].
  split; [apply (Hold 6%nat eq_refl), Hfresh; discriminate|].
  split; [apply (Hkept 8%nat eq_refl), Hfresh; discriminate|reflexivity].
Defined.

(** Three statements, the second refused. *)
Lemma Set_stops_at_first_error_witness :
  let exec := fun (n : nat) (q : string) =>
                if String.eqb q "SET GLOBAL slow_query_log=ON"
                then Some "Access denied" else None in
  let queries := ["SET GLOBAL long_query_time=0";
                  "SET GLOBAL slow_query_log=ON";
                  "SET GLOBAL log_output=FILE"] in
  let c := {| dsn := "root:@tcp(127.0.0.1:3306)/"; conn := Some 8%nat;
              backoff := NewBackoff 20 |} in
  (conn c <> None /\ (1 <= length queries)%nat /\
   (forall j q, (j < 1)%nat -> queries !! j = Some q -> exec j (id q) = None)) /\
  Connection_Set id exec queries c
  = (Some "Access denied",
     ["SET GLOBAL long_query_time=0"; "SET GLOBAL slow_query_log=ON"]).
Proof.
  intros exec queries c.
  assert (Hconn : conn c <> None) by discriminate.
  assert (Hk : (1 <= length queries)%nat) by (simpl; lia).
  assert (Hok : forall j q, (j < 1)%nat -> queries !! j = Some q ->
                            exec j (id q) = None).
  { intros [|j] q Hj Hq; [|lia]. injection Hq as <-. reflexivity. }
  split; [repeat split; assumption|].
  destruct (Set_stops_at_first_error id exec queries c 1 Hconn Hk Hok)
    as [_ Hstop].
  exact (Hstop "SET GLOBAL slow_query_log=ON" "Access denied" eq_refl eq_refl).
Defined.

End HandlesScenario.

(** ** [CheckConfig] *)

Section Config.
Import main.

(** X19.  The two results of [CheckConfig] agree: the configuration is
    valid exactly when nothing is reported missing, which is exactly when
    the three fields are set; there is one message for each unset field,
    each naming the configuration file. *)
Theorem CheckConfig_agree (config : Config) (configFile : string) :
  let '(valid, missing) := CheckConfig config configFile in
  (valid = true <-> missing = []) /\
  (valid = true <->
     ApiHostname config <> "" /\ ApiKey config <> "" /\ AgentUuid config <> "") /\
  length missing = unset config /\
  Forall (fun m => exists field,
            m = "No " +:+ field +:+ " in " +:+ configFile +:+ newline) missing.
Proof.
  unfold CheckConfig, unset. destruct config as [h k u]. simpl.
  destruct (String.eqb_spec h "") as [->|Hh];
    destruct (String.eqb_spec k "") as [->|Hk];
    destruct (String.eqb_spec u "") as [->|Hu]; simpl;
    (split; [split; [discriminate || reflexivity|discriminate || reflexivity]|]);
    (split; [split; [discriminate || (intros _; repeat split; assumption)
                    |try reflexivity; intros (? & ? & ?); congruence]|]);
    (split; [reflexivity|]);
    repeat constructor;
    try (now exists "ApiHostname"); try (now exists "ApiKey");
    try (now exists "AgentUuid").
Qed.

End Config.

(** ** Data source names *)

Section DataSourceNames.
Import mysql.
Import Stdlib.Strings.Ascii.

Variable netstat : string + string.
Variable ParseSocketFromNetstat : string -> string.

Lemma app_cons (a : ascii) (s t : string) :
  String a s +:+ t = String a (s +:+ t).
Proof. reflexivity. Qed.

Lemma app_empty_r (s : string) : s +:+ "" = s.
Proof. induction s as [|a s IH]; [reflexivity|]. now rewrite app_cons, IH. Qed.

Lemma app_assoc_string (s t u : string) : (s +:+ t) +:+ u = s +:+ t +:+ u.
Proof.
  induction s as [|a s IH]; [reflexivity|]. now rewrite !app_cons, IH.
Qed.

Lemma list_ascii_app (s t : string) :
  String.list_ascii_of_string (s +:+ t)
  = String.list_ascii_of_string s ++ String.list_ascii_of_string t.
Proof.
  induction s as [|a s IH]; [reflexivity|]. rewrite app_cons. simpl.
  now rewrite IH.
Qed.

(** *** [TrimSuffix] *)

Lemma cutSuffix_eq (s suffix : string) :
  cutSuffix s suffix
  = if String.eqb s suffix then Some EmptyString
    else match s with
         | EmptyString => None
         | String a rest => option_map (String a) (cutSuffix rest suffix)
         end.
Proof. destruct s; reflexivity. Qed.

Lemma cutSuffix_Some (s suffix r : string) :
  cutSuffix s suffix = Some r -> s = r +:+ suffix.
Proof.
  revert r. induction s as [|a s IH]; intros r; rewrite cutSuffix_eq.
  - destruct (String.eqb_spec "" suffix) as [<-|_]; [|discriminate].
    now intros [= <-].
  - destruct (String.eqb_spec (String a s) suffix) as [<-|_].
    + now intros [= <-].
    + destruct (cutSuffix s suffix) as [r'|]; [|discriminate].
      simpl. intros [= <-]. rewrite app_cons. f_equal. now apply IH.
Qed.

Lemma length_app_string (s t : string) :
  String.length (s +:+ t) = (String.length s + String.length t)%nat.
Proof.
  induction s as [|a s IH]; [reflexivity|]. rewrite app_cons. simpl.
  now rewrite IH.
Qed.

Lemma cutSuffix_app (r suffix : string) :
  cutSuffix (r +:+ suffix) suffix = Some r.
Proof.
  induction r as [|a r IH]; rewrite cutSuffix_eq.
  - change ("" +:+ suffix) with suffix. now rewrite String.eqb_refl.
  - rewrite app_cons.
    destruct (String.eqb_spec (String a (r +:+ suffix)) suffix) as [E|_].
    + apply (f_equal String.length) in E. simpl in E.
      rewrite length_app_string in E. lia.
    + now rewrite IH.
Qed.

Lemma TrimSuffix_app (r suffix : string) : TrimSuffix (r +:+ suffix) suffix = r.
Proof. unfold TrimSuffix. now rewrite cutSuffix_app. Qed.

(** A name that ends with [dsnSuffix] does not end with
    [allowOldPasswords]. *)
Lemma TrimSuffix_other (r : string) :
  TrimSuffix (r +:+ dsnSuffix) allowOldPasswords = r +:+ dsnSuffix.
Proof.
  unfold TrimSuffix.
  destruct (cutSuffix (r +:+ dsnSuffix) allowOldPasswords) as [r'|] eqn:E;
    [|reflexivity].
  exfalso. apply cutSuffix_Some in E.
  apply (f_equal (fun s => rev (String.list_ascii_of_string s))) in E.
  simpl in E. rewrite !list_ascii_app, !rev_app_distr in E.
  simpl in E. discriminate E.
Qed.

(** *** [Split] *)

Lemma Split_not_nil (s : string) (c : ascii) : Split s c <> [].
Proof.
  induction s as [|a s IH]; simpl; [discriminate|].
  destruct (Ascii.eqb a c); [discriminate|].
  destruct (Split s c); discriminate.
Qed.

Lemma Split_absent (s : string) (c : ascii) :
  Contains s c = false -> Split s c = [s].
Proof.
  induction s as [|a s IH]; simpl; [reflexivity|].
  destruct (Ascii.eqb a c); simpl; [discriminate|].
  intros H. now rewrite IH.
Qed.

Lemma Split_first (s t : string) (c : ascii) :
  Contains s c = false -> Split (s +:+ String c t) c = s :: Split t c.
Proof.
  induction s as [|a s IH].
  - intros _. change ("" +:+ String c t) with (String c t). simpl.
    now rewrite Ascii.eqb_refl.
  - rewrite app_cons. simpl. destruct (Ascii.eqb a c); simpl; [discriminate|].
    intros H. now rewrite IH.
Qed.

Lemma Split_second (s : string) (c : ascii) :
  Split s c !! 1%nat = None <-> Contains s c = false.
Proof.
  induction s as [|a s IH]; simpl; [easy|].
  destruct (Ascii.eqb a c); simpl.
  - pose proof (Split_not_nil s c). destruct (Split s c); [contradiction|].
    simpl. split; discriminate.
  - pose proof (Split_not_nil s c). destruct (Split s c) as [|p parts];
      [contradiction|]. exact IH.
Qed.

(** *** [DSN] *)

(** X20.  [DSN] never asks the host for the current user: an empty
    hostname has become "localhost" before the address is chosen, unless a
    socket is given, so the branch that calls [user.Current] is never
    taken. *)
Theorem DSN_never_asks_user (user1 user2 : string + string) (dsn : DSN) :
  DSN_DSN netstat user1 ParseSocketFromNetstat dsn
  = DSN_DSN netstat user2 ParseSocketFromNetstat dsn.
Proof.
  unfold DSN_DSN. destruct dsn as [u p h port sock old proto]. simpl.
  destruct (String.eqb_spec p ""); simpl;
    destruct (String.eqb_spec h ""); simpl;
    destruct (String.eqb_spec sock ""); simpl; subst; simpl;
    repeat match goal with
           | |- context [String.eqb ?a ?b] =>
               destruct (String.eqb_spec a b); simpl; try congruence
           | |- context [match netstat with _ => _ end] =>
               destruct netstat; simpl
           end;
    try reflexivity.
Qed.

(** X21.  [DSN] fails exactly when it has to find the socket itself and
    cannot: no socket is given, the hostname is empty or "localhost", the
    protocol is empty or "socket", and [netstat] fails or shows no socket.
    The error is then [ErrNoSocket], with an empty name. *)
Theorem DSN_error_iff (user : string + string) (dsn : DSN) :
  let r := DSN_DSN netstat user ParseSocketFromNetstat dsn in
  (r.2 = None \/ r = ("", Some ErrNoSocket)) /\
  (r.2 <> None <->
     Socket dsn = "" /\
     (Hostname dsn = "" \/ Hostname dsn = "localhost") /\
     (Protocol dsn = "" \/ Protocol dsn = "socket") /\
     undetected netstat ParseSocketFromNetstat = true).
Proof.
  unfold DSN_DSN, undetected. destruct dsn as [u p h port sock old proto].
  cbv zeta. simpl.
  destruct (String.eqb_spec p ""); simpl;
    destruct (String.eqb_spec h ""); simpl;
    destruct (String.eqb_spec sock ""); simpl; subst; simpl;
    repeat match goal with
           | |- context [String.eqb ?a ?b] =>
               destruct (String.eqb_spec a b); simpl; subst
           | |- context [match netstat with inl _ => _ | inr _ => _ end] =>
               destruct netstat; simpl
           end;
    try (exfalso; congruence);
    destruct old;
    (split; [first [left; reflexivity|right; reflexivity]|]);
    (split;
     [intros H; first [exfalso; apply H; reflexivity|repeat split; auto]
     |intros (H1 & [H2|H2] & [H3|H3] & H4);
      first [discriminate|congruence]]).
Qed.

(** What [DSN] returns: the error, or an address followed by the
    suffixes. *)
Lemma DSN_shape (user : string + string) (dsn : DSN) :
  DSN_DSN netstat user ParseSocketFromNetstat dsn = ("", Some ErrNoSocket) \/
  exists body,
    DSN_DSN netstat user ParseSocketFromNetstat dsn
    = (if OldPasswords dsn then (body +:+ dsnSuffix) +:+ allowOldPasswords
       else body +:+ dsnSuffix, None).
Proof.
  unfold DSN_DSN. destruct dsn as [u p h port sock old proto]. simpl.
  destruct (String.eqb_spec p ""); simpl;
    destruct (String.eqb_spec h ""); simpl;
    destruct (String.eqb_spec sock ""); simpl; subst; simpl;
    repeat match goal with
           | |- context [String.eqb ?a ?b] =>
               destruct (String.eqb_spec a b); simpl; subst
           | |- context [match netstat with inl _ => _ | inr _ => _ end] =>
               destruct netstat; simpl
           end;
    try (exfalso; congruence);
    first [left; reflexivity|right; eexists; reflexivity].
Qed.

Lemma hidden_withPassword (dsn : DSN) (password : string) :
  hidden (withPassword dsn password) = hidden dsn.
Proof.
  unfold hidden. destruct dsn as [u p h port sock old proto]. simpl.
  destruct (String.eqb u ""); reflexivity.
Qed.

Lemma hidden_OldPasswords (dsn : DSN) :
  OldPasswords (hidden dsn) = OldPasswords dsn.
Proof. unfold hidden. destruct (String.eqb (Username dsn) ""); reflexivity. Qed.

(** X22.  [String] is [StringWithSuffixes] without the two suffixes, both
    of which [TrimSuffix] finds whenever [DSN] wrote them; both are empty
    when no socket is found; and neither depends on the password. *)
Theorem String_trims_suffixes (user : string + string) (dsn : DSN) :
  let full := StringWithSuffixes netstat user ParseSocketFromNetstat dsn in
  let short := DSN_String netstat user ParseSocketFromNetstat dsn in
  (full = "" /\ short = "" \/
   full = short +:+ dsnSuffix +:+
          (if OldPasswords dsn then allowOldPasswords else "")) /\
  (forall password,
     StringWithSuffixes netstat user ParseSocketFromNetstat
                        (withPassword dsn password) = full /\
     DSN_String netstat user ParseSocketFromNetstat
                (withPassword dsn password) = short).
Proof.
  cbv zeta. split.
  - unfold StringWithSuffixes, DSN_String.
    destruct (DSN_shape user (hidden dsn)) as [E|[body E]]; rewrite E.
    + left. split; reflexivity.
    + right. rewrite hidden_OldPasswords. destruct (OldPasswords dsn).
      * rewrite TrimSuffix_app, TrimSuffix_app. now rewrite app_assoc_string.
      * rewrite TrimSuffix_other, TrimSuffix_app. now rewrite app_empty_r.
  - intros password. unfold StringWithSuffixes, DSN_String.
    now rewrite hidden_withPassword.
Qed.

(** *** [HideDSNPassword] *)

Lemma Contains_app (s t : string) (c : ascii) :
  Contains (s +:+ t) c = Contains s c || Contains t c.
Proof.
  induction s as [|a s IH]; [reflexivity|]. rewrite app_cons. simpl.
  now rewrite IH, orb_assoc.
Qed.

Lemma Split_head (s : string) (c : ascii) :
  exists part parts, Split s c = part :: parts.
Proof.
  pose proof (Split_not_nil s c). destruct (Split s c) as [|part parts];
    [contradiction|]. now exists part, parts.
Qed.

(** X23.  [HideDSNPassword] panics exactly on a name without "@", on the
    index of the part after it. *)
Theorem HideDSNPassword_panics_iff (dsn : string) :
  (exists msg, HideDSNPassword dsn = Panicked msg) <-> Contains dsn "@" = false.
Proof.
  unfold HideDSNPassword. rewrite <- Split_second.
  destruct (Split_head dsn "@") as (p0 & parts & ->). simpl.
  destruct (Split_head p0 ":") as (user & parts' & ->). simpl.
  destruct parts as [|rest parts]; simpl.
  - split; [reflexivity|]. intros _. now eexists.
  - split; [|discriminate]. intros [msg H]. discriminate.
Qed.

(** X24.  Where neither the user, the password nor the address holds an
    "@", and the user holds no ":", [HideDSNPassword] replaces the password
    and keeps the rest; a name without password gets the hidden password as
    well. *)
Theorem HideDSNPassword_hides (user password address : string)
    (Huser : Contains user "@" = false)
    (Hcolon : Contains user ":" = false)
    (Hpassword : Contains password "@" = false)
    (Haddress : Contains address "@" = false) :
  HideDSNPassword (user +:+ ":" +:+ password +:+ "@" +:+ address)
  = Returned (user +:+ ":" +:+ HiddenPassword +:+ "@" +:+ address) /\
  HideDSNPassword (user +:+ "@" +:+ address)
  = Returned (user +:+ ":" +:+ HiddenPassword +:+ "@" +:+ address).
Proof.
  unfold HideDSNPassword. split.
  - replace (user +:+ ":" +:+ password +:+ "@" +:+ address)
      with ((user +:+ ":" +:+ password) +:+ String "@" address)
      by (now rewrite !app_assoc_string).
    rewrite Split_first, (Split_absent address) by
      (rewrite ?Contains_app; simpl; rewrite ?Huser, ?Hpassword; auto).
    simpl. change (":" +:+ password) with (String ":" password).
    rewrite Split_first by exact Hcolon. reflexivity.
  - change ("@" +:+ address) with (String "@" address).
    rewrite Split_first, (Split_absent address) by assumption.
    simpl. rewrite (Split_absent user) by exact Hcolon. reflexivity.
Qed.

(** X25.  A password that holds an "@" is not hidden whole: what follows
    its first "@" is returned in clear, in the place of the address, which
    is lost. *)
Theorem HideDSNPassword_leaks (user before after address : string)
    (Huser : Contains user "@" = false)
    (Hcolon : Contains user ":" = false)
    (Hbefore : Contains before "@" = false)
    (Hafter : Contains after "@" = false) :
  HideDSNPassword (user +:+ ":" +:+ (before +:+ "@" +:+ after) +:+ "@" +:+ address)
  = Returned (user +:+ ":" +:+ HiddenPassword +:+ "@" +:+ after).
Proof.
  unfold HideDSNPassword.
  replace (user +:+ ":" +:+ (before +:+ "@" +:+ after) +:+ "@" +:+ address)
    with ((user +:+ ":" +:+ before) +:+ String "@" (after +:+ String "@" address))
    by (now rewrite !app_assoc_string).
  rewrite Split_first, Split_first by
    (rewrite ?Contains_app; simpl; rewrite ?Huser, ?Hbefore; auto).
  simpl. change (":" +:+ before) with (String ":" before).
  rewrite Split_first by exact Hcolon. reflexivity.
Qed.

End DataSourceNames.

Section DataSourceScenario.
Import mysql.
Import Stdlib.Strings.Ascii.

Lemma HideDSNPassword_hides_witness :
  (Contains "percona" "@" = false /\ Contains "percona" ":" = false /\
   Contains "s3cret" "@" = false /\
   Contains "tcp(127.0.0.1:3306)/?parseTime=true" "@" = false) /\
  HideDSNPassword "percona:s3cret@tcp(127.0.0.1:3306)/?parseTime=true"
  = Returned "percona:<password-hidden>@tcp(127.0.0.1:3306)/?parseTime=true".
Proof.
  split; [repeat split; reflexivity|].
  exact (proj1 (HideDSNPassword_hides
                  "percona" "s3cret" "tcp(127.0.0.1:3306)/?parseTime=true"
                  eq_refl eq_refl eq_refl eq_refl)).
Defined.

Lemma HideDSNPassword_leaks_witness :
  (Contains "percona" "@" = false /\ Contains "percona" ":" = false /\
   Contains "s3" "@" = false /\ Contains "cret" "@" = false) /\
  HideDSNPassword "percona:s3@cret@tcp(127.0.0.1:3306)/?parseTime=true"
  = Returned "percona:<password-hidden>@cret".
Proof.
  split; [repeat split; reflexivity|].
  exact (HideDSNPassword_leaks
           "percona" "s3" "cret" "tcp(127.0.0.1:3306)/?parseTime=true"
           eq_refl eq_refl eq_refl eq_refl).
Defined.

End DataSourceScenario.

(** ** The Sender over several cycles *)

Section Cycles.
Import data.

Variable sc : Script.

(** What a cycle leaves behind, whatever happens in it. *)
Lemma send_cycle (s : Sender) :
  spool (snd (send sc s)) ⊆ spool s /\
  sameSetup s (snd (send sc s)) /\
  (connects s <= connects (snd (send sc s)) <= connects s + 3)%nat /\
  connected (snd (send sc s)) = false /\
  exists info, status (snd (send sc s)) = IdleSent info.
Proof.
  unfold send, mbind, M_bind. cbv beta iota delta [setCounters].
  change (Z.to_nat MAX_SEND_ERRORS) with 3%nat.
  match goal with |- context [sendLoop sc ?n ?st] =>
    destruct (sendLoop_kept sc n st) as ((Hsub & _) & Hsetup & Hc & _);
    destruct (sendLoop sc n st) as [[] s1]
  end. simpl in *.
  split; [exact Hsub|]. split; [exact Hsetup|]. split; [exact Hc|].
  split; [reflexivity|]. now eexists.
Qed.

Lemma runLoop_cycles (signals : list signal) :
  forall s,
    let r := runLoop sc signals s in
    r.1 = stopped signals /\
    spool r.2 ⊆ spool s /\
    sameSetup s r.2 /\
    (connects s <= connects r.2 <= connects s + 3 * cycles signals)%nat /\
    match cycles signals with
    | O => r.2 = s
    | S _ => connected r.2 = false /\ exists info, status r.2 = IdleSent info
    end.
Proof.
  induction signals as [|[|] rest IH]; intros s; cbv zeta.
  - simpl. unfold sameSetup. repeat split; (reflexivity || lia).
  - simpl runLoop. unfold mbind, M_bind.
    destruct (send_cycle s) as (Hsub & Hsetup & Hc & Hcd & Hst).
    destruct (send sc s) as [[] s1]. simpl in Hsub, Hsetup, Hc, Hcd, Hst.
    specialize (IH s1). cbv zeta in IH.
    destruct IH as (Hr & Hsub' & Hsetup' & Hc' & Hlast).
    split; [exact Hr|]. split; [etransitivity; eassumption|].
    split; [eapply sameSetup_trans; eassumption|].
    simpl cycles. split; [lia|].
    destruct (cycles rest); [now rewrite Hlast|exact Hlast].
  - simpl. unfold sameSetup. repeat split; (reflexivity || lia).
Qed.

(** X26.  Over any number of cycles [run] adds no unit to the spool, keeps
    the time budget and the blackhole mode, and calls [ConnectOnce] at most
    [MAX_SEND_ERRORS] times a tick.  It ends "Stopped" exactly when a stop
    signal came; while it waits, the status is "Idle" before the first tick
    and the closing entry of the last cycle after it, the client
    disconnected. *)
Theorem run_cycles (signals : list signal) (s : Sender) :
  let s' := snd (run sc signals s) in
  spool s' ⊆ spool s /\
  timeout s' = timeout s /\ blackhole s' = blackhole s /\
  (connects s <= connects s' <= connects s + 3 * cycles signals)%nat /\
  (status s' = Text "Stopped" <-> stopped signals = true) /\
  (stopped signals = false ->
     match cycles signals with
     | O => status s' = Text "Idle"
     | S _ => connected s' = false /\ exists info, status s' = IdleSent info
     end).
Proof.
  unfold run, mbind, M_bind, statusUpdate. cbv beta iota delta [setWorld].
  match goal with |- context [runLoop sc signals ?st] =>
    pose proof (runLoop_cycles signals st) as H; cbv zeta in H;
    destruct H as (Hr & Hsub & (Hto & Hbh) & Hc & Hlast);
    destruct (runLoop sc signals st) as [returned s1]
  end. simpl in Hr, Hsub, Hto, Hbh, Hc, Hlast. subst returned.
  destruct (stopped signals); simpl.
  - split; [exact Hsub|]. split; [exact Hto|]. split; [exact Hbh|].
    split; [exact Hc|]. split; [split; reflexivity|discriminate].
  - split; [exact Hsub|]. split; [exact Hto|]. split; [exact Hbh|].
    split; [exact Hc|]. split.
    + split; [|discriminate]. intros Hst.
      destruct (cycles signals); [now rewrite Hlast in Hst|].
      destruct Hlast as (_ & info & Hinfo). congruence.
    + intros _. destruct (cycles signals); [now rewrite Hlast|exact Hlast].
Qed.

End Cycles.

(** ** EXPLAIN rows and their tables *)

Section CreateTables.
Import mysql.
Import Stdlib.Strings.Ascii.

Variable scan : nat -> string -> NullString * option string.

Lemma realTables_cons (row : ExplainRow) (rows : list ExplainRow) :
  realTables (row :: rows)
  = if isRealTable (String_ (Table row))
    then String_ (Table row) :: realTables rows else realTables rows.
Proof. reflexivity. Qed.

(** What is asked, and what is returned. *)
Lemma fill_asked (rows : list ExplainRow) :
  forall n k,
    (k <= length (realTables rows))%nat ->
    (forall j table, (j < k)%nat -> realTables rows !! j = Some table ->
       (scan (n + j) ("SHOW CREATE TABLE " +:+ table)).2 = None) ->
    let r := fillCreateTableInClassicExplain scan rows n in
    (k = length (realTables rows) ->
       r.1.2 = None /\ r.2 = realTables rows) /\
    (forall table e, realTables rows !! k = Some table ->
       (scan (n + k) ("SHOW CREATE TABLE " +:+ table)).2 = Some e ->
       r.1.2 = Some e /\ r.2 = take (S k) (realTables rows)).
Proof.
  induction rows as [|row rest IH]; intros n k Hk Hok; cbv zeta.
  - simpl. split; [auto|]. intros table e H. discriminate.
  - simpl fillCreateTableInClassicExplain. rewrite realTables_cons in *.
    destruct (isRealTable (String_ (Table row))) eqn:Hreal.
    + unfold showCreateTable. destruct k as [|k].
      * split; [discriminate|]. intros table e [= <-] He.
        rewrite Nat.add_0_r in He.
        destruct (scan n ("SHOW CREATE TABLE " +:+ String_ (Table row)))
          as [createTable [e'|]]; simpl in He; [|discriminate].
        injection He as ->. simpl. auto.
      * pose proof (Hok O _ ltac:(lia) eq_refl) as H0.
        rewrite Nat.add_0_r in H0.
        destruct (scan n ("SHOW CREATE TABLE " +:+ String_ (Table row)))
          as [createTable [e'|]]; simpl in H0; [discriminate|].
        simpl in Hk.
        specialize (IH (S n) k ltac:(lia)). cbv zeta in IH.
        destruct IH as [Hall Hstop].
        { intros j table Hj Ht.
          replace (S n + j)%nat with (n + S j)%nat by lia.
          apply Hok; [lia|exact Ht]. }
        destruct (fillCreateTableInClassicExplain scan rest (S n))
          as [[rest' err'] asked'].
        simpl in *. split.
        -- intros Hlen. destruct Hall as [-> ->]; [lia|]. auto.
        -- intros table e Ht He.
           replace (n + S k)%nat with (S (n + k)) in He by lia.
           destruct (Hstop table e Ht He) as [-> ->]. auto.
    + specialize (IH n k Hk Hok). cbv zeta in IH. destruct IH as [Hall Hstop].
      destruct (fillCreateTableInClassicExplain scan rest n)
        as [[rest' err'] asked'].
      simpl in *. split; [exact Hall|exact Hstop].
Qed.

(** What becomes of the rows, given how many statements were run. *)
Lemma fill_rows (rows : list ExplainRow) :
  forall n i row,
    let r := fillCreateTableInClassicExplain scan rows n in
    rows !! i = Some row ->
    r.1.1 !! i
    = Some (if isRealTable (String_ (Table row))
               && (rank rows i <? length r.2)%nat
            then asked scan (n + rank rows i) row else row).
Proof.
  induction rows as [|row0 rest IH]; intros n i row; cbv zeta; [discriminate|].
  simpl fillCreateTableInClassicExplain. unfold rank.
  destruct (isRealTable (String_ (Table row0))) eqn:Hreal.
  - destruct (showCreateTable scan n (String_ (Table row0)))
      as [createTable err] eqn:Hshow.
    assert (Hrow0 : {| Table := Table row0; CreateTable := createTable |}
                    = asked scan n row0).
    { unfold asked. now rewrite Hshow. }
    destruct err as [e|].
    + destruct i as [|i]; simpl.
      * intros [= <-]. rewrite Hreal, Nat.add_0_r. simpl. now rewrite Hrow0.
      * intros Hi. rewrite Hi. rewrite realTables_cons, Hreal. simpl.
        now rewrite andb_false_r.
    + specialize (IH (S n)). cbv zeta in IH.
      destruct (fillCreateTableInClassicExplain scan rest (S n))
        as [[rest' err'] asked'].
      destruct i as [|i]; simpl.
      * intros [= <-]. rewrite Hreal, Nat.add_0_r. simpl. now rewrite Hrow0.
      * intros Hi. simpl in IH. rewrite (IH i row Hi).
        rewrite realTables_cons, Hreal. simpl length. unfold rank.
        replace (n + S (length (realTables (take i rest))))%nat
          with (S n + length (realTables (take i rest)))%nat by lia.
        reflexivity.
  - specialize (IH n). cbv zeta in IH.
    destruct (fillCreateTableInClassicExplain scan rest n)
      as [[rest' err'] asked'].
    destruct i as [|i]; simpl.
    + intros [= <-]. now rewrite Hreal.
    + intros Hi. simpl in IH. rewrite (IH i row Hi).
      rewrite realTables_cons, Hreal. reflexivity.
Qed.

(** X27.  [fillCreateTableInClassicExplain] runs one statement for each
    row of a real table, in order, as long as they succeed: a row whose
    table name is empty or begins with "<" costs none and is left as it
    is.  With no failure it returns nil, having asked for every real
    table.  The first statement that fails ends it: its error is returned,
    nothing is asked after it, and the rows after it are left as they are.
    A row asked for carries what the statement gave, which after the
    failure is no value. *)
Theorem fill_real_tables (rows : list ExplainRow) (k : nat)
    (Hk : (k <= length (realTables rows))%nat)
    (Hok : forall j table, (j < k)%nat -> realTables rows !! j = Some table ->
             (scan j ("SHOW CREATE TABLE " +:+ table)).2 = None) :
  let r := fillCreateTableInClassicExplain scan rows 0 in
  (k = length (realTables rows) ->
     r.1.2 = None /\ r.2 = realTables rows) /\
  (forall table e, realTables rows !! k = Some table ->
     (scan k ("SHOW CREATE TABLE " +:+ table)).2 = Some e ->
     r.1.2 = Some e /\ r.2 = take (S k) (realTables rows) /\
     forall row, String_ (Table row) = table ->
       CreateTable (asked scan k row) = {| String_ := ""; Valid := false |}) /\
  (forall i row, rows !! i = Some row ->
     r.1.1 !! i
     = Some (if isRealTable (String_ (Table row))
                && (rank rows i <? length r.2)%nat
             then asked scan (rank rows i) row else row)) /\
  isRealTable "" = false /\
  (forall name, isRealTable (String "<" name) = false).
Proof.
  pose proof (fill_asked rows 0 k Hk) as H. cbv zeta in *.
  destruct H as [Hall Hstop]; [exact Hok|].
  split; [exact Hall|]. split; [|split; [|split; [reflexivity|reflexivity]]].
  - intros table e Ht He. destruct (Hstop table e Ht He) as [H1 H2].
    split; [exact H1|]. split; [exact H2|].
    intros row Hrow. unfold asked, showCreateTable. simpl. rewrite Hrow.
    destruct (scan k ("SHOW CREATE TABLE " +:+ table)) as [ct [e'|]];
      [reflexivity|discriminate].
  - intros i row Hi. exact (fill_rows rows 0 i row Hi).
Qed.

End CreateTables.

Section CreateTablesScenario.
Import mysql.

(** Three rows, the second of a derived table; the statement for the third
    fails. *)
Lemma fill_real_tables_witness :
  let null := {| String_ := ""; Valid := false |} in
  let row := fun name => {| Table := {| String_ := name; Valid := true |};
                            CreateTable := null |} in
  let rows := [row "t1"; row "<derived2>"; row "t2"] in
  let scan := fun (n : nat) (q : string) =>
                if String.eqb q "SHOW CREATE TABLE t2"
                then (null, Some "Table 'test.t2' doesn't exist")
                else ({| String_ := "CREATE TABLE t1 (id int)"; Valid := true |},
                      None) in
  let r := fillCreateTableInClassicExplain scan rows 0 in
  ((1 <= length (realTables rows))%nat /\
   (forall j table, (j < 1)%nat -> realTables rows !! j = Some table ->
      (scan j ("SHOW CREATE TABLE " +:+ table)).2 = None)) /\
  realTables rows = ["t1"; "t2"] /\
  r.1.2 = Some "Table 'test.t2' doesn't exist" /\ r.2 = ["t1"; "t2"] /\
  r.1.1 !! 1%nat = Some (row "<derived2>").
Proof.
  intros null row rows scan r.
  assert (Hk : (1 <= length (realTables rows))%nat) by (simpl; lia).
  assert (Hok : forall j table, (j < 1)%nat ->
                  realTables rows !! j = Some table ->
                  (scan j ("SHOW CREATE TABLE " +:+ table)).2 = None).
  { intros [|j] table Hj Ht; [|lia]. injection Ht as <-. reflexivity. }
  destruct (fill_real_tables scan rows 1 Hk Hok) as (_ & Hstop & Hrows & _).
  destruct (Hstop "t2" "Table 'test.t2' doesn't exist" eq_refl eq_refl)
    as (Herr & Hasked & _).
  split; [split; assumption|]. split; [reflexivity|].
  split; [exact Herr|]. split; [exact Hasked|].
  exact (Hrows 1%nat (row "<derived2>") eq_refl).
Defined.

End CreateTablesScenario.
